(** * Sampler for the Gemma transformer: the decoding state machine

    Shallow embedding of [gemma/gm/text/_sampler_impl.py].

    Conventions.
    - A [jnp.int32] scalar or array element is a [Z]; the arithmetic the
      source performs on such values is written with its 32-bit
      wrap-around ([Int32.add], [Int32.sub], [Int32.mul]).
    - A JAX array is a list (of lists); an axis of length [n] has the
      indices [0 .. n-1].  Indexing follows JAX: a negative index counts
      from the end, a read out of bounds is clamped, an [.at[].set] out
      of bounds is dropped.
    - The transformer, the tokenizer, the sampling method and
      [jax.random.split] are collaborators of the sampler: they are
      record fields or section variables, never fixed.
    - The ids the tokenizer gives, its special tokens and what [encode]
      returns, are taken to be values of [int32], the type of the
      arrays the source puts them in.  Where the source builds such an
      array from an id that does not fit ([jnp.array] in [tokenize],
      [jnp.full] in [init_sample_state]) it raises [OverflowError];
      this is not followed here.  [typed_call] below collects what the
      source takes for granted of the values of a call. *)

From Stdlib Require Import ZArith Lia String.
From stdpp Require Import base tactics option list.

Local Open Scope Z_scope.

(** ** 32-bit integers *)

Module Int32.

Definition min_int : Z := - 2 ^ 31.
Definition max_int : Z := 2 ^ 31 - 1.

Definition in_range (z : Z) : Prop := min_int <= z <= max_int.

Definition wrap (z : Z) : Z := (z + 2 ^ 31) mod 2 ^ 32 - 2 ^ 31.

Definition add (a b : Z) : Z := wrap (a + b).
Definition sub (a b : Z) : Z := wrap (a - b).
Definition mul (a b : Z) : Z := wrap (a * b).

(** Cast of an [int32] to [uint32]. *)
Definition to_uint32 (z : Z) : Z := z mod 2 ^ 32.

(** Cast of a [uint32] to [int32]. *)
Definition of_uint32 (z : Z) : Z := wrap z.

End Int32.

(** ** Errors *)

Inductive exn :=
| ValueError (msg : string)
| TypeError (msg : string).

(** What a computation ends in: a value, a raised exception, or the
    fuel of the decode loop used up. *)
Inductive outcome (A : Type) :=
| Ok (a : A)
| Raise (e : exn)
| OutOfFuel.
Arguments Ok {A} a.
Arguments Raise {A} e.
Arguments OutOfFuel {A}.

#[global] Instance outcome_ret : MRet outcome := fun A a => Ok a.
#[global] Instance outcome_bind : MBind outcome := fun A B f m =>
  match m with
  | Ok a => f a
  | Raise e => Raise e
  | OutOfFuel => OutOfFuel
  end.

(** ** Arrays

    The shapes of the arrays of a JAX program are fixed when it is
    traced, and an operation on arrays whose shapes do not fit is
    refused then.  On lists, an elementwise operation stops at the
    shorter operand, and a column update leaves a row that gets no
    value as it is; on arrays of fitting shapes this is what JAX
    computes. *)

Module Jnp.

Section Generic.
Context {A : Type}.

(** A negative index [j] on an axis of length [len] means [j + len]. *)
Definition norm_index (len : nat) (j : Z) : Z :=
  if j <? 0 then j + Z.of_nat len else j.

(** [x[j]] for a traced index: the index is clamped into the axis.
    [d] is returned on an axis of length 0, which JAX refuses when it
    traces the program. *)
Definition getitem (d : A) (x : list A) (j : Z) : A :=
  let k := Z.max 0 (Z.min (norm_index (length x) j) (Z.of_nat (length x) - 1)) in
  default d (x !! Z.to_nat k).

(** [x.at[j].set(v)]: an update out of bounds is dropped. *)
Definition at_set (x : list A) (j : Z) (v : A) : list A :=
  let k := norm_index (length x) j in
  if (0 <=? k) && (k <? Z.of_nat (length x)) then <[Z.to_nat k := v]> x
  else x.

(** [x.at[ids].set(v)] for a tuple of indices. *)
Definition at_set_many (x : list A) (ids : list Z) (v : A) : list A :=
  foldr (fun j acc => at_set acc j v) x ids.

(** [a[:, j]] *)
Definition col (d : A) (a : list (list A)) (j : Z) : list A :=
  map (fun row => getitem d row j) a.

(** [a.at[:, j].set(v)] with one value of [v] per row of [a]. *)
Definition at_set_col (a : list (list A)) (j : Z) (v : list A)
  : list (list A) :=
  imap (fun i row =>
          match v !! i with
          | Some x => at_set row j x
          | None => row
          end) a.

(** [jnp.where(c, x, y)], elementwise. *)
Definition where_ (c : list bool) (x y : list A) : list A :=
  zip_with (fun (b : bool) (xy : A * A) => if b then xy.1 else xy.2)
           c (zip x y).

(** Bound of a Python slice on a sequence of length [len]. *)
Definition slice_bound (len : nat) (i : Z) : nat :=
  Z.to_nat (if i <? 0 then Z.max (i + Z.of_nat len) 0
            else Z.min i (Z.of_nat len)).

(** [x[start:stop]] *)
Definition slice (x : list A) (start stop : Z) : list A :=
  let a := slice_bound (length x) start in
  let b := slice_bound (length x) stop in
  take (b - a) (drop a x).

(** [jax.lax.dynamic_slice] on one axis: the start is clamped so that
    the window lies inside the axis. *)
Definition dynamic_slice (x : list A) (start : Z) (size : Z) : list A :=
  let s := Z.max 0 (Z.min start (Z.of_nat (length x) - size)) in
  take (Z.to_nat size) (drop (Z.to_nat s) x).

(** [x.at[:n].set(v)].  When the slice [x[:n]] is empty nothing is
    written and [x] is returned, whatever the shape of [v] is.
    Otherwise [v] must have the shape of the slice, or a single
    element, which is then broadcast. *)
Definition at_set_prefix (x : list A) (n : Z) (v : list A)
  : outcome (list A) :=
  let w := length (slice x 0 n) in
  if decide (w = 0%nat) then Ok x
  else if decide (length v = w) then Ok (v ++ drop w x)
  else
    match v with
    | [v0] => Ok (replicate w v0 ++ drop w x)
    | _ => Raise (ValueError "Incompatible shapes for broadcasting")
    end.

(** [jnp.full((n,), v)] *)
Definition full (n : nat) (v : A) : list A := replicate n v.
End Generic.

(** [jnp.arange(n)] *)
Definition arange (n : nat) : list Z := seqZ 0 (Z.of_nat n).

(** [jnp.any] on the last axis. *)
Definition any (l : list bool) : bool := existsb (fun b => b) l.

(** Index of the first [true]. *)
Fixpoint first_true (l : list bool) : option nat :=
  match l with
  | [] => None
  | true :: _ => Some 0%nat
  | false :: r => S <$> first_true r
  end.

(** [jnp.argmax] of a boolean row: the first index that holds the
    maximum, which is the first [true], and 0 on a row without [true]. *)
Definition argmax (l : list bool) : nat := default 0%nat (first_true l).

Definition b2z (b : bool) : Z := if b then 1 else 0.

End Jnp.

(** ** Events of a call *)

(** What [Sampler.__call__] does, statement by statement:
    [tokenizer.encode] on a forbidden token, [self.tokenize] on a
    prompt, [self.init_sample_state], which builds the sampling state
    and the cache, [self._compiled_sample_fn], the decode loop in which
    the transformer runs, and [tokenizer.decode] on the tokens of an
    output. *)
Inductive event :=
| EvEncodeForbidden (token : string)
| EvTokenize (input_string : string)
| EvInitSampleState
| EvSampleFn
| EvDecode (tokens : list Z).

(** ** The tokenizer (module [_tokenizer], used through this interface) *)

Record SpecialTokens := {
  PAD : Z;
  EOS : Z;
  BOS : Z;
}.

Record Tokenizer := {
  special_tokens : SpecialTokens;
  encode : string -> list Z;
  decode : list Z -> string;
}.

(** ** [jax.lax.while_loop] *)

Module Lax.

Fixpoint while_loop {S : Type} (fuel : nat) (cond_fn : S -> bool)
    (body_fn : S -> S) (init_val : S) : outcome S :=
  match fuel with
  | O => OutOfFuel
  | Datatypes.S fuel' =>
      if cond_fn init_val
      then while_loop fuel' cond_fn body_fn (body_fn init_val)
      else Ok init_val
  end.

End Lax.

(** ** Causal attention mask *)

(** [_compute_attention_masks(time_step, seq_len, input_mask)]; the
    result has shape [B, 1, seq_len].  [time_step] is an [int32] and
    [batch_time_step] holds it cast to [uint32].  [jnp.less_equal]
    compares the [int32] indices of the window with it in [int32], the
    type to which JAX promotes the two when 64-bit types are off, as
    they are by default: the step is cast back. *)
Definition _compute_attention_masks (time_step : Z) (seq_len : Z)
    (input_mask : list (list bool)) : list (list (list bool)) :=
  let batch_time_step := Int32.to_uint32 time_step in
  let causal_mask :=
    map (fun j => j <=? Int32.of_uint32 batch_time_step)
        (Jnp.arange (Z.to_nat seq_len)) in
  map (fun row =>
         let max_seq_len := Z.min (Z.of_nat (length row)) seq_len in
         let input_mask :=
           Jnp.dynamic_slice row
             (Z.max (Int32.add (Int32.sub time_step seq_len) 1) 0)
             max_seq_len in
         let input_mask :=
           input_mask
             ++ replicate (Z.to_nat seq_len - Z.to_nat max_seq_len) true in
         let causal_mask := zip_with andb causal_mask input_mask in
         [causal_mask])
      input_mask.

(** ** What the sampler takes from JAX and from [gemma.transformer]

    [F] is the element type of the logits and [PRNGKey] the type of the
    keys of [jax.random]. *)

Class Runtime (F PRNGKey : Type) := {
  (** [-jnp.inf] *)
  neg_inf : F;
  (** [0.0] *)
  zero : F;
  (** [jax.random.split(key)], giving [(next_rng, curr_rng)] *)
  random_split : PRNGKey -> PRNGKey * PRNGKey;
  (** [transformer_lib.build_positions_from_mask] *)
  build_positions_from_mask : list (list bool) -> list (list Z);
}.

(** ** The sampler *)

Section Sampler.

Context {F Cache Params PRNGKey : Type} `{!Runtime F PRNGKey}.

(** The transformer: [apply] takes the parameters, the last tokens
    [B, 1], their positions [B, 1], the cache and the attention mask
    [B, 1, W], and returns the logits [B, 1, V] and the new cache;
    [init_cache] takes the batch size, the parameters, whose dtype it
    uses, and the cache length. *)
Record Transformer := {
  apply : Params -> list (list Z) -> list (list Z) -> Cache ->
          list (list (list bool)) -> list (list (list F)) * Cache;
  init_cache : nat -> Params -> Z -> Cache;
  num_embed : nat;
}.

(** The sampling method: logits [B, 1, V] and a key to tokens [B, 1]. *)
Record SamplingMethod := {
  get_next_tokens : list (list (list F)) -> PRNGKey -> list (list Z);
}.

Record _SamplingState := {
  decoding_step : Z;
  num_input_tokens : list Z;
  token_buffer : list (list Z);
  positions : list (list Z);
  cache : Cache;
  done : list bool;
  total_sampling_steps : Z;
  logits_buffer : option (list (list (list F)));
  forbidden_token_ids : option (list Z);
  rng : PRNGKey;
}.

Record SamplerOutput := {
  text : list string;
  logits : list (list (list F));
  tokens : list (list Z);
}.

Record Sampler := {
  transformer : Transformer;
  tokenizer : Tokenizer;
  params : Params;
  cache_length : Z;
  _rng : PRNGKey;
}.

(** [Sampler._sample_step]; [decoding_step] is an [int32] already, so
    [jnp.asarray(..., dtype=jnp.int32)] leaves it as it is. *)
Definition _sample_step (self : Sampler) (params : Params)
    (sampler_state : _SamplingState) (sampling : SamplingMethod)
    : _SamplingState :=
  let decoding_step := decoding_step sampler_state in
  let last_token := Jnp.col 0 (token_buffer sampler_state) decoding_step in
  let input_mask :=
    map (map (fun t => negb (t =? PAD (special_tokens (tokenizer self)))))
        (token_buffer sampler_state) in
  let attention_mask :=
    _compute_attention_masks decoding_step (cache_length self) input_mask in
  let step_positions :=
    map (fun p => [p]) (Jnp.col 0 (positions sampler_state) decoding_step) in
  let last_token := map (fun t => [t]) last_token in
  let out :=
    apply (transformer self) params last_token step_positions
          (cache sampler_state) attention_mask in
  let logits := out.1 in
  let logits :=
    match forbidden_token_ids sampler_state with
    | Some ((_ :: _) as ids) =>
        map (map (fun v => Jnp.at_set_many v ids neg_inf)) logits
    | _ => logits
    end in
  let '(next_rng, curr_rng) := random_split (rng sampler_state) in
  let next_token_candidate := get_next_tokens sampling logits curr_rng in
  let next_token_candidate :=
    map (fun r => Jnp.getitem 0 r 0) next_token_candidate in
  let next_token_candidate :=
    Jnp.where_
      (map (fun n => decoding_step <? Int32.sub n 1)
           (num_input_tokens sampler_state))
      (Jnp.col 0 (token_buffer sampler_state) (Int32.add decoding_step 1))
      next_token_candidate in
  let token_buffer :=
    Jnp.at_set_col (token_buffer sampler_state) (Int32.add decoding_step 1)
                   next_token_candidate in
  let logits_buffer :=
    match logits_buffer sampler_state with
    | Some lb =>
        let next_logits := map (fun l => default [] (head l)) logits in
        Some (Jnp.at_set_col lb (Int32.add decoding_step 1) next_logits)
    | None => None
    end in
  let done :=
    zip_with orb (done sampler_state)
      (map (fun t => t =? EOS (special_tokens (tokenizer self)))
           (Jnp.col 0 token_buffer (Int32.add decoding_step 1))) in
  {| decoding_step := Int32.add (decoding_step) 1;
     num_input_tokens := num_input_tokens sampler_state;
     token_buffer := token_buffer;
     positions := positions sampler_state;
     logits_buffer := logits_buffer;
     cache := out.2;
     done := done;
     total_sampling_steps := total_sampling_steps sampler_state;
     forbidden_token_ids := forbidden_token_ids sampler_state;
     rng := next_rng |}.

(** [Sampler.init_cache] *)
Definition sampler_init_cache (self : Sampler) (bsz : nat) : Cache :=
  init_cache (transformer self) bsz (params self) (cache_length self).

(** [Sampler.init_sample_state].  The loop over the prompts writes row
    [i] of the buffer and row [i] of the input mask; here the rows of
    the buffer are written first, then those of the mask.  [jnp.full]
    refuses a negative [buffer_size] with a [TypeError].  With a
    [buffer_size] of 0 the rows are empty and no prompt is written. *)
Definition init_sample_state (self : Sampler) (all_input_ids : list (list Z))
    (total_sampling_steps : Z) (include_logits : bool)
    (forbidden_token_ids : option (list Z)) : outcome _SamplingState :=
  let pad := PAD (special_tokens (tokenizer self)) in
  let bsz := length all_input_ids in
  let num_input_tokens :=
    map (fun input_ids => Z.of_nat (length input_ids)) all_input_ids in
  let buffer_size := total_sampling_steps + 1 in
  if buffer_size <? 0
  then Raise (TypeError "shape must have every element be nonnegative")
  else
    let buffer_row := Jnp.full (Z.to_nat buffer_size) pad in
    let mask_row := Jnp.full (Z.to_nat buffer_size) true in
    token_buffer ←
      mapM (fun input_ids =>
              Jnp.at_set_prefix buffer_row (Z.of_nat (length input_ids))
                                input_ids)
           all_input_ids;
    input_mask ←
      mapM (fun input_ids =>
              Jnp.at_set_prefix mask_row (Z.of_nat (length input_ids))
                                (map (fun t => negb (t =? pad)) input_ids))
           all_input_ids;
    let positions := build_positions_from_mask input_mask in
    let done := Jnp.full bsz false in
    let logits_buffer :=
      if include_logits
      then Some (Jnp.full bsz
                   (Jnp.full (Z.to_nat buffer_size)
                      (Jnp.full (num_embed (transformer self)) zero)))
      else None in
    Ok {| decoding_step := 0;
          num_input_tokens := num_input_tokens;
          token_buffer := token_buffer;
          positions := positions;
          logits_buffer := logits_buffer;
          cache := sampler_init_cache self bsz;
          done := done;
          total_sampling_steps := total_sampling_steps;
          forbidden_token_ids := forbidden_token_ids;
          rng := _rng self |}.

(** [Sampler.tokenize], on ids that fit [int32] *)
Definition tokenize (self : Sampler) (input_string : string) : list Z :=
  let input_ids := encode (tokenizer self) input_string in
  BOS (special_tokens (tokenizer self)) :: input_ids.

(** [Sampler.mask_tokens_after_eos_ids]; all its operations act on the
    last axis, so they are written for one row, whose length is
    [token_buffer.shape[-1]]. *)
Definition mask_row_after_eos_ids (self : Sampler) (row : list Z) : list Z :=
  let eos_id := EOS (special_tokens (tokenizer self)) in
  let is_eos := map (fun t => t =? eos_id) row in
  let eos_exists := Jnp.any is_eos in
  let eos_index :=
    if eos_exists then Z.of_nat (Jnp.argmax is_eos)
    else Z.of_nat (length row) in
  let mask := map (fun j => j <=? eos_index) (Jnp.arange (length row)) in
  zip_with
    (fun t (m : bool) =>
       Int32.add (Int32.mul t (Jnp.b2z m))
                 (Int32.mul (PAD (special_tokens (tokenizer self)))
                            (Int32.sub 1 (Jnp.b2z m))))
    row mask.

Definition mask_tokens_after_eos_ids (self : Sampler)
    (token_buffer : list (list Z)) : list (list Z) :=
  map (mask_row_after_eos_ids self) token_buffer.

(** The loop condition of [Sampler._sample_fn]. *)
Definition cond_fn (sampler_state : _SamplingState) : bool :=
  (decoding_step sampler_state <? total_sampling_steps sampler_state)
  && Jnp.any (map negb (done sampler_state)).

(** [Sampler._sample_fn]; [fuel] bounds the iterations of the loop.
    The loop is the one JAX runs once it has traced the step, which it
    does for a buffer that has a slot. *)
Definition _sample_fn (fuel : nat) (self : Sampler) (params : Params)
    (initial_sampling_state : _SamplingState) (sampling : SamplingMethod)
    : outcome _SamplingState :=
  let sample_with_params := fun sampler_state =>
    _sample_step self params sampler_state sampling in
  Lax.while_loop fuel cond_fn sample_with_params initial_sampling_state.

(** *** The call monad

    A call runs on the sampler object, whose [_rng] it replaces at its
    end, and leaves a trace of what it did. *)

Record world := {
  w_self : Sampler;
  w_trace : list event;
}.

Definition M (A : Type) : Type := world -> world * outcome A.

#[global] Instance M_ret : MRet M := fun A a w => (w, Ok a).
#[global] Instance M_bind : MBind M := fun A B f m w =>
  match m w with
  | (w', Ok a) => f a w'
  | (w', Raise e) => (w', Raise e)
  | (w', OutOfFuel) => (w', OutOfFuel)
  end.

Definition emit (e : event) : M unit := fun w =>
  ({| w_self := w_self w; w_trace := w_trace w ++ [e] |}, Ok tt).

Definition raise {A : Type} (e : exn) : M A := fun w => (w, Raise e).

Definition lift {A : Type} (o : outcome A) : M A := fun w => (w, o).

Definition get_self : M Sampler := fun w => (w, Ok (w_self w)).

(** [self._rng = key] *)
Definition set_rng (key : PRNGKey) : M unit := fun w =>
  let self := w_self w in
  ({| w_self := {| transformer := transformer self;
                   tokenizer := tokenizer self;
                   params := params self;
                   cache_length := cache_length self;
                   _rng := key |};
      w_trace := w_trace w |}, Ok tt).

(** The loop of [__call__] over [forbidden_tokens]. *)
Fixpoint forbidden_ids_loop (self : Sampler) (forbidden_tokens : list string)
    (forbidden_token_ids : list Z) : M (list Z) :=
  match forbidden_tokens with
  | [] => mret forbidden_token_ids
  | token :: rest =>
      emit (EvEncodeForbidden token);;
      let token_id := encode (tokenizer self) token in
      if decide (length token_id = 1%nat)
      then forbidden_ids_loop self rest (forbidden_token_ids ++ token_id)
      else raise (ValueError
             "Forbidden tokens must map to single token ids in the vocab.")
  end.

(** Python's [max] of a sequence of integers. *)
Definition py_max (l : list Z) : outcome Z :=
  match l with
  | [] => Raise (ValueError "max() arg is an empty sequence")
  | x :: r => Ok (foldl Z.max x r)
  end.

(** The loop of [__call__] that slices the outputs out of the masked
    buffer. *)
Definition out_tokens_of (echo : bool) (total_sampling_steps : Z)
    (masked_token_buffer : list (list Z)) (num_input_tokens : list Z)
    : list (list Z) :=
  zip_with (fun token_buffer num_tokens =>
              let start_idx := if echo then 0 else num_tokens in
              Jnp.slice token_buffer start_idx total_sampling_steps)
           masked_token_buffer num_input_tokens.

(** The same loop on the logits; [logits_buffer[i]] is row [i] of the
    buffer of logits, which is there when [return_logits] is set. *)
Definition out_logits_of (echo return_logits : bool)
    (total_sampling_steps : Z) (masked_token_buffer : list (list Z))
    (num_input_tokens : list Z)
    (logits_buffer : option (list (list (list F))))
    : list (list (list F)) :=
  if return_logits
  then
    imap (fun i (p : list Z * Z) =>
            let start_idx := if echo then 0 else p.2 in
            let logits_buffer :=
              default [] (default [] logits_buffer !! i) in
            Jnp.slice logits_buffer start_idx total_sampling_steps)
         (zip masked_token_buffer num_input_tokens)
  else [].

(** [Sampler.__call__] *)
Definition __call__ (fuel : nat) (input_strings : list string)
    (total_generation_steps : Z) (echo : bool) (return_logits : bool)
    (forbidden_tokens : option (list string)) (sampling : SamplingMethod)
    : M SamplerOutput :=
  self ← get_self;
  forbidden_token_ids ←
    match forbidden_tokens with
    | Some forbidden_tokens =>
        forbidden_token_ids ← forbidden_ids_loop self forbidden_tokens [];
        mret (Some forbidden_token_ids)
    | None => mret None
    end;
  all_input_ids ←
    mapM (fun x => emit (EvTokenize x);; mret (tokenize self x))
         input_strings;
  max_input_length ←
    lift (py_max (map (fun input_ids => Z.of_nat (length input_ids))
                      all_input_ids));
  let total_sampling_steps := max_input_length + total_generation_steps in
  emit EvInitSampleState;;
  initial_sampling_state ←
    lift (init_sample_state self all_input_ids total_sampling_steps
                            return_logits forbidden_token_ids);
  emit EvSampleFn;;
  sampling_state ←
    lift (_sample_fn fuel self (params self) initial_sampling_state sampling);
  let masked_token_buffer :=
    mask_tokens_after_eos_ids self (token_buffer sampling_state) in
  let out_tokens :=
    out_tokens_of echo total_sampling_steps masked_token_buffer
                  (num_input_tokens sampling_state) in
  let out_logits :=
    out_logits_of echo return_logits total_sampling_steps
                  masked_token_buffer (num_input_tokens sampling_state)
                  (logits_buffer sampling_state) in
  decoded_outputs ←
    mapM (fun tokens =>
            emit (EvDecode tokens);; mret (decode (tokenizer self) tokens))
         out_tokens;
  set_rng (rng sampling_state);;
  mret {| text := decoded_outputs;
          logits := out_logits;
          tokens := out_tokens |}.

(** One call on a sampler, from an empty trace. *)
Definition run_call {A : Type} (m : M A) (self : Sampler)
  : world * outcome A :=
  m {| w_self := self; w_trace := [] |}.

(** *** Views on a decode step, for the statements below *)

(** The state after [k] decode steps. *)
Fixpoint sample_steps (self : Sampler) (params : Params)
    (sampling : SamplingMethod) (k : nat) (sampler_state : _SamplingState)
    : _SamplingState :=
  match k with
  | O => sampler_state
  | S k' =>
      sample_steps self params sampling k'
                   (_sample_step self params sampler_state sampling)
  end.

(** The logits that [_sample_step] hands to the sampling method: those
    of the transformer, after the forbidden ids are set to [-inf]. *)
Definition sampling_logits (self : Sampler) (params : Params)
    (sampler_state : _SamplingState) : list (list (list F)) :=
  let decoding_step := decoding_step sampler_state in
  let input_mask :=
    map (map (fun t => negb (t =? PAD (special_tokens (tokenizer self)))))
        (token_buffer sampler_state) in
  let out :=
    apply (transformer self) params
          (map (fun t => [t])
               (Jnp.col 0 (token_buffer sampler_state) decoding_step))
          (map (fun p => [p])
               (Jnp.col 0 (positions sampler_state) decoding_step))
          (cache sampler_state)
          (_compute_attention_masks decoding_step (cache_length self)
                                    input_mask) in
  match forbidden_token_ids sampler_state with
  | Some ((_ :: _) as ids) =>
      map (map (fun v => Jnp.at_set_many v ids neg_inf)) out.1
  | _ => out.1
  end.

(** The tokens the sampling method returns in [_sample_step], one per
    sequence. *)
Definition sampled_tokens (self : Sampler) (params : Params)
    (sampler_state : _SamplingState) (sampling : SamplingMethod) : list Z :=
  map (fun r => Jnp.getitem 0 r 0)
      (get_next_tokens sampling (sampling_logits self params sampler_state)
                       (random_split (rng sampler_state)).2).

(** The tokens [_sample_step] writes at [decoding_step + 1]: the next
    prompt token inside the prompt, the sampled token after it. *)
Definition next_tokens (self : Sampler) (params : Params)
    (sampler_state : _SamplingState) (sampling : SamplingMethod) : list Z :=
  Jnp.where_
    (map (fun n => decoding_step sampler_state <? Int32.sub n 1)
         (num_input_tokens sampler_state))
    (Jnp.col 0 (token_buffer sampler_state)
             (Int32.add (decoding_step sampler_state) 1))
    (sampled_tokens self params sampler_state sampling).

(** The index up to which [mask_tokens_after_eos_ids] keeps a row:
    [eos_indices] in the source. *)
Definition eos_index (self : Sampler) (row : list Z) : Z :=
  let is_eos :=
    map (fun t => t =? EOS (special_tokens (tokenizer self))) row in
  if Jnp.any is_eos then Z.of_nat (Jnp.argmax is_eos)
  else Z.of_nat (length row).

(** [k] is the index of the first [true] of [l]. *)
Definition first_true_at (l : list bool) (k : nat) : Prop :=
  l !! k = Some true /\ forall j : nat, (j < k)%nat -> l !! j = Some false.

(** [k] is the index of the first EOS of [row]. *)
Definition first_eos_at (self : Sampler) (row : list Z) (k : nat) : Prop :=
  row !! k = Some (EOS (special_tokens (tokenizer self)))
  /\ forall j : nat, (j < k)%nat ->
       row !! j <> Some (EOS (special_tokens (tokenizer self))).

(** A state of one sequence: at decoding step [d], with [n] prompt
    tokens, the buffer row [row] and the done flag [b]. *)
Definition single_sequence (sampler_state : _SamplingState) (d n : Z)
    (row : list Z) (b : bool) : Prop :=
  decoding_step sampler_state = d
  /\ num_input_tokens sampler_state = [n]
  /\ token_buffer sampler_state = [row]
  /\ done sampler_state = [b].

(** The key that the [k]-th decode step of a call passes to the
    sampling method, [key] being the sampler's key at the call. *)
Fixpoint step_key (k : nat) (key : PRNGKey) : PRNGKey :=
  match k with
  | O => (random_split key).2
  | S k' => step_key k' (random_split key).1
  end.

(** A state whose integers are what their types say: [decoding_step] is
    an [int32], the entries of [num_input_tokens] are lengths held in
    an [int32], and an [int32] indexes each row of the buffer. *)
Definition int32_state (sampler_state : _SamplingState) : Prop :=
  Int32.in_range (decoding_step sampler_state)
  /\ Forall (fun n => 0 <= n <= Int32.max_int)
            (num_input_tokens sampler_state)
  /\ Forall (fun row : list Z => Z.of_nat (length row) <= Int32.max_int)
            (token_buffer sampler_state).

(** The sampling method, called on the logits [lg] with the key [key],
    selects for every sequence an id of the vocabulary axis whose logit
    is not [-inf]. *)
Definition selects_finite (sampling : SamplingMethod)
    (lg : list (list (list F))) (key : PRNGKey) : Prop :=
  forall (b : nat) (r : list Z),
    get_next_tokens sampling lg key !! b = Some r ->
    0 <= Jnp.getitem 0 r 0
    /\ exists (l : list (list F)) (v : list F) (x : F),
         lg !! b = Some l /\ head l = Some v
         /\ v !! Z.to_nat (Jnp.getitem 0 r 0) = Some x /\ x <> neg_inf.

(** The logits the transformer returns in [_sample_step], before the
    forbidden ids are set to [-inf]. *)
Definition model_logits (self : Sampler) (params : Params)
    (sampler_state : _SamplingState) : list (list (list F)) :=
  let decoding_step := decoding_step sampler_state in
  let input_mask :=
    map (map (fun t => negb (t =? PAD (special_tokens (tokenizer self)))))
        (token_buffer sampler_state) in
  (apply (transformer self) params
         (map (fun t => [t])
              (Jnp.col 0 (token_buffer sampler_state) decoding_step))
         (map (fun p => [p])
              (Jnp.col 0 (positions sampler_state) decoding_step))
         (cache sampler_state)
         (_compute_attention_masks decoding_step (cache_length self)
                                   input_mask)).1.

(** The key of the sampler after [k] decode steps: the first half of
    [k] successive splits. *)
Fixpoint advance_key (k : nat) (key : PRNGKey) : PRNGKey :=
  match k with
  | O => key
  | S k' => advance_key k' (random_split key).1
  end.

(** The forbidden tokens of a call, if any, map to one id each. *)
Definition forbidden_tokens_valid (self : Sampler)
    (forbidden_tokens : option (list string)) : Prop :=
  match forbidden_tokens with
  | Some toks =>
      Forall (fun token => length (encode (tokenizer self) token) = 1%nat)
             toks
  | None => True
  end.

(** The ids [__call__] hands to [init_sample_state] for them. *)
Definition forbidden_ids_of (self : Sampler)
    (forbidden_tokens : option (list string)) : option (list Z) :=
  match forbidden_tokens with
  | Some toks => Some (concat (map (encode (tokenizer self)) toks))
  | None => None
  end.

(** The events of the loop of [__call__] over the forbidden tokens. *)
Definition forbidden_events (forbidden_tokens : option (list string))
  : list event :=
  match forbidden_tokens with
  | Some toks => map EvEncodeForbidden toks
  | None => []
  end.

(** The values of a call are what the source takes their types to be:
    the cache length is a length held in an [int32], and the ids that
    the source puts into [int32] arrays or compares with them, the
    special tokens PAD and EOS, the tokens of the prompts with their
    BOS, and the forbidden ids, fit the type. *)
Definition typed_call (self : Sampler) (input_strings : list string)
    (forbidden_tokens : option (list string)) : Prop :=
  0 <= cache_length self <= Int32.max_int
  /\ Int32.in_range (PAD (special_tokens (tokenizer self)))
  /\ Int32.in_range (EOS (special_tokens (tokenizer self)))
  /\ Forall (fun x => Forall Int32.in_range (tokenize self x)) input_strings
  /\ Forall Int32.in_range
            (default [] (forbidden_ids_of self forbidden_tokens)).

End Sampler.

(** ** A small instance, for examples

    Logits are integers or [-inf], keys are counters, the model returns
    constant logits over a vocabulary of 8 ids, and the tokenizer knows
    the prompt ["Hello"] as [72, 101] and every other string as [7, 7],
    but for ["x"], which is the single id [7]. *)

Module Demo.

Inductive logit :=
| NegInf
| Fin (z : Z).

#[global] Instance demo_runtime : Runtime logit nat := {|
  neg_inf := NegInf;
  zero := Fin 0;
  random_split := fun key => (S key, key);
  build_positions_from_mask := fun input_mask =>
    map (fun row =>
           map (fun j =>
                  Z.max 0 (Z.of_nat (length (filter (fun b => b = true)
                                                    (take (S j) row))) - 1))
               (seq 0 (length row)))
        input_mask;
|}.

Definition demo_transformer : @Transformer logit unit unit := {|
  apply := fun _ last_token _ cache _ =>
    (map (fun _ => [replicate 8 (Fin 0)]) last_token, cache);
  init_cache := fun _ _ _ => tt;
  num_embed := 8;
|}.

Definition demo_tokenizer (eos : Z) : Tokenizer := {|
  special_tokens := {| PAD := 0; EOS := eos; BOS := 2 |};
  encode := fun s =>
    if String.eqb s "Hello" then [72; 101]
    else if String.eqb s "x" then [7]
    else [7; 7];
  decode := fun _ => EmptyString;
|}.

(** The sampler, with the id of EOS left open. *)
Definition demo_sampler (eos : Z) : @Sampler logit unit unit nat := {|
  transformer := demo_transformer;
  tokenizer := demo_tokenizer eos;
  params := tt;
  cache_length := 16;
  _rng := 0%nat;
|}.

(** The sampling method that returns [t] for every sequence of the
    batch, whatever the logits are. *)
Definition always (t : Z) : @SamplingMethod logit nat := {|
  get_next_tokens := fun lg _ => map (fun _ => [t]) lg;
|}.

(** The same for a batch of one sequence. *)
Definition always_one (t : Z) : @SamplingMethod logit nat := {|
  get_next_tokens := fun _ _ => [[t]];
|}.

(** The sampling method that returns [f key], for a batch of one
    sequence. *)
Definition by_key (f : nat -> Z) : @SamplingMethod logit nat := {|
  get_next_tokens := fun _ key => [[f key]];
|}.

(** Greedy sampling: the first id whose logit is the largest. *)
Definition logit_le (a b : logit) : bool :=
  match a, b with
  | NegInf, _ => true
  | Fin _, NegInf => false
  | Fin x, Fin y => x <=? y
  end.

Fixpoint greedy_row (v : list logit) : nat * logit :=
  match v with
  | [] => (0%nat, NegInf)
  | x :: r =>
      let '(i, m) := greedy_row r in
      if logit_le m x then (0%nat, x) else (S i, m)
  end.

Definition greedy : @SamplingMethod logit nat := {|
  get_next_tokens := fun lg _ =>
    map (fun l => map (fun v => Z.of_nat (greedy_row v).1) l) lg;
|}.

(** A state of one sequence [7, EOS, 9] with a buffer of 4 slots. *)
Definition demo_state (eos : Z) : @_SamplingState logit unit nat := {|
  decoding_step := 0;
  num_input_tokens := [1];
  token_buffer := [[7; eos; 9; 0]];
  positions := [[0; 1; 2; 3]];
  cache := tt;
  done := [false];
  total_sampling_steps := 3;
  logits_buffer := None;
  forbidden_token_ids := Some [5];
  rng := 0%nat;
|}.

(** The same state with a buffer of logits of 4 slots over 8 ids. *)
Definition demo_state_logits : @_SamplingState logit unit nat := {|
  decoding_step := 0;
  num_input_tokens := [1];
  token_buffer := [[7; 1; 9; 0]];
  positions := [[0; 1; 2; 3]];
  cache := tt;
  done := [false];
  total_sampling_steps := 3;
  logits_buffer := Some [replicate 4 (replicate 8 (Fin 0))];
  forbidden_token_ids := Some [5];
  rng := 0%nat;
|}.

End Demo.

(** * Properties *)

(** ** 32-bit arithmetic *)

Module Int32Facts.
Import Int32.

Lemma wrap_in_range z : in_range (wrap z).
Proof.
  unfold in_range, wrap, min_int, max_int.
  pose proof (Z.mod_pos_bound (z + 2 ^ 31) (2 ^ 32)). lia.
Qed.

Lemma wrap_id z : in_range z -> wrap z = z.
Proof.
  unfold in_range, wrap, min_int, max_int. intros Hz.
  rewrite Z.mod_small; lia.
Qed.

Lemma add_in_range a b : in_range (add a b).
Proof. apply wrap_in_range. Qed.

Lemma succ_no_overflow a : in_range a -> a < max_int -> add a 1 = a + 1.
Proof.
  intros Ha Hlt. unfold add. apply wrap_id.
  unfold in_range, min_int, max_int in *. lia.
Qed.

Lemma succ_overflow : add max_int 1 = min_int.
Proof. reflexivity. Qed.

Lemma pred_no_underflow a : in_range a -> min_int < a -> sub a 1 = a - 1.
Proof.
  intros Ha Hlt. unfold sub. apply wrap_id.
  unfold in_range, min_int, max_int in *. lia.
Qed.

End Int32Facts.

(** ** Arrays *)

Module JnpFacts.
Import Jnp.

Section Generic.
Context {A : Type}.
Implicit Types (x row : list A) (a : list (list A)) (j : Z).

Lemma length_at_set x j v : length (at_set x j v) = length x.
Proof. unfold at_set. case_match; [apply length_insert | done]. Qed.

Lemma at_set_getitem d x j : at_set x j (getitem d x j) = x.
Proof.
  unfold at_set, getitem. case_match eqn:Hb; [|done].
  apply andb_prop in Hb as [H0 Hlt].
  apply Z.leb_le in H0. apply Z.ltb_lt in Hlt.
  rewrite Z.min_l by lia. rewrite Z.max_r by lia.
  destruct (x !! Z.to_nat (norm_index (length x) j)) as [y|] eqn:Hy.
  - by apply list_insert_id.
  - apply lookup_ge_None in Hy. lia.
Qed.

Lemma take_at_set_ge x j v (n : nat) :
  (Z.of_nat n <= norm_index (length x) j) ->
  take n (at_set x j v) = take n x.
Proof.
  intros Hn. unfold at_set. case_match; [|done].
  apply take_insert_ge. lia.
Qed.

Lemma length_at_set_many x ids v : length (at_set_many x ids v) = length x.
Proof.
  induction ids as [|j ids IH]; [done|]. simpl. by rewrite length_at_set.
Qed.

Lemma length_at_set_col a j v : length (at_set_col a j v) = length a.
Proof. apply length_imap. Qed.

Lemma lookup_at_set_col a j v (i : nat) :
  at_set_col a j v !! i =
  (fun row => match v !! i with
              | Some x => at_set row j x
              | None => row
              end) <$> a !! i.
Proof. unfold at_set_col. by rewrite list_lookup_imap. Qed.

Lemma lookup_col d a j (i : nat) :
  col d a j !! i = (fun row => getitem d row j) <$> a !! i.
Proof. apply list_lookup_fmap. Qed.

Lemma lookup_where_Some (c : list bool) (xs ys : list A) (i : nat) (z : A) :
  where_ c xs ys !! i = Some z ->
  exists (b : bool) (xv yv : A),
    c !! i = Some b /\ xs !! i = Some xv /\ ys !! i = Some yv
    /\ z = if b then xv else yv.
Proof.
  unfold where_. intros Hz.
  apply lookup_zip_with_Some in Hz as (b & [xv yv] & -> & Hb & Hxy).
  apply lookup_zip_with_Some in Hxy as (xv' & yv' & Heq & Hx & Hy).
  simplify_eq. by exists b, xv', yv'.
Qed.

End Generic.

End JnpFacts.

(** ** The decode step *)

Section SamplerFacts.
Context {F Cache Params PRNGKey : Type} `{!Runtime F PRNGKey}.
Implicit Types (self : @Sampler F Cache Params PRNGKey).
Implicit Types (s : @_SamplingState F Cache PRNGKey).
Implicit Types (sampling : @SamplingMethod F PRNGKey).
Implicit Types (params : Params).

(** What a step does to each field, in terms of the views. *)

Lemma decoding_step_step self params s sampling :
  decoding_step (_sample_step self params s sampling)
  = Int32.add (decoding_step s) 1.
Proof. unfold _sample_step. by destruct (random_split (rng s)). Qed.

Lemma token_buffer_step self params s sampling :
  token_buffer (_sample_step self params s sampling)
  = Jnp.at_set_col (token_buffer s) (Int32.add (decoding_step s) 1)
                   (next_tokens self params s sampling).
Proof.
  unfold _sample_step, next_tokens, sampled_tokens, sampling_logits.
  by destruct (random_split (rng s)).
Qed.

Lemma done_step self params s sampling :
  done (_sample_step self params s sampling)
  = zip_with orb (done s)
      (map (fun t => t =? EOS (special_tokens (tokenizer self)))
           (Jnp.col 0 (token_buffer (_sample_step self params s sampling))
                    (Int32.add (decoding_step s) 1))).
Proof. unfold _sample_step. by destruct (random_split (rng s)). Qed.

Lemma rng_step self params s sampling :
  rng (_sample_step self params s sampling) = (random_split (rng s)).1.
Proof. unfold _sample_step. by destruct (random_split (rng s)). Qed.

Lemma num_input_tokens_step self params s sampling :
  num_input_tokens (_sample_step self params s sampling)
  = num_input_tokens s.
Proof. unfold _sample_step. by destruct (random_split (rng s)). Qed.

Lemma positions_step self params s sampling :
  positions (_sample_step self params s sampling) = positions s.
Proof. unfold _sample_step. by destruct (random_split (rng s)). Qed.

Lemma total_sampling_steps_step self params s sampling :
  total_sampling_steps (_sample_step self params s sampling)
  = total_sampling_steps s.
Proof. unfold _sample_step. by destruct (random_split (rng s)). Qed.

Lemma forbidden_token_ids_step self params s sampling :
  forbidden_token_ids (_sample_step self params s sampling)
  = forbidden_token_ids s.
Proof. unfold _sample_step. by destruct (random_split (rng s)). Qed.

(** Steps compose. *)

Lemma sample_steps_add self params sampling (j k : nat) s :
  sample_steps self params sampling (j + k) s
  = sample_steps self params sampling k (sample_steps self params sampling j s).
Proof. revert s. induction j as [|j IH]; intros s; [done|]. apply IH. Qed.

Lemma sample_steps_S self params sampling (k : nat) s :
  sample_steps self params sampling (S k) s
  = _sample_step self params (sample_steps self params sampling k s) sampling.
Proof.
  replace (S k) with (k + 1)%nat by lia. by rewrite sample_steps_add.
Qed.

(** An invariant of the step holds after any number of steps. *)
Lemma sample_steps_ind (P : _SamplingState -> Prop) self params sampling :
  (forall s, P s -> P (_sample_step self params s sampling)) ->
  forall (k : nat) s, P s -> P (sample_steps self params sampling k s).
Proof.
  intros Hstep k. induction k as [|k IH]; intros s Hs; [done|].
  simpl. apply IH, Hstep, Hs.
Qed.

(** C10: a decode step leaves [num_input_tokens], [positions],
    [total_sampling_steps] and [forbidden_token_ids] as they are, and so
    does any number of decode steps: they are those of the initial
    state throughout the loop. *)
Theorem sample_step_frame self params sampling s (k : nat) :
  let s1 := _sample_step self params s sampling in
  let sk := sample_steps self params sampling k s in
  (num_input_tokens s1 = num_input_tokens s
   /\ positions s1 = positions s
   /\ total_sampling_steps s1 = total_sampling_steps s
   /\ forbidden_token_ids s1 = forbidden_token_ids s)
  /\ (num_input_tokens sk = num_input_tokens s
      /\ positions sk = positions s
      /\ total_sampling_steps sk = total_sampling_steps s
      /\ forbidden_token_ids sk = forbidden_token_ids s).
Proof.
  assert (Hone : forall s0,
    num_input_tokens (_sample_step self params s0 sampling)
      = num_input_tokens s0
    /\ positions (_sample_step self params s0 sampling) = positions s0
    /\ total_sampling_steps (_sample_step self params s0 sampling)
      = total_sampling_steps s0
    /\ forbidden_token_ids (_sample_step self params s0 sampling)
      = forbidden_token_ids s0).
  { intros s0. rewrite num_input_tokens_step, positions_step,
      total_sampling_steps_step, forbidden_token_ids_step. done. }
  simpl. split; [apply Hone|].
  revert s. induction k as [|k IH]; intros s; [done|].
  simpl. destruct (IH (_sample_step self params s sampling)) as (-> & -> & -> & ->).
  apply Hone.
Qed.

(** *** The done flags *)

Lemma length_token_buffer_step self params s sampling :
  length (token_buffer (_sample_step self params s sampling))
  = length (token_buffer s).
Proof. rewrite token_buffer_step. apply JnpFacts.length_at_set_col. Qed.

Lemma length_done_step self params s sampling :
  (length (done s) <= length (token_buffer s))%nat ->
  length (done (_sample_step self params s sampling)) = length (done s).
Proof.
  intros Hlen. rewrite done_step, length_zip_with, length_map.
  unfold Jnp.col. rewrite length_map, length_token_buffer_step. lia.
Qed.

Lemma done_step_true self params s sampling (i : nat) :
  (length (done s) <= length (token_buffer s))%nat ->
  done s !! i = Some true ->
  done (_sample_step self params s sampling) !! i = Some true.
Proof.
  intros Hlen Hi. rewrite done_step.
  pose proof (lookup_lt_Some _ _ _ Hi) as Hlt.
  destruct (lookup_lt_is_Some_2
              (Jnp.col 0 (token_buffer (_sample_step self params s sampling))
                       (Int32.add (decoding_step s) 1)) i) as [t Ht].
  { unfold Jnp.col. rewrite length_map, length_token_buffer_step. lia. }
  apply lookup_zip_with_Some.
  exists true, (t =? EOS (special_tokens (tokenizer self))).
  split; [done|]. split; [done|].
  by rewrite list_lookup_fmap, Ht.
Qed.

(** C4: a step replaces [done] by its disjunction with the EOS test on
    the tokens just written, so a flag that is true in the state after
    [j] steps is true in the state after any [k >= j] steps. *)
Theorem done_monotonic self params sampling s (j k i : nat)
    (Hshape : (length (done s) <= length (token_buffer s))%nat)
    (Hjk : (j <= k)%nat) :
  done (_sample_step self params s sampling)
  = zip_with orb (done s)
      (map (fun t => t =? EOS (special_tokens (tokenizer self)))
           (Jnp.col 0 (token_buffer (_sample_step self params s sampling))
                    (Int32.add (decoding_step s) 1)))
  /\ (done (sample_steps self params sampling j s) !! i = Some true ->
      done (sample_steps self params sampling k s) !! i = Some true).
Proof.
  split; [apply done_step|].
  replace k with (j + (k - j))%nat by lia. rewrite sample_steps_add.
  assert (Hj : (length (done (sample_steps self params sampling j s))
                <= length (token_buffer (sample_steps self params sampling j s)))%nat).
  { apply (sample_steps_ind
             (fun s => (length (done s) <= length (token_buffer s))%nat));
      [|done].
    intros s0 H0. rewrite length_done_step, length_token_buffer_step; done. }
  generalize dependent (sample_steps self params sampling j s).
  induction (k - j)%nat as [|n IH]; intros sj Hsj Hi; [done|].
  simpl. apply IH.
  - rewrite length_done_step, length_token_buffer_step; done.
  - by apply done_step_true.
Qed.

(** *** The prompt region *)

Lemma int32_state_step self params s sampling :
  int32_state s -> int32_state (_sample_step self params s sampling).
Proof.
  intros (Hd & Hn & Hrows). split; [|split].
  - rewrite decoding_step_step. apply Int32Facts.add_in_range.
  - by rewrite num_input_tokens_step.
  - rewrite token_buffer_step. apply Forall_lookup. intros i row' Hi.
    rewrite JnpFacts.lookup_at_set_col in Hi.
    destruct (token_buffer s !! i) as [row|] eqn:Hrow; [|done].
    simpl in Hi. pose proof (Forall_lookup_1 _ _ _ _ Hrows Hrow) as Hlen.
    simpl in Hlen. destruct (_ !! i) in Hi; simplify_eq; [|done].
    by rewrite JnpFacts.length_at_set.
Qed.

(** One step rewrites no slot of the prompt region of a row. *)
Lemma step_keeps_prompt self params s sampling (i : nat) (row : list Z)
    (n : Z) :
  int32_state s ->
  token_buffer s !! i = Some row ->
  num_input_tokens s !! i = Some n ->
  exists row',
    token_buffer (_sample_step self params s sampling) !! i = Some row'
    /\ length row' = length row
    /\ take (Z.to_nat n) row' = take (Z.to_nat n) row.
Proof.
  intros (Hd & Hns & Hrows) Hrow Hn.
  pose proof (Forall_lookup_1 _ _ _ _ Hns Hn) as Hnr. simpl in Hnr.
  pose proof (Forall_lookup_1 _ _ _ _ Hrows Hrow) as Hlen. simpl in Hlen.
  rewrite token_buffer_step, JnpFacts.lookup_at_set_col, Hrow. simpl.
  eexists. split; [done|].
  destruct (next_tokens self params s sampling !! i) as [x|] eqn:Hx; [|done].
  split; [apply JnpFacts.length_at_set|].
  apply JnpFacts.lookup_where_Some in Hx
    as (b & xv & yv & Hb & Hxv & _ & ->).
  rewrite list_lookup_fmap, Hn in Hb. simpl in Hb.
  rewrite JnpFacts.lookup_col, Hrow in Hxv. simpl in Hxv.
  simplify_eq.
  destruct (decoding_step s <? Int32.sub n 1) eqn:Hreplay.
  - by rewrite JnpFacts.at_set_getitem.
  - apply Z.ltb_ge in Hreplay.
    rewrite Int32Facts.pred_no_underflow in Hreplay
      by (unfold Int32.in_range, Int32.min_int, Int32.max_int in *; lia).
    destruct (decide (decoding_step s = Int32.max_int)) as [Hmax|Hmax].
    + rewrite Hmax, Int32Facts.succ_overflow.
      unfold Jnp.at_set, Jnp.norm_index.
      unfold Int32.min_int, Int32.max_int in *.
      replace (- 2 ^ 31 <? 0) with true by done.
      replace (0 <=? - 2 ^ 31 + Z.of_nat (length row)) with false; [done|].
      symmetry. apply Z.leb_gt. lia.
    + rewrite Int32Facts.succ_no_overflow
        by (unfold Int32.in_range, Int32.max_int in *; lia).
      apply JnpFacts.take_at_set_ge. unfold Jnp.norm_index.
      replace (decoding_step s + 1 <? 0) with false; [lia|].
      symmetry. apply Z.ltb_ge. lia.
Qed.

(** Any number of steps rewrites no slot of the prompt region. *)
Lemma steps_keep_prompt self params sampling (k i : nat) s (row : list Z)
    (n : Z) :
  int32_state s ->
  token_buffer s !! i = Some row ->
  num_input_tokens s !! i = Some n ->
  exists row',
    token_buffer (sample_steps self params sampling k s) !! i = Some row'
    /\ num_input_tokens (sample_steps self params sampling k s) !! i = Some n
    /\ length row' = length row
    /\ take (Z.to_nat n) row' = take (Z.to_nat n) row.
Proof.
  revert s row. induction k as [|k IH]; intros s row Hs Hrow Hn.
  - by exists row.
  - destruct (step_keeps_prompt self params s sampling i row n Hs Hrow Hn)
      as (row1 & Hrow1 & Hlen1 & Htake1).
    destruct (IH (_sample_step self params s sampling) row1)
      as (row' & ? & ? & Hlen' & Htake');
      [by apply int32_state_step | done
      | by rewrite num_input_tokens_step |].
    exists row'. simpl. split; [done|]. split; [done|].
    split; congruence.
Qed.

(** *** The initial state *)

Lemma mapM_outcome_Ok {A B : Type} (f : A -> outcome B) (l : list A)
    (k : list B) :
  mapM f l = Ok k ->
  length k = length l
  /\ forall (i : nat) (x : A), l !! i = Some x ->
       exists y, k !! i = Some y /\ f x = Ok y.
Proof.
  revert k. induction l as [|x l IH]; intros k Hk.
  - simpl in Hk. injection Hk as <-. split; [done|]. intros i x Hi.
    by rewrite lookup_nil in Hi.
  - simpl in Hk. unfold mbind, outcome_bind in Hk.
    destruct (f x) as [y| |] eqn:Hfx; try done.
    destruct (mapM f l) as [k'| |] eqn:Hl; try done.
    injection Hk as <-. destruct (IH k' eq_refl) as [Hlen Hlook].
    split; [simpl; lia|]. intros [|i] x' Hi; simpl in *.
    + simplify_eq. by exists y.
    + by apply Hlook.
Qed.

Lemma slice_0 {A : Type} (x : list A) (n : Z) :
  0 <= n -> Jnp.slice x 0 n = take (Z.to_nat n) x.
Proof.
  intros Hn. unfold Jnp.slice, Jnp.slice_bound.
  replace (0 <? 0) with false by done.
  replace (n <? 0) with false by (symmetry; apply Z.ltb_ge; lia).
  rewrite (Z.min_l 0) by lia. change (Z.to_nat 0) with 0%nat.
  rewrite Nat.sub_0_r, drop_0.
  destruct (decide (n <= Z.of_nat (length x))).
  - by rewrite Z.min_l by lia.
  - rewrite Z.min_r by lia. rewrite Nat2Z.id.
    rewrite (take_ge x (length x)) by lia.
    rewrite (take_ge x (Z.to_nat n)) by lia. done.
Qed.

(** A prompt written by [.at[i, :num_tokens].set(input_ids)] into a row
    of at least one slot fits the row and is its prefix. *)
Lemma at_set_prefix_Ok {A : Type} (row v r : list A) :
  (0 < length row)%nat ->
  Jnp.at_set_prefix row (Z.of_nat (length v)) v = Ok r ->
  (length v <= length row)%nat
  /\ length r = length row
  /\ take (length v) r = v.
Proof.
  intros Hrow. unfold Jnp.at_set_prefix.
  rewrite slice_0 by lia. rewrite Nat2Z.id, length_take.
  case_decide as Hempty.
  { intros [= <-]. destruct v as [|v0 v]; simpl length in *; [|lia].
    split; [lia|]. done. }
  case_decide as Hw.
  - intros [= <-]. split; [lia|]. split.
    + rewrite length_app, length_drop. lia.
    + by rewrite take_app_length.
  - destruct v as [|v0 [|v1 v]]; try done.
    exfalso. simpl length in Hw. lia.
Qed.

Lemma init_sample_state_Ok self (all_input_ids : list (list Z))
    (total : Z) (include_logits : bool) (forbidden : option (list Z)) s0 :
  init_sample_state self all_input_ids total include_logits forbidden
  = Ok s0 ->
  0 <= total + 1
  /\ decoding_step s0 = 0
  /\ num_input_tokens s0
     = map (fun input_ids => Z.of_nat (length input_ids)) all_input_ids
  /\ mapM (fun input_ids =>
             Jnp.at_set_prefix
               (Jnp.full (Z.to_nat (total + 1))
                         (PAD (special_tokens (tokenizer self))))
               (Z.of_nat (length input_ids)) input_ids)
          all_input_ids = Ok (token_buffer s0)
  /\ done s0 = Jnp.full (length all_input_ids) false
  /\ total_sampling_steps s0 = total
  /\ forbidden_token_ids s0 = forbidden
  /\ rng s0 = _rng self.
Proof.
  unfold init_sample_state. destruct (total + 1 <? 0) eqn:Hneg; [done|].
  apply Z.ltb_ge in Hneg. unfold mbind, outcome_bind.
  destruct (mapM _ all_input_ids) as [tb| |]; try done.
  destruct (mapM _ all_input_ids) as [im| |]; try done.
  intros [= <-]. simpl. done.
Qed.

(** The rows of the initial buffer: the prompts, each in a row of
    [total_sampling_steps + 1] slots. *)
Lemma init_sample_state_rows self (all_input_ids : list (list Z))
    (total : Z) (include_logits : bool) (forbidden : option (list Z)) s0 :
  init_sample_state self all_input_ids total include_logits forbidden
  = Ok s0 ->
  0 <= total ->
  length (token_buffer s0) = length all_input_ids
  /\ forall (i : nat) (input_ids : list Z),
       all_input_ids !! i = Some input_ids ->
       exists row,
         token_buffer s0 !! i = Some row
         /\ length row = Z.to_nat (total + 1)
         /\ (length input_ids <= length row)%nat
         /\ take (length input_ids) row = input_ids.
Proof.
  intros Hinit Htotal.
  apply init_sample_state_Ok in Hinit as (_ & _ & _ & Hrows & _).
  apply mapM_outcome_Ok in Hrows as [Hlen Hrows]. split; [done|].
  intros i input_ids Hi. destruct (Hrows i input_ids Hi) as (row & Hrow & Hset).
  apply at_set_prefix_Ok in Hset as (Hfit & Hlenr & Htake).
  - exists row. unfold Jnp.full in *. rewrite length_replicate in *.
    repeat split; [done | done | lia | done].
  - unfold Jnp.full. rewrite length_replicate. lia.
Qed.

Lemma init_sample_state_int32 self (all_input_ids : list (list Z))
    (total : Z) (include_logits : bool) (forbidden : option (list Z)) s0 :
  init_sample_state self all_input_ids total include_logits forbidden
  = Ok s0 ->
  0 <= total < Int32.max_int ->
  int32_state s0.
Proof.
  intros Hinit Htotal.
  destruct (init_sample_state_rows _ _ _ _ _ _ Hinit) as [Hlen Hrows];
    [lia|].
  apply init_sample_state_Ok in Hinit as (_ & Hd & Hn & _).
  split; [|split].
  - rewrite Hd. done.
  - rewrite Hn. apply Forall_lookup. intros i n Hi.
    rewrite list_lookup_fmap in Hi.
    destruct (all_input_ids !! i) as [input_ids|] eqn:Hids; [|done].
    simpl in Hi. injection Hi as <-.
    destruct (Hrows i input_ids Hids) as (row & _ & Hlenr & Hfit & _). lia.
  - apply Forall_lookup. intros i row Hi.
    destruct (lookup_lt_is_Some_2 all_input_ids i) as [input_ids Hids].
    { rewrite <- Hlen. by eapply lookup_lt_Some. }
    destruct (Hrows i input_ids Hids) as (row' & Hrow' & Hlenr & _).
    simplify_eq. lia.
Qed.

(** C3: in the state that [init_sample_state] builds from the tokenized
    prompts, and after any number [k] of decode steps from it, the
    slice [token_buffer[i, :num_input_tokens[i]]] is the prompt of
    sequence [i]. *)
Theorem prompt_fidelity self params sampling (all_input_ids : list (list Z))
    (total : Z) (include_logits : bool) (forbidden : option (list Z)) s0
    (k i : nat) (input_ids : list Z)
    (Hinit : init_sample_state self all_input_ids total include_logits
                               forbidden = Ok s0)
    (Htotal : 0 <= total < Int32.max_int)
    (Hi : all_input_ids !! i = Some input_ids) :
  exists (row : list Z) (n : Z),
    token_buffer (sample_steps self params sampling k s0) !! i = Some row
    /\ num_input_tokens (sample_steps self params sampling k s0) !! i
       = Some n
    /\ n = Z.of_nat (length input_ids)
    /\ Jnp.slice row 0 n = input_ids.
Proof.
  pose proof (init_sample_state_int32 _ _ _ _ _ _ Hinit Htotal) as Hwf.
  destruct (init_sample_state_rows _ _ _ _ _ _ Hinit) as [_ Hrows]; [lia|].
  destruct (Hrows i input_ids Hi) as (row0 & Hrow0 & _ & _ & Htake0).
  apply init_sample_state_Ok in Hinit as (_ & _ & Hn & _).
  destruct (steps_keep_prompt self params sampling k i s0 row0
              (Z.of_nat (length input_ids)) Hwf Hrow0)
    as (row & Hrow & Hnk & _ & Htake).
  { by rewrite Hn, list_lookup_fmap, Hi. }
  exists row, (Z.of_nat (length input_ids)).
  split; [done|]. split; [done|]. split; [done|].
  rewrite slice_0 by lia. rewrite Htake, Nat2Z.id. done.
Qed.

(** *** The decode loop *)

Lemma any_true_iff (l : list bool) :
  Jnp.any l = true <-> exists i : nat, l !! i = Some true.
Proof.
  unfold Jnp.any. rewrite existsb_exists. split.
  - intros (b & Hin & ->). apply list_elem_of_In in Hin.
    by apply list_elem_of_lookup in Hin.
  - intros (i & Hi). exists true. split; [|done].
    apply list_elem_of_In. by eapply list_elem_of_lookup_2.
Qed.

Lemma cond_fn_true_iff s :
  cond_fn s = true
  <-> decoding_step s < total_sampling_steps s
      /\ exists i : nat, done s !! i = Some false.
Proof.
  unfold cond_fn. rewrite andb_true_iff, Z.ltb_lt, any_true_iff.
  split; intros [Hlt (i & Hi)]; (split; [done|]); exists i.
  - rewrite list_lookup_fmap in Hi.
    destruct (done s !! i) as [[]|]; by simplify_eq.
  - by rewrite list_lookup_fmap, Hi.
Qed.

(** The loop returns the state after [n] steps when the condition holds
    on the states after fewer steps and fails on that one. *)
Lemma while_loop_steps self params sampling (n : nat) s (fuel : nat) :
  (forall k : nat, (k < n)%nat ->
     cond_fn (sample_steps self params sampling k s) = true) ->
  cond_fn (sample_steps self params sampling n s) = false ->
  (n < fuel)%nat ->
  _sample_fn fuel self params s sampling
  = Ok (sample_steps self params sampling n s).
Proof.
  unfold _sample_fn. revert s fuel.
  induction n as [|n IH]; intros s fuel Hbefore Hstop Hfuel.
  - destruct fuel as [|fuel]; [lia|]. simpl in *. by rewrite Hstop.
  - destruct fuel as [|fuel]; [lia|]. simpl.
    pose proof (Hbefore 0%nat ltac:(lia)) as H0. simpl in H0. rewrite H0.
    apply IH; [|done|lia].
    intros k Hk. apply (Hbefore (S k)). lia.
Qed.

(** Conversely, a state the loop returns is the state after some
    number of steps, on which the condition fails. *)
Lemma while_loop_Ok self params sampling (fuel : nat) s s' :
  _sample_fn fuel self params s sampling = Ok s' ->
  exists n : nat,
    s' = sample_steps self params sampling n s /\ cond_fn s' = false.
Proof.
  unfold _sample_fn. revert s.
  induction fuel as [|fuel IH]; intros s Hrun; [done|].
  simpl in Hrun. destruct (cond_fn s) eqn:Hc.
  - destruct (IH _ Hrun) as (n & -> & Hstop). by exists (S n).
  - injection Hrun as <-. by exists 0%nat.
Qed.

(** From a state whose counter is an [int32] below a bound that is one
    too, the condition fails after at most [bound - counter] steps. *)
Lemma loop_bound self params sampling (m : nat) s :
  Int32.in_range (decoding_step s) ->
  total_sampling_steps s <= Int32.max_int ->
  total_sampling_steps s - decoding_step s <= Z.of_nat m ->
  exists n : nat,
    (n <= m)%nat
    /\ (forall k : nat, (k <= n)%nat ->
          decoding_step (sample_steps self params sampling k s)
          = decoding_step s + Z.of_nat k)
    /\ (forall k : nat, (k < n)%nat ->
          cond_fn (sample_steps self params sampling k s) = true)
    /\ cond_fn (sample_steps self params sampling n s) = false.
Proof.
  revert s. induction m as [|m IH]; intros s Hd Htotal Hm.
  - exists 0%nat. split; [done|]. split; [|split].
    + intros k Hk. replace k with 0%nat by lia. simpl. lia.
    + intros k Hk. lia.
    + simpl. unfold cond_fn.
      replace (_ <? _) with false; [done|]. symmetry. apply Z.ltb_ge. lia.
  - destruct (cond_fn s) eqn:Hc.
    + pose proof Hc as Hc'. apply cond_fn_true_iff in Hc' as [Hlt _].
      assert (Hnext : decoding_step (_sample_step self params s sampling)
                      = decoding_step s + 1).
      { rewrite decoding_step_step. apply Int32Facts.succ_no_overflow; [done|lia]. }
      destruct (IH (_sample_step self params s sampling))
        as (n & Hn & Hcount & Hbefore & Hstop).
      * rewrite decoding_step_step. apply Int32Facts.add_in_range.
      * by rewrite total_sampling_steps_step.
      * rewrite total_sampling_steps_step, Hnext. lia.
      * exists (S n). split; [lia|]. split; [|split]; [| |done].
        -- intros [|k] Hk; simpl; [lia|]. rewrite Hcount by lia. lia.
        -- intros [|k] Hk; simpl; [done|]. apply Hbefore. lia.
    + exists 0%nat. split; [lia|]. split; [|split]; [| |done].
      * intros k Hk. replace k with 0%nat by lia. simpl. lia.
      * intros k Hk. lia.
Qed.

(** C5: the loop goes on exactly while [decoding_step] is below
    [total_sampling_steps] and some sequence is not done.  From a state
    whose [decoding_step] is 0, with [total_sampling_steps] an [int32],
    every step adds 1 to [decoding_step], and the loop returns after a
    number [n] of steps that is at most [total_sampling_steps],
    whatever the done flags are. *)
Theorem decode_loop_terminates self params sampling s
    (Hstart : decoding_step s = 0)
    (Htotal : total_sampling_steps s <= Int32.max_int) :
  (forall s', cond_fn s' = true
              <-> decoding_step s' < total_sampling_steps s'
                  /\ exists i : nat, done s' !! i = Some false)
  /\ exists n : nat,
       Z.of_nat n <= Z.max 0 (total_sampling_steps s)
       /\ (forall k : nat, (k <= n)%nat ->
             decoding_step (sample_steps self params sampling k s)
             = Z.of_nat k)
       /\ (forall k : nat, (k < n)%nat ->
             cond_fn (sample_steps self params sampling k s) = true)
       /\ cond_fn (sample_steps self params sampling n s) = false
       /\ forall fuel : nat, (n < fuel)%nat ->
            _sample_fn fuel self params s sampling
            = Ok (sample_steps self params sampling n s).
Proof.
  split; [apply cond_fn_true_iff|].
  destruct (loop_bound self params sampling
              (Z.to_nat (Z.max 0 (total_sampling_steps s))) s)
    as (n & Hn & Hcount & Hbefore & Hstop).
  - by rewrite Hstart.
  - done.
  - rewrite Hstart. lia.
  - exists n. split; [lia|]. split; [|split; [done|split; [done|]]].
    + intros k Hk. rewrite Hcount by done. lia.
    + intros fuel Hfuel. by apply while_loop_steps.
Qed.

(** *** Masking after EOS *)

Lemma first_true_Some (l : list bool) (k : nat) :
  first_true_at l k -> Jnp.first_true l = Some k.
Proof.
  unfold first_true_at. revert k.
  induction l as [|b l IH]; intros k [Hk Hbefore]; [done|].
  destruct k as [|k]; simpl in *.
  - by simplify_eq.
  - destruct b.
    + by specialize (Hbefore 0%nat ltac:(lia)).
    + rewrite (IH k); [done|]. split; [done|].
      intros j Hj. apply (Hbefore (S j)). lia.
Qed.

Lemma first_true_None (l : list bool) :
  (forall j : nat, l !! j <> Some true) ->
  Jnp.first_true l = None /\ Jnp.any l = false.
Proof.
  induction l as [|b l IH]; intros Hnone; [done|].
  destruct b; [by specialize (Hnone 0%nat)|].
  destruct IH as [Hfirst Hany]; [intros j; apply (Hnone (S j))|].
  simpl. by rewrite Hfirst.
Qed.

Lemma any_first_true (l : list bool) (k : nat) :
  Jnp.first_true l = Some k -> Jnp.any l = true.
Proof.
  revert k. induction l as [|b l IH]; intros k Hk; [done|].
  destruct b; [done|]. simpl in *.
  destruct (Jnp.first_true l) as [k'|]; [|done]. by apply (IH k').
Qed.

(** What the arithmetic of the mask does to one token: inside the mask
    the token is kept, outside it is replaced by PAD. *)
Lemma mask_cell_true (pad t : Z) :
  Int32.in_range t ->
  Int32.add (Int32.mul t (Jnp.b2z true))
            (Int32.mul pad (Int32.sub 1 (Jnp.b2z true)))
  = t.
Proof.
  intros Ht. unfold Int32.add, Int32.mul, Int32.sub. simpl Jnp.b2z.
  change (Int32.wrap (1 - 1)) with 0.
  rewrite Z.mul_1_r, Z.mul_0_r. change (Int32.wrap 0) with 0.
  rewrite Z.add_0_r, (Int32Facts.wrap_id t) by done.
  by apply Int32Facts.wrap_id.
Qed.

Lemma mask_cell_false (pad t : Z) :
  Int32.in_range pad ->
  Int32.add (Int32.mul t (Jnp.b2z false))
            (Int32.mul pad (Int32.sub 1 (Jnp.b2z false)))
  = pad.
Proof.
  intros Hpad. unfold Int32.add, Int32.mul, Int32.sub. simpl Jnp.b2z.
  change (Int32.wrap (1 - 0)) with 1.
  rewrite Z.mul_0_r, Z.mul_1_r. change (Int32.wrap 0) with 0.
  rewrite Z.add_0_l, (Int32Facts.wrap_id pad) by done.
  by apply Int32Facts.wrap_id.
Qed.

Lemma length_mask_row self (row : list Z) :
  length (mask_row_after_eos_ids self row) = length row.
Proof.
  unfold mask_row_after_eos_ids, Jnp.arange.
  rewrite length_zip_with, length_map, length_seqZ. lia.
Qed.

Lemma lookup_mask_row self (row : list Z) (j : nat) (t : Z) :
  row !! j = Some t ->
  mask_row_after_eos_ids self row !! j
  = Some (let m := Z.of_nat j <=? eos_index self row in
          Int32.add (Int32.mul t (Jnp.b2z m))
                    (Int32.mul (PAD (special_tokens (tokenizer self)))
                               (Int32.sub 1 (Jnp.b2z m)))).
Proof.
  intros Hj. unfold mask_row_after_eos_ids, eos_index, Jnp.arange.
  apply lookup_zip_with_Some. eexists t, _. split; [done|]. split; [done|].
  rewrite list_lookup_fmap, lookup_seqZ_lt.
  - simpl. by rewrite Z.add_0_l.
  - apply lookup_lt_Some in Hj. lia.
Qed.

(** The index where the mask ends, when [k] is the first EOS of the
    row and when the row has no EOS. *)
Lemma first_eos_first_true self (row : list Z) (k : nat) :
  first_eos_at self row k ->
  first_true_at
    (map (fun t => t =? EOS (special_tokens (tokenizer self))) row) k.
Proof.
  intros [Hk Hbefore]. split.
  - rewrite list_lookup_fmap, Hk. simpl. by rewrite Z.eqb_refl.
  - intros j Hj. rewrite list_lookup_fmap.
    destruct (lookup_lt_is_Some_2 row j) as [t Ht].
    { apply lookup_lt_Some in Hk. lia. }
    rewrite Ht. simpl. f_equal. apply Z.eqb_neq. intros ->.
    by apply (Hbefore j).
Qed.

Lemma eos_index_first self (row : list Z) (k : nat) :
  first_eos_at self row k -> eos_index self row = Z.of_nat k.
Proof.
  intros Hk. apply first_eos_first_true, first_true_Some in Hk.
  unfold eos_index.
  rewrite (any_first_true _ _ Hk). unfold Jnp.argmax. by rewrite Hk.
Qed.

Lemma eos_index_none self (row : list Z) :
  (forall j : nat, row !! j <> Some (EOS (special_tokens (tokenizer self)))) ->
  eos_index self row = Z.of_nat (length row).
Proof.
  intros Hnone. unfold eos_index.
  destruct (first_true_None
              (map (fun t => t =? EOS (special_tokens (tokenizer self))) row))
    as [_ ->]; [|done].
  intros j Hj. rewrite list_lookup_fmap in Hj.
  destruct (row !! j) as [t|] eqn:Ht; [|done]. simpl in Hj.
  injection Hj as Hj. apply Z.eqb_eq in Hj. subst t. by apply (Hnone j).
Qed.

(** The masked row, slot by slot. *)
Lemma mask_row_keep self (row : list Z) (j : nat) (t : Z) :
  row !! j = Some t ->
  Z.of_nat j <= eos_index self row -> Int32.in_range t ->
  mask_row_after_eos_ids self row !! j = Some t.
Proof.
  intros Hj Hle Ht. rewrite (lookup_mask_row self row j t Hj). simpl.
  apply Z.leb_le in Hle. rewrite Hle. f_equal. by apply mask_cell_true.
Qed.

Lemma mask_row_pad self (row : list Z) (j : nat) (t : Z) :
  Int32.in_range (PAD (special_tokens (tokenizer self))) ->
  row !! j = Some t ->
  eos_index self row < Z.of_nat j ->
  mask_row_after_eos_ids self row !! j
  = Some (PAD (special_tokens (tokenizer self))).
Proof.
  intros Hpad Hj Hlt. rewrite (lookup_mask_row self row j t Hj). simpl.
  apply Z.leb_gt in Hlt. rewrite Hlt. f_equal. by apply mask_cell_false.
Qed.

Lemma mask_row_spec self (row : list Z) (j : nat) (t : Z) :
  Int32.in_range (PAD (special_tokens (tokenizer self))) ->
  row !! j = Some t ->
  (Z.of_nat j <= eos_index self row -> Int32.in_range t ->
   mask_row_after_eos_ids self row !! j = Some t)
  /\ (eos_index self row < Z.of_nat j ->
      mask_row_after_eos_ids self row !! j
      = Some (PAD (special_tokens (tokenizer self)))).
Proof.
  intros Hpad Hj. split.
  - by apply mask_row_keep.
  - by apply (mask_row_pad self row j t).
Qed.

(** C1, as the code has it: in every row of the buffer, the slots after
    the first EOS are overwritten with PAD, while the slot of that EOS
    and the slots before it keep their tokens; a row without EOS is
    left as it is. *)
Theorem mask_after_eos_spec self (token_buffer : list (list Z)) (i : nat)
    (row : list Z)
    (Hpad : Int32.in_range (PAD (special_tokens (tokenizer self))))
    (Hrow : token_buffer !! i = Some row)
    (Hint : Forall Int32.in_range row) :
  exists row',
    mask_tokens_after_eos_ids self token_buffer !! i = Some row'
    /\ length row' = length row
    /\ (forall k : nat,
          first_eos_at self row k ->
          row' !! k = Some (EOS (special_tokens (tokenizer self)))
          /\ (forall j : nat, (j <= k)%nat -> row' !! j = row !! j)
          /\ (forall j : nat, (k < j < length row)%nat ->
                row' !! j = Some (PAD (special_tokens (tokenizer self)))))
    /\ ((forall j : nat,
           row !! j <> Some (EOS (special_tokens (tokenizer self)))) ->
        row' = row).
Proof.
  exists (mask_row_after_eos_ids self row).
  split; [unfold mask_tokens_after_eos_ids; by rewrite list_lookup_fmap, Hrow|].
  split; [apply length_mask_row|]. split.
  - intros k Hk. pose proof (eos_index_first self row k Hk) as Hidx.
    assert (Hkeep : forall j : nat, (j <= k)%nat ->
              mask_row_after_eos_ids self row !! j = row !! j).
    { intros j Hj. destruct (row !! j) as [t|] eqn:Ht.
      - apply (mask_row_spec self row j t Hpad Ht); [lia|].
        by apply (Forall_lookup_1 _ _ _ _ Hint Ht).
      - apply lookup_ge_None. rewrite length_mask_row.
        by apply lookup_ge_None. }
    split; [|split; [done|]].
    + rewrite Hkeep by done. apply Hk.
    + intros j Hj. destruct (lookup_lt_is_Some_2 row j) as [t Ht]; [lia|].
      apply (mask_row_spec self row j t Hpad Ht). lia.
  - intros Hnone. pose proof (eos_index_none self row Hnone) as Hidx.
    apply list_eq. intros j. destruct (row !! j) as [t|] eqn:Ht.
    + apply (mask_row_spec self row j t Hpad Ht).
      * apply lookup_lt_Some in Ht. lia.
      * by apply (Forall_lookup_1 _ _ _ _ Hint Ht).
    + apply lookup_ge_None. rewrite length_mask_row.
      by apply lookup_ge_None.
Qed.

(** *** The call monad *)

Local Abbreviation call_monad := (@M F Cache Params PRNGKey).
Local Abbreviation call_world := (@world F Cache Params PRNGKey).

Lemma M_bind_Ok {A B : Type} (m : call_monad A) (f : A -> call_monad B) (w w' : call_world)
    (a : A) :
  m w = (w', Ok a) -> (m ≫= f) w = f a w'.
Proof. intros Hm. unfold mbind, M_bind. by rewrite Hm. Qed.

Lemma M_bind_Raise {A B : Type} (m : call_monad A) (f : A -> call_monad B) (w w' : call_world)
    (e : exn) :
  m w = (w', Raise e) -> (m ≫= f) w = (w', Raise e).
Proof. intros Hm. unfold mbind, M_bind. by rewrite Hm. Qed.

Lemma M_bind_Ok_inv {A B : Type} (m : call_monad A) (f : A -> call_monad B) (w w2 : call_world)
    (b : B) :
  (m ≫= f) w = (w2, Ok b) ->
  exists (w1 : call_world) (a : A), m w = (w1, Ok a) /\ f a w1 = (w2, Ok b).
Proof.
  unfold mbind, M_bind. destruct (m w) as [w1 [a| |]]; try done.
  intros Hf. by exists w1, a.
Qed.

(** A comprehension whose element emits one event and returns a value
    that does not depend on the world. *)
Lemma mapM_emit {A B : Type} (ev : A -> event) (g : A -> B) (f : A -> call_monad B)
    (l : list A) (w : call_world) :
  (forall x (w0 : call_world), f x w0
     = ({| w_self := w_self w0; w_trace := w_trace w0 ++ [ev x] |},
        Ok (g x))) ->
  mapM f l w
  = ({| w_self := w_self w; w_trace := w_trace w ++ map ev l |},
     Ok (map g l)).
Proof.
  intros Hf. revert w. induction l as [|x l IH]; intros w.
  - simpl. rewrite app_nil_r. by destruct w.
  - simpl. rewrite (M_bind_Ok _ _ _ _ _ (Hf x w)).
    rewrite (M_bind_Ok _ _ _ _ _ (IH _)). simpl.
    by rewrite <- app_assoc.
Qed.

Lemma py_max_Ok (l : list Z) (m : Z) :
  py_max l = Ok m -> forall x, x ∈ l -> x <= m.
Proof.
  destruct l as [|x0 l]; [done|]. simpl. intros [= <-].
  assert (Hgen : forall (l : list Z) (a : Z),
            a <= foldl Z.max a l /\ forall x, x ∈ l -> x <= foldl Z.max a l).
  { clear. induction l as [|y l IH]; intros a; simpl.
    - split; [lia|]. intros x Hx. by apply elem_of_nil in Hx.
    - destruct (IH (Z.max a y)) as [Hacc Hall]. split; [lia|].
      intros x Hx. apply elem_of_cons in Hx as [->|Hx]; [lia|by apply Hall]. }
  destruct (Hgen l x0) as [H0 Hall].
  intros x Hx. apply elem_of_cons in Hx as [->|Hx]; [done|by apply Hall].
Qed.

(** *** The forbidden tokens *)

(** The loop over the forbidden tokens, when the tokens before [bad]
    map to one id each and [bad] does not: it raises, having encoded
    those tokens and [bad], and nothing else. *)
Lemma forbidden_ids_loop_Raise self (good : list string) (bad : string)
    (rest : list string) (acc : list Z) (w : call_world) :
  Forall (fun token => length (encode (tokenizer self) token) = 1%nat) good ->
  length (encode (tokenizer self) bad) <> 1%nat ->
  forbidden_ids_loop self (good ++ bad :: rest) acc w
  = ({| w_self := w_self w;
        w_trace := w_trace w ++ map EvEncodeForbidden (good ++ [bad]) |},
     Raise (ValueError
              "Forbidden tokens must map to single token ids in the vocab.")).
Proof.
  intros Hgood Hbad. revert acc w.
  induction Hgood as [|token good Htoken _ IH]; intros acc w.
  - simpl. unfold mbind, M_bind, emit. simpl.
    destruct (decide _) as [Heq|_]; [done|]. done.
  - simpl. unfold mbind, M_bind, emit. simpl.
    destruct (decide _) as [_|Hne]; [|done].
    rewrite IH. simpl. by rewrite <- app_assoc.
Qed.

(** The same loop when every token maps to one id: it returns the ids. *)
Lemma forbidden_ids_loop_Ok self (toks : list string) (acc : list Z)
    (w : call_world) :
  Forall (fun token => length (encode (tokenizer self) token) = 1%nat) toks ->
  forbidden_ids_loop self toks acc w
  = ({| w_self := w_self w;
        w_trace := w_trace w ++ map EvEncodeForbidden toks |},
     Ok (acc ++ concat (map (encode (tokenizer self)) toks))).
Proof.
  intros Hall. revert acc w.
  induction Hall as [|token toks Htoken _ IH]; intros acc w.
  - simpl. rewrite !app_nil_r. by destruct w.
  - simpl. unfold mbind, M_bind, emit. simpl.
    destruct (decide _) as [_|Hne]; [|done].
    rewrite IH. simpl. by rewrite <- !app_assoc.
Qed.

(** A list of tokens one of which does not map to one id splits at the
    first such token. *)
Lemma first_invalid_token self (toks : list string) :
  Exists (fun token => length (encode (tokenizer self) token) <> 1%nat) toks ->
  exists (good : list string) (bad : string) (rest : list string),
    toks = good ++ bad :: rest
    /\ Forall (fun token => length (encode (tokenizer self) token) = 1%nat)
              good
    /\ length (encode (tokenizer self) bad) <> 1%nat.
Proof.
  induction toks as [|token toks IH]; intros Hex.
  - by apply Exists_nil in Hex.
  - destruct (decide (length (encode (tokenizer self) token) = 1%nat))
      as [Hone|Hne].
    + apply Exists_cons in Hex as [Hex|Hex]; [done|].
      destruct (IH Hex) as (good & bad & rest & -> & Hgood & Hbad).
      exists (token :: good), bad, rest. split; [done|]. split; [|done].
      by constructor.
    + exists [], token, toks. split; [done|]. split; [constructor|done].
Qed.

(** C6: when some forbidden token does not map to exactly one id, the
    call raises [ValueError]; by then it has encoded the forbidden
    tokens up to the first such one and done nothing else: no prompt is
    tokenized, no sampling state is built, the decode loop is not
    entered, and the key of the sampler is the one it had. *)
Theorem forbidden_tokens_rejected self (fuel : nat)
    (input_strings : list string) (total_generation_steps : Z)
    (echo return_logits : bool) (forbidden_tokens : list string) sampling
    (Hbad : Exists (fun token =>
                      length (encode (tokenizer self) token) <> 1%nat)
                   forbidden_tokens) :
  exists (good : list string) (bad : string) (rest : list string),
    forbidden_tokens = good ++ bad :: rest
    /\ Forall (fun token => length (encode (tokenizer self) token) = 1%nat)
              good
    /\ length (encode (tokenizer self) bad) <> 1%nat
    /\ run_call (__call__ fuel input_strings total_generation_steps echo
                          return_logits (Some forbidden_tokens) sampling)
                self
       = ({| w_self := self;
             w_trace := map EvEncodeForbidden (good ++ [bad]) |},
          Raise (ValueError
             "Forbidden tokens must map to single token ids in the vocab.")).
Proof.
  destruct (first_invalid_token self forbidden_tokens Hbad)
    as (good & bad & rest & -> & Hgood & Hne).
  exists good, bad, rest. split; [done|]. split; [done|]. split; [done|].
  unfold run_call, __call__.
  erewrite M_bind_Ok by (unfold get_self; reflexivity). simpl.
  erewrite M_bind_Raise; [done|].
  erewrite M_bind_Raise; [done|].
  by rewrite forbidden_ids_loop_Raise.
Qed.

(** *** The shape of the buffer *)

Lemma step_keeps_shape self params s sampling (i : nat) (row : list Z) :
  token_buffer s !! i = Some row ->
  exists row',
    token_buffer (_sample_step self params s sampling) !! i = Some row'
    /\ length row' = length row.
Proof.
  intros Hrow.
  rewrite token_buffer_step, JnpFacts.lookup_at_set_col, Hrow. simpl.
  eexists. split; [done|].
  destruct (next_tokens self params s sampling !! i);
    [apply JnpFacts.length_at_set|done].
Qed.

Lemma steps_keep_shape self params sampling (k : nat) s :
  length (token_buffer (sample_steps self params sampling k s))
  = length (token_buffer s)
  /\ num_input_tokens (sample_steps self params sampling k s)
     = num_input_tokens s
  /\ forall (i : nat) (row : list Z),
       token_buffer s !! i = Some row ->
       exists row',
         token_buffer (sample_steps self params sampling k s) !! i
         = Some row'
         /\ length row' = length row.
Proof.
  revert s. induction k as [|k IH]; intros s.
  - split; [done|]. split; [done|]. intros i row Hrow. by exists row.
  - simpl. destruct (IH (_sample_step self params s sampling))
      as (Hlen & Hn & Hrows).
    split; [by rewrite Hlen, length_token_buffer_step|].
    split; [by rewrite Hn, num_input_tokens_step|].
    intros i row Hrow.
    destruct (step_keeps_shape self params s sampling i row Hrow)
      as (row1 & Hrow1 & Hlen1).
    destruct (Hrows i row1 Hrow1) as (row' & Hrow' & Hlen').
    exists row'. split; [done|]. congruence.
Qed.

(** A Python slice whose bounds lie inside the sequence. *)
Lemma slice_inside {A : Type} (x : list A) (a b : Z) :
  0 <= a <= b -> b <= Z.of_nat (length x) ->
  Jnp.slice x a b = take (Z.to_nat (b - a)) (drop (Z.to_nat a) x)
  /\ Z.of_nat (length (Jnp.slice x a b)) = b - a.
Proof.
  intros Hab Hb. unfold Jnp.slice, Jnp.slice_bound.
  replace (a <? 0) with false by (symmetry; apply Z.ltb_ge; lia).
  replace (b <? 0) with false by (symmetry; apply Z.ltb_ge; lia).
  rewrite !Z.min_l by lia.
  replace (Z.to_nat b - Z.to_nat a)%nat with (Z.to_nat (b - a)) by lia.
  split; [done|]. rewrite length_take, length_drop. lia.
Qed.

(** *** Forbidden tokens *)

Lemma lookup_at_set_eq {A : Type} (x : list A) (j : Z) (v : A) :
  0 <= Jnp.norm_index (length x) j < Z.of_nat (length x) ->
  Jnp.at_set x j v !! Z.to_nat (Jnp.norm_index (length x) j) = Some v.
Proof.
  intros Hk. unfold Jnp.at_set.
  replace (0 <=? _) with true by (symmetry; apply Z.leb_le; lia).
  replace (_ <? _) with true by (symmetry; apply Z.ltb_lt; lia).
  simpl. apply list_lookup_insert_eq. lia.
Qed.

Lemma lookup_at_set_ne {A : Type} (x : list A) (j : Z) (v : A) (i : nat) :
  Jnp.norm_index (length x) j <> Z.of_nat i ->
  Jnp.at_set x j v !! i = x !! i.
Proof.
  intros Hne. unfold Jnp.at_set. case_match eqn:Hin; [|done].
  apply andb_prop in Hin as [H0 _]. apply Z.leb_le in H0.
  apply list_lookup_insert_ne. lia.
Qed.

(** After [x.at[ids].set(v)], every index of [ids] that lies on the
    axis holds [v]. *)
Lemma lookup_at_set_many {A : Type} (x : list A) (ids : list Z) (v : A)
    (id : Z) :
  id ∈ ids ->
  0 <= Jnp.norm_index (length x) id < Z.of_nat (length x) ->
  Jnp.at_set_many x ids v !! Z.to_nat (Jnp.norm_index (length x) id)
  = Some v.
Proof.
  intros Hid Hk. induction ids as [|j ids IH]; [by apply elem_of_nil in Hid|].
  simpl.
  destruct (decide (Jnp.norm_index (length x) j
                    = Jnp.norm_index (length x) id)) as [Heq|Hne].
  - rewrite <- Heq. rewrite <- (JnpFacts.length_at_set_many x ids v).
    apply lookup_at_set_eq. rewrite JnpFacts.length_at_set_many. lia.
  - rewrite lookup_at_set_ne.
    + apply IH. apply elem_of_cons in Hid as [->|Hid]; done.
    + rewrite JnpFacts.length_at_set_many. lia.
Qed.

(** The logits handed to the sampling method when ids are forbidden. *)
Lemma sampling_logits_forbidden self params s (ids : list Z) (b : nat)
    (l : list (list F)) (v : list F) (id : Z) :
  forbidden_token_ids s = Some ids -> ids <> [] ->
  sampling_logits self params s !! b = Some l ->
  v ∈ l ->
  id ∈ ids ->
  0 <= Jnp.norm_index (length v) id < Z.of_nat (length v) ->
  v !! Z.to_nat (Jnp.norm_index (length v) id) = Some neg_inf.
Proof.
  intros Hids Hne Hl Hv Hid Hk. unfold sampling_logits in Hl.
  rewrite Hids in Hl. destruct ids as [|j ids']; [done|].
  rewrite list_lookup_fmap in Hl.
  destruct (_ !! b) as [l0|] in Hl; [|done]. simpl in Hl.
  injection Hl as <-. apply list_elem_of_fmap in Hv as (v0 & -> & _).
  change (Jnp.at_set (Jnp.at_set_many v0 ids' neg_inf) j neg_inf)
    with (Jnp.at_set_many v0 (j :: ids') neg_inf) in *.
  rewrite JnpFacts.length_at_set_many in *.
  by apply lookup_at_set_many.
Qed.

Lemma sampled_tokens_allowed self params s sampling (ids : list Z)
    (i : nat) (t : Z) :
  forbidden_token_ids s = Some ids -> ids <> [] ->
  selects_finite sampling (sampling_logits self params s)
                 (random_split (rng s)).2 ->
  sampled_tokens self params s sampling !! i = Some t ->
  t ∉ ids.
Proof.
  intros Hids Hne Hsel Ht Hin. unfold sampled_tokens in Ht.
  rewrite list_lookup_fmap in Ht.
  destruct (get_next_tokens _ _ _ !! i) as [r|] eqn:Hr; [|done].
  simpl in Ht. injection Ht as <-.
  destruct (Hsel i r Hr) as (H0 & l & v & x & Hl & Hv & Hx & Hfin).
  pose proof (lookup_lt_Some _ _ _ Hx) as Hlt.
  assert (Hnorm : Jnp.norm_index (length v) (Jnp.getitem 0 r 0)
                  = Jnp.getitem 0 r 0).
  { unfold Jnp.norm_index.
    by replace (_ <? 0) with false by (symmetry; apply Z.ltb_ge; lia). }
  pose proof (sampling_logits_forbidden self params s ids i l v
                (Jnp.getitem 0 r 0) Hids Hne Hl) as Hmasked.
  rewrite Hnorm in Hmasked. rewrite Hmasked in Hx.
  - by injection Hx as <-.
  - destruct l as [|v' l']; simpl in Hv; simplify_eq. constructor.
  - done.
  - lia.
Qed.

(** C7, as the code has it: when ids are forbidden, the logits handed
    to the sampling method hold [-inf] at every forbidden id of the
    vocabulary axis; so a sampling method that, on these logits, selects
    ids whose logit is not [-inf] selects no forbidden id, and then no
    token generated after the prompt is a forbidden id. *)
Theorem forbidden_logits_masked self params sampling s (ids : list Z)
    (Hids : forbidden_token_ids s = Some ids) (Hne : ids <> []) :
  (forall (b : nat) (l : list (list F)) (v : list F) (id : Z),
     sampling_logits self params s !! b = Some l ->
     v ∈ l ->
     id ∈ ids ->
     0 <= Jnp.norm_index (length v) id < Z.of_nat (length v) ->
     v !! Z.to_nat (Jnp.norm_index (length v) id) = Some neg_inf)
  /\ token_buffer (_sample_step self params s sampling)
     = Jnp.at_set_col (token_buffer s) (Int32.add (decoding_step s) 1)
                      (next_tokens self params s sampling)
  /\ (selects_finite sampling (sampling_logits self params s)
                     (random_split (rng s)).2 ->
      (forall (i : nat) (t : Z),
         sampled_tokens self params s sampling !! i = Some t -> t ∉ ids)
      /\ (forall (i : nat) (n t : Z),
            num_input_tokens s !! i = Some n ->
            ~ decoding_step s < Int32.sub n 1 ->
            next_tokens self params s sampling !! i = Some t ->
            t ∉ ids)).
Proof.
  split; [|split].
  - intros b l v id. by apply sampling_logits_forbidden.
  - apply token_buffer_step.
  - intros Hsel. split.
    + intros i t. by apply sampled_tokens_allowed.
    + intros i n t Hn Hgen Ht. unfold next_tokens in Ht.
      apply JnpFacts.lookup_where_Some in Ht
        as (b & xv & yv & Hb & _ & Hyv & ->).
      rewrite list_lookup_fmap, Hn in Hb. simpl in Hb. injection Hb as <-.
      replace (_ <? _) with false by (symmetry; apply Z.ltb_ge; lia).
      by eapply sampled_tokens_allowed.
Qed.

(** *** The output after the first EOS *)

Lemma first_true_le (l : list bool) (m : nat) :
  l !! m = Some true ->
  exists f : nat, Jnp.first_true l = Some f /\ (f <= m)%nat.
Proof.
  revert m. induction l as [|b l IH]; intros m Hm; [done|].
  destruct b; [exists 0%nat; split; [done|lia]|].
  destruct m as [|m]; [done|]. simpl in Hm.
  destruct (IH m Hm) as (f & Hf & Hle). exists (S f). simpl.
  rewrite Hf. split; [done|lia].
Qed.

(** The mask of a row ends at or before any EOS of the row. *)
Lemma eos_index_le self (row : list Z) (m : nat) :
  row !! m = Some (EOS (special_tokens (tokenizer self))) ->
  eos_index self row <= Z.of_nat m.
Proof.
  intros Hm. unfold eos_index.
  destruct (first_true_le
              (map (fun t => t =? EOS (special_tokens (tokenizer self))) row) m)
    as (f & Hf & Hle).
  { rewrite list_lookup_fmap, Hm. simpl. by rewrite Z.eqb_refl. }
  rewrite (any_first_true _ _ Hf). unfold Jnp.argmax. rewrite Hf. simpl. lia.
Qed.

(** In a row of [int32] tokens, masked, every slot after a slot that
    holds EOS holds PAD. *)
Lemma masked_row_after_eos self (row : list Z) (m j : nat) :
  Int32.in_range (PAD (special_tokens (tokenizer self))) ->
  Forall Int32.in_range row ->
  mask_row_after_eos_ids self row !! m
  = Some (EOS (special_tokens (tokenizer self))) ->
  (m < j < length row)%nat ->
  mask_row_after_eos_ids self row !! j
  = Some (PAD (special_tokens (tokenizer self))).
Proof.
  intros Hpad Hint Hm Hj.
  destruct (lookup_lt_is_Some_2 row m) as [t Ht]; [lia|].
  destruct (lookup_lt_is_Some_2 row j) as [u Hu]; [lia|].
  apply (mask_row_spec self row j u Hpad Hu).
  destruct (decide (Z.of_nat m <= eos_index self row)) as [Hle|Hgt]; [|lia].
  destruct (mask_row_spec self row m t Hpad Ht) as [Hkeep _].
  rewrite Hkeep in Hm; [|done|by apply (Forall_lookup_1 _ _ _ _ Hint Ht)].
  injection Hm as ->. pose proof (eos_index_le self row m Ht). lia.
Qed.

Lemma lookup_slice {A : Type} (x : list A) (a b : Z) (k : nat) (y : A) :
  Jnp.slice x a b !! k = Some y ->
  exists a' : nat,
    x !! (a' + k)%nat = Some y
    /\ forall j : nat, (j < length (Jnp.slice x a b))%nat ->
         Jnp.slice x a b !! j = x !! (a' + j)%nat.
Proof.
  unfold Jnp.slice. intros Hk. exists (Jnp.slice_bound (length x) a).
  split.
  - apply lookup_take_Some in Hk as [Hk _]. by rewrite lookup_drop in Hk.
  - intros j Hj. rewrite length_take in Hj.
    rewrite lookup_take_lt by lia. by rewrite lookup_drop.
Qed.

Lemma output_after_eos self (echo : bool) (total : Z)
    (token_buffer : list (list Z)) (num_input_tokens : list Z) (i : nat)
    (out : list Z) (k j : nat) :
  Int32.in_range (PAD (special_tokens (tokenizer self))) ->
  Forall (Forall Int32.in_range) token_buffer ->
  out_tokens_of echo total (mask_tokens_after_eos_ids self token_buffer)
                num_input_tokens !! i = Some out ->
  out !! k = Some (EOS (special_tokens (tokenizer self))) ->
  (k < j < length out)%nat ->
  out !! j = Some (PAD (special_tokens (tokenizer self))).
Proof.
  intros Hpad Hint Hout Hk Hj. unfold out_tokens_of in Hout.
  apply lookup_zip_with_Some in Hout as (row' & n & -> & Hrow' & _).
  unfold mask_tokens_after_eos_ids in Hrow'.
  rewrite list_lookup_fmap in Hrow'.
  destruct (token_buffer !! i) as [row|] eqn:Hrow; [|done].
  simpl in Hrow'. injection Hrow' as <-.
  apply lookup_slice in Hk as (a & Hk & Hsame).
  rewrite (Hsame j) by lia.
  apply (masked_row_after_eos self row (a + k) (a + j) Hpad);
    [by apply (Forall_lookup_1 _ _ _ _ Hint Hrow) | done |].
  split; [lia|]. rewrite <- (length_mask_row self row).
  destruct (lookup_lt_is_Some_2 (Jnp.slice (mask_row_after_eos_ids self row)
              (if echo then 0 else n) total) j) as [y Hy]; [lia|].
  rewrite (Hsame j) in Hy by lia. by apply lookup_lt_Some in Hy.
Qed.

(** *** Steps of a single sequence *)

Lemma getitem_lookup {A : Type} (d : A) (x : list A) (j : Z) (t : A) :
  0 <= j -> x !! Z.to_nat j = Some t -> Jnp.getitem d x j = t.
Proof.
  intros Hj Ht. pose proof (lookup_lt_Some _ _ _ Ht) as Hlt.
  unfold Jnp.getitem, Jnp.norm_index.
  replace (j <? 0) with false by (symmetry; apply Z.ltb_ge; lia).
  rewrite Z.min_l by lia. rewrite Z.max_r by lia. by rewrite Ht.
Qed.

Lemma at_set_insert {A : Type} (x : list A) (j : Z) (v : A) :
  0 <= j < Z.of_nat (length x) ->
  Jnp.at_set x j v = <[Z.to_nat j := v]> x.
Proof.
  intros Hj. unfold Jnp.at_set, Jnp.norm_index.
  replace (j <? 0) with false by (symmetry; apply Z.ltb_ge; lia).
  replace (0 <=? j) with true by (symmetry; apply Z.leb_le; lia).
  by replace (j <? _) with true by (symmetry; apply Z.ltb_lt; lia).
Qed.

Lemma total_sampling_steps_steps self params sampling (k : nat) s :
  total_sampling_steps (sample_steps self params sampling k s)
  = total_sampling_steps s.
Proof.
  revert s. induction k as [|k IH]; intros s; [done|].
  simpl. by rewrite IH, total_sampling_steps_step.
Qed.

(** The key a step passes to the sampling method. *)
Lemma step_key_steps self params sampling (k : nat) s :
  (random_split (rng (sample_steps self params sampling k s))).2
  = step_key k (rng s).
Proof.
  revert s. induction k as [|k IH]; intros s; [done|].
  simpl. by rewrite IH, rng_step.
Qed.

(** A step inside the prompt: the row is kept, whatever is sampled. *)
Lemma step_single_replay self params s sampling (d n : Z) (row : list Z)
    (b : bool) (t : Z) :
  single_sequence s d n row b ->
  0 <= d -> Z.of_nat (length row) <= Int32.max_int ->
  d < Int32.sub n 1 ->
  row !! Z.to_nat (d + 1) = Some t ->
  single_sequence (_sample_step self params s sampling) (d + 1) n row
    (b || (t =? EOS (special_tokens (tokenizer self)))).
Proof.
  intros (Hd & Hn & Hrow & Hb) H0 Hlen Hreplay Ht.
  pose proof (lookup_lt_Some _ _ _ Ht) as Hlt.
  assert (Hnext : Int32.add d 1 = d + 1).
  { apply Int32Facts.succ_no_overflow;
      unfold Int32.in_range, Int32.min_int, Int32.max_int in *; lia. }
  assert (Hbuf : token_buffer (_sample_step self params s sampling) = [row]).
  { rewrite token_buffer_step, Hrow, Hd, Hnext. unfold next_tokens.
    rewrite Hn, Hrow, Hd, Hnext. simpl.
    apply Z.ltb_lt in Hreplay. rewrite Hreplay.
    destruct (sampled_tokens self params s sampling) as [|c cs]; [done|].
    unfold Jnp.at_set_col, Jnp.where_. simpl.
    by rewrite JnpFacts.at_set_getitem. }
  split; [by rewrite decoding_step_step, Hd|].
  split; [by rewrite num_input_tokens_step|]. split; [done|].
  rewrite done_step, Hbuf, Hb, Hd, Hnext. simpl.
  by rewrite (getitem_lookup 0 row (d + 1) t) by (done || lia).
Qed.

(** A step after the prompt: the sampled token is written. *)
Lemma step_single_sample self params s sampling (d n : Z) (row : list Z)
    (b : bool) (c : Z) :
  single_sequence s d n row b ->
  0 <= d -> d + 1 < Z.of_nat (length row) ->
  Z.of_nat (length row) <= Int32.max_int ->
  ~ d < Int32.sub n 1 ->
  sampled_tokens self params s sampling = [c] ->
  single_sequence (_sample_step self params s sampling) (d + 1) n
    (<[Z.to_nat (d + 1) := c]> row)
    (b || (c =? EOS (special_tokens (tokenizer self)))).
Proof.
  intros (Hd & Hn & Hrow & Hb) H0 Hlt Hlen Hgen Hc.
  assert (Hnext : Int32.add d 1 = d + 1).
  { apply Int32Facts.succ_no_overflow;
      unfold Int32.in_range, Int32.min_int, Int32.max_int in *; lia. }
  assert (Hbuf : token_buffer (_sample_step self params s sampling)
                 = [<[Z.to_nat (d + 1) := c]> row]).
  { rewrite token_buffer_step, Hrow, Hd, Hnext. unfold next_tokens.
    rewrite Hn, Hrow, Hd, Hnext, Hc. simpl.
    replace (d <? Int32.sub n 1) with false
      by (symmetry; apply Z.ltb_ge; lia).
    unfold Jnp.at_set_col, Jnp.where_. simpl.
    by rewrite at_set_insert by lia. }
  split; [by rewrite decoding_step_step, Hd|].
  split; [by rewrite num_input_tokens_step|]. split; [done|].
  rewrite done_step, Hbuf, Hb, Hd, Hnext. simpl.
  rewrite (getitem_lookup 0 _ (d + 1) c); [done|lia|].
  apply list_lookup_insert_eq. lia.
Qed.

(** The loop condition on a state of one sequence. *)
Lemma cond_fn_single s (d n : Z) (row : list Z) (b : bool) :
  single_sequence s d n row b ->
  cond_fn s = (d <? total_sampling_steps s) && negb b.
Proof.
  intros (Hd & _ & _ & Hb). unfold cond_fn. rewrite Hd, Hb. simpl.
  by rewrite orb_false_r.
Qed.

(** *** A call on one prompt *)

Lemma at_set_prefix_fits {A : Type} (row v : list A) (n : Z) :
  n = Z.of_nat (length v) ->
  (length v <= length row)%nat ->
  Jnp.at_set_prefix row n v = Ok (v ++ drop (length v) row).
Proof.
  intros -> Hfit. unfold Jnp.at_set_prefix.
  rewrite slice_0 by lia. rewrite Nat2Z.id, length_take.
  rewrite Nat.min_l by done. case_decide as Hempty.
  - by destruct v.
  - by case_decide.
Qed.

(** The initial state of a call on one prompt that fits the buffer. *)
Lemma init_sample_state_single self (input_ids : list Z) (total : Z)
    (include_logits : bool) (forbidden : option (list Z)) :
  0 <= total ->
  (length input_ids <= Z.to_nat (total + 1))%nat ->
  exists s0,
    init_sample_state self [input_ids] total include_logits forbidden = Ok s0
    /\ single_sequence s0 0 (Z.of_nat (length input_ids))
         (input_ids
          ++ replicate (Z.to_nat (total + 1) - length input_ids)
                       (PAD (special_tokens (tokenizer self))))
         false
    /\ total_sampling_steps s0 = total
    /\ rng s0 = _rng self.
Proof.
  intros Htotal Hfit. unfold init_sample_state.
  replace (total + 1 <? 0) with false by (symmetry; apply Z.ltb_ge; lia).
  unfold Jnp.full. simpl mapM.
  rewrite !at_set_prefix_fits;
    [| done | by rewrite length_replicate
     | by rewrite length_map | by rewrite length_map, length_replicate].
  simpl. eexists. split; [done|]. split; [|done].
  split; [done|]. split; [done|]. split; [|done]. simpl.
  by rewrite drop_replicate.
Qed.

(** A call without forbidden tokens whose initial state is built and
    whose loop returns. *)
Lemma call_None_Ok self (fuel : nat) (input_strings : list string)
    (total_generation_steps : Z) (echo : bool) sampling
    (max_input_length : Z) (s0 st : _SamplingState) :
  py_max (map (fun input_ids => Z.of_nat (length input_ids))
              (map (tokenize self) input_strings))
  = Ok max_input_length ->
  init_sample_state self (map (tokenize self) input_strings)
    (max_input_length + total_generation_steps) false None = Ok s0 ->
  _sample_fn fuel self (params self) s0 sampling = Ok st ->
  exists (w' : call_world) (out : SamplerOutput),
    run_call (__call__ fuel input_strings total_generation_steps echo false
                       None sampling) self
    = (w', Ok out)
    /\ tokens out
       = out_tokens_of echo (max_input_length + total_generation_steps)
           (mask_tokens_after_eos_ids self (token_buffer st))
           (num_input_tokens st)
    /\ _rng (w_self w') = rng st.
Proof.
  intros Hmax Hinit Hloop. unfold run_call, __call__.
  erewrite M_bind_Ok by (unfold get_self; reflexivity). simpl.
  erewrite M_bind_Ok by reflexivity.
  erewrite M_bind_Ok
    by (by apply (mapM_emit EvTokenize (tokenize self))).
  erewrite M_bind_Ok by (unfold lift; by rewrite Hmax).
  erewrite M_bind_Ok by (unfold emit; reflexivity).
  erewrite M_bind_Ok by (unfold lift; by rewrite Hinit).
  erewrite M_bind_Ok by (unfold emit; reflexivity).
  erewrite M_bind_Ok by (unfold lift; by rewrite Hloop).
  erewrite M_bind_Ok
    by (by apply (mapM_emit EvDecode (decode (tokenizer self)))).
  erewrite M_bind_Ok by (unfold set_rng; reflexivity).
  eexists _, _. split; [reflexivity|]. done.
Qed.

(** The slice [3:6] of a row of 7 slots. *)
Lemma slice_3_6 (l : list Z) (a b c : Z) :
  length l = 7%nat ->
  l !! 3%nat = Some a -> l !! 4%nat = Some b -> l !! 5%nat = Some c ->
  Jnp.slice l 3 6 = [a; b; c].
Proof.
  intros Hlen Ha Hb Hc.
  do 8 (destruct l as [|? l]; try done). simpl in *. by simplify_eq.
Qed.

(** *** The worked examples *)

(** A row of seven slots has no EOS when none of its tokens is EOS. *)
Lemma row7_no_eos (eos t0 t1 t2 t3 t4 t5 t6 : Z) :
  eos <> t0 -> eos <> t1 -> eos <> t2 -> eos <> t3 -> eos <> t4 ->
  eos <> t5 -> eos <> t6 ->
  forall j : nat, [t0; t1; t2; t3; t4; t5; t6] !! j <> Some eos.
Proof.
  intros H0 H1 H2 H3 H4 H5 H6 j.
  do 7 (destruct j as [|j]; [simpl; congruence|]). done.
Qed.

(** C9: a single prompt that the tokenizer encodes as [72, 101], three
    generation steps, no forbidden tokens, no echo, a sampling method
    that always returns 5, and an EOS id that is neither 5 nor one of
    the prompt ids BOS, 72, 101.  The call returns
    the tokens [5, 5, 5]; the loop runs six steps, none of which sets
    the done flag, and leaves the buffer [BOS, 72, 101, 5, 5, 5, 5]. *)
Theorem hello_example self (fuel : nat) (prompt : string) sampling
    (Hprompt : encode (tokenizer self) prompt = [72; 101])
    (Hbos : EOS (special_tokens (tokenizer self))
            <> BOS (special_tokens (tokenizer self)))
    (H72 : EOS (special_tokens (tokenizer self)) <> 72)
    (H101 : EOS (special_tokens (tokenizer self)) <> 101)
    (H5 : EOS (special_tokens (tokenizer self)) <> 5)
    (Hpolicy : forall lg key, get_next_tokens sampling lg key = [[5]])
    (Hfuel : (6 < fuel)%nat) :
  exists (s0 : _SamplingState) (w' : call_world) (out : SamplerOutput),
    init_sample_state self [tokenize self prompt] 6 false None = Ok s0
    /\ (forall k : nat, (k <= 6)%nat ->
          done (sample_steps self (params self) sampling k s0) = [false])
    /\ _sample_fn fuel self (params self) s0 sampling
       = Ok (sample_steps self (params self) sampling 6 s0)
    /\ token_buffer (sample_steps self (params self) sampling 6 s0)
       = [[BOS (special_tokens (tokenizer self)); 72; 101; 5; 5; 5; 5]]
    /\ run_call (__call__ fuel [prompt] 3 false false None sampling) self
       = (w', Ok out)
    /\ tokens out = [[5; 5; 5]].
Proof.
  set (eos := EOS (special_tokens (tokenizer self))) in *.
  set (bos := BOS (special_tokens (tokenizer self))) in *.
  set (pad := PAD (special_tokens (tokenizer self))).
  assert (Htok : tokenize self prompt = [bos; 72; 101]).
  { unfold tokenize. by rewrite Hprompt. }
  destruct (init_sample_state_single self (tokenize self prompt) 6 false None)
    as (s0 & Hinit & S0 & Htotal & _); [lia | rewrite Htok; simpl; lia |].
  rewrite Htok in S0. simpl in S0. fold pad in S0.
  assert (Hsampled : forall s,
            sampled_tokens self (params self) s sampling = [5]).
  { intros s. unfold sampled_tokens. by rewrite Hpolicy. }
  assert (E72 : (72 =? eos) = false) by (apply Z.eqb_neq; congruence).
  assert (E101 : (101 =? eos) = false) by (apply Z.eqb_neq; congruence).
  assert (E5 : (5 =? eos) = false) by (apply Z.eqb_neq; congruence).
  assert (S1 : single_sequence (sample_steps self (params self) sampling 1 s0) 1 3
                 [bos; 72; 101; pad; pad; pad; pad] false).
  { rewrite sample_steps_S.
    replace false with (false || (72 =? eos)) by (by rewrite E72).
    by apply (step_single_replay _ _ _ _ 0 3 _ false 72). }
  assert (S2 : single_sequence (sample_steps self (params self) sampling 2 s0) 2 3
                 [bos; 72; 101; pad; pad; pad; pad] false).
  { rewrite sample_steps_S.
    replace false with (false || (101 =? eos)) by (by rewrite E101).
    by apply (step_single_replay _ _ _ _ 1 3 _ false 101). }
  assert (S3 : single_sequence (sample_steps self (params self) sampling 3 s0) 3 3
                 [bos; 72; 101; 5; pad; pad; pad] false).
  { rewrite sample_steps_S.
    replace false with (false || (5 =? eos)) by (by rewrite E5).
    by apply (step_single_sample _ _ _ _ 2 3
                [bos; 72; 101; pad; pad; pad; pad] false 5). }
  assert (S4 : single_sequence (sample_steps self (params self) sampling 4 s0) 4 3
                 [bos; 72; 101; 5; 5; pad; pad] false).
  { rewrite sample_steps_S.
    replace false with (false || (5 =? eos)) by (by rewrite E5).
    by apply (step_single_sample _ _ _ _ 3 3
                [bos; 72; 101; 5; pad; pad; pad] false 5). }
  assert (S5 : single_sequence (sample_steps self (params self) sampling 5 s0) 5 3
                 [bos; 72; 101; 5; 5; 5; pad] false).
  { rewrite sample_steps_S.
    replace false with (false || (5 =? eos)) by (by rewrite E5).
    by apply (step_single_sample _ _ _ _ 4 3
                [bos; 72; 101; 5; 5; pad; pad] false 5). }
  assert (S6 : single_sequence (sample_steps self (params self) sampling 6 s0) 6 3
                 [bos; 72; 101; 5; 5; 5; 5] false).
  { rewrite sample_steps_S.
    replace false with (false || (5 =? eos)) by (by rewrite E5).
    by apply (step_single_sample _ _ _ _ 5 3
                [bos; 72; 101; 5; 5; 5; pad] false 5). }
  assert (Hall : forall k : nat, (k <= 6)%nat ->
            exists d row, single_sequence (sample_steps self (params self) sampling k s0) d 3 row false
                          /\ d = Z.of_nat k).
  { intros k Hk.
    do 7 (destruct k as [|k]; [eexists _, _; split; [eassumption|done]|]).
    lia. }
  assert (Hloop : _sample_fn fuel self (params self) s0 sampling
                  = Ok (sample_steps self (params self) sampling 6 s0)).
  { apply while_loop_steps; [|by rewrite (cond_fn_single _ _ _ _ _ S6),
       total_sampling_steps_steps, Htotal|done].
    intros k Hk. destruct (Hall k) as (d & row & Sk & ->); [lia|].
    rewrite (cond_fn_single _ _ _ _ _ Sk), total_sampling_steps_steps, Htotal.
    rewrite andb_true_r. apply Z.ltb_lt. lia. }
  destruct (call_None_Ok self fuel [prompt] 3 false sampling 3 s0 (sample_steps self (params self) sampling 6 s0))
    as (w' & out & Hcall & Hout & _).
  { cbn [map]. by rewrite Htok. }
  { done. }
  { done. }
  exists s0, w', out. split; [done|]. split.
  { intros k Hk. destruct (Hall k Hk) as (d & row & Sk & _). apply Sk. }
  split; [done|]. split; [apply S6|]. split; [done|].
  rewrite Hout. destruct S6 as (_ & -> & -> & _).
  unfold out_tokens_of, mask_tokens_after_eos_ids. simpl. f_equal.
  assert (Hidx : eos_index self [bos; 72; 101; 5; 5; 5; 5] = 7).
  { apply (eos_index_none self [bos; 72; 101; 5; 5; 5; 5]).
    by apply row7_no_eos. }
  apply slice_3_6.
  - by rewrite length_mask_row.
  - apply mask_row_keep; [done | rewrite Hidx; lia | done].
  - apply mask_row_keep; [done | rewrite Hidx; lia | done].
  - apply mask_row_keep; [done | rewrite Hidx; lia | done].
Qed.


(** C2: in the tokens returned for a sequence, every token after an
    EOS, and so every token after the first EOS, is PAD.  In particular
    take a single prompt that the tokenizer encodes as [72, 101], three
    generation steps, no echo, and a sampling method that returns
    [tok1] on the first generation step and EOS on the second, this EOS
    being the first of the row: the call returns [tok1, EOS, PAD]. *)
Theorem post_eos_masking self
    (Hpad : Int32.in_range (PAD (special_tokens (tokenizer self)))) :
  (forall (echo : bool) (total : Z) (token_buffer : list (list Z))
          (num_input_tokens : list Z) (i : nat) (out : list Z) (k j : nat),
     Forall (Forall Int32.in_range) token_buffer ->
     out_tokens_of echo total (mask_tokens_after_eos_ids self token_buffer)
                   num_input_tokens !! i = Some out ->
     out !! k = Some (EOS (special_tokens (tokenizer self))) ->
     (k < j < length out)%nat ->
     out !! j = Some (PAD (special_tokens (tokenizer self))))
  /\ (forall (fuel : nat) (prompt : string) sampling (tok1 : Z),
        encode (tokenizer self) prompt = [72; 101] ->
        Int32.in_range tok1 ->
        Int32.in_range (EOS (special_tokens (tokenizer self))) ->
        EOS (special_tokens (tokenizer self))
          <> BOS (special_tokens (tokenizer self)) ->
        EOS (special_tokens (tokenizer self)) <> 72 ->
        EOS (special_tokens (tokenizer self)) <> 101 ->
        EOS (special_tokens (tokenizer self)) <> tok1 ->
        (forall lg, get_next_tokens sampling lg (step_key 2 (_rng self))
                    = [[tok1]]) ->
        (forall lg, get_next_tokens sampling lg (step_key 3 (_rng self))
                    = [[EOS (special_tokens (tokenizer self))]]) ->
        (4 < fuel)%nat ->
        exists (w' : call_world) (out : SamplerOutput),
          run_call (__call__ fuel [prompt] 3 false false None sampling) self
          = (w', Ok out)
          /\ tokens out
             = [[tok1; EOS (special_tokens (tokenizer self));
                 PAD (special_tokens (tokenizer self))]]).
Proof.
  split.
  { intros echo total token_buffer num_input_tokens i out k j.
    by apply output_after_eos. }
  intros fuel prompt sampling tok1 Hprompt Htok1 Heos Hbos H72 H101 Hne1
         Hfirst Hsecond Hfuel.
  set (eos := EOS (special_tokens (tokenizer self))) in *.
  set (bos := BOS (special_tokens (tokenizer self))) in *.
  set (pad := PAD (special_tokens (tokenizer self))) in *.
  assert (Htok : tokenize self prompt = [bos; 72; 101]).
  { unfold tokenize. by rewrite Hprompt. }
  destruct (init_sample_state_single self (tokenize self prompt) 6 false None)
    as (s0 & Hinit & S0 & Htotal & Hrng); [lia | rewrite Htok; simpl; lia |].
  rewrite Htok in S0. simpl in S0. fold pad in S0.
  assert (E72 : (72 =? eos) = false) by (apply Z.eqb_neq; congruence).
  assert (E101 : (101 =? eos) = false) by (apply Z.eqb_neq; congruence).
  assert (E1 : (tok1 =? eos) = false) by (apply Z.eqb_neq; congruence).
  assert (Hsampled : forall (k : nat) (c : Z),
            (forall lg, get_next_tokens sampling lg (step_key k (_rng self))
                        = [[c]]) ->
            sampled_tokens self (params self)
              (sample_steps self (params self) sampling k s0) sampling
            = [c]).
  { intros k c Hc. unfold sampled_tokens.
    by rewrite step_key_steps, Hrng, Hc. }
  assert (S1 : single_sequence (sample_steps self (params self) sampling 1 s0)
                 1 3 [bos; 72; 101; pad; pad; pad; pad] false).
  { rewrite sample_steps_S.
    replace false with (false || (72 =? eos)) by (by rewrite E72).
    by apply (step_single_replay _ _ _ _ 0 3 _ false 72). }
  assert (S2 : single_sequence (sample_steps self (params self) sampling 2 s0)
                 2 3 [bos; 72; 101; pad; pad; pad; pad] false).
  { rewrite sample_steps_S.
    replace false with (false || (101 =? eos)) by (by rewrite E101).
    by apply (step_single_replay _ _ _ _ 1 3 _ false 101). }
  assert (S3 : single_sequence (sample_steps self (params self) sampling 3 s0)
                 3 3 [bos; 72; 101; tok1; pad; pad; pad] false).
  { rewrite sample_steps_S.
    replace false with (false || (tok1 =? eos)) by (by rewrite E1).
    apply (step_single_sample _ _ _ _ 2 3
             [bos; 72; 101; pad; pad; pad; pad] false tok1);
      [done | lia | simpl; lia | done | by vm_compute | by apply Hsampled]. }
  assert (S4 : single_sequence (sample_steps self (params self) sampling 4 s0)
                 4 3 [bos; 72; 101; tok1; eos; pad; pad] true).
  { rewrite sample_steps_S.
    replace true with (false || (eos =? eos)) by (by rewrite Z.eqb_refl).
    apply (step_single_sample _ _ _ _ 3 3
             [bos; 72; 101; tok1; pad; pad; pad] false eos);
      [done | lia | simpl; lia | done | by vm_compute | by apply Hsampled]. }
  assert (Hloop : _sample_fn fuel self (params self) s0 sampling
                  = Ok (sample_steps self (params self) sampling 4 s0)).
  { apply while_loop_steps; [|by rewrite (cond_fn_single _ _ _ _ _ S4),
       total_sampling_steps_steps, Htotal|done].
    intros k Hk.
    assert (Hk' : exists d row,
              single_sequence (sample_steps self (params self) sampling k s0)
                              d 3 row false /\ d = Z.of_nat k).
    { do 4 (destruct k as [|k]; [eexists _, _; split; [eassumption|done]|]).
      lia. }
    destruct Hk' as (d & row & Sk & ->).
    rewrite (cond_fn_single _ _ _ _ _ Sk), total_sampling_steps_steps, Htotal.
    rewrite andb_true_r. apply Z.ltb_lt. lia. }
  destruct (call_None_Ok self fuel [prompt] 3 false sampling 3 s0
              (sample_steps self (params self) sampling 4 s0))
    as (w' & out & Hcall & Hout & _).
  { cbn [map]. by rewrite Htok. }
  { done. }
  { done. }
  exists w', out. split; [done|].
  rewrite Hout. destruct S4 as (_ & -> & -> & _).
  unfold out_tokens_of, mask_tokens_after_eos_ids. simpl. f_equal.
  assert (Hidx : eos_index self [bos; 72; 101; tok1; eos; pad; pad] = 4).
  { apply (eos_index_first self [bos; 72; 101; tok1; eos; pad; pad] 4).
    split; [done|]. intros j Hj.
    do 4 (destruct j as [|j]; [simpl; fold bos eos; congruence|]). lia. }
  apply slice_3_6.
  - by rewrite length_mask_row.
  - apply mask_row_keep; [done | rewrite Hidx; lia | done].
  - apply mask_row_keep; [done | rewrite Hidx; lia | done].
  - apply (mask_row_pad self _ 5 pad); [done | done | rewrite Hidx; lia].
Qed.

End SamplerFacts.

(** ** The properties on the small instance *)

Section Instances.
Import Demo.

Local Abbreviation demo := (demo_sampler 1).

(** C4 on a sequence that samples EOS at its first step. *)
Lemma demo_done_stays :
  done (sample_steps demo tt (always 1) 3 (demo_state 1)) !! 0%nat
  = Some true.
Proof.
  refine (proj2 (done_monotonic demo tt (always 1) (demo_state 1)
                   1 3 0 _ _) _).
  - simpl. lia.
  - lia.
  - reflexivity.
Defined.

(** C3 on the prompt [BOS, 72, 101] after four steps. *)
Lemma demo_prompt_kept :
  match init_sample_state demo [[2; 72; 101]] 6 false None with
  | Ok s0 =>
      exists (row : list Z) (n : Z),
        token_buffer (sample_steps demo tt (always 5) 4 s0) !! 0%nat
        = Some row
        /\ num_input_tokens (sample_steps demo tt (always 5) 4 s0) !! 0%nat
           = Some n
        /\ n = 3
        /\ Jnp.slice row 0 n = [2; 72; 101]
  | _ => False
  end.
Proof.
  destruct (init_sample_state demo [[2; 72; 101]] 6 false None)
    as [s0| |] eqn:Hinit.
  - apply (prompt_fidelity demo tt (always 5) [[2; 72; 101]] 6 false None
             s0 4 0 [2; 72; 101] Hinit).
    + unfold Int32.max_int. lia.
    + reflexivity.
  - vm_compute in Hinit. discriminate.
  - vm_compute in Hinit. discriminate.
Defined.

(** C5 on a state with [total_sampling_steps = 3]. *)
Lemma demo_loop_bound :
  exists n : nat,
    (n <= 3)%nat
    /\ _sample_fn 10 demo tt (demo_state 1) (always 5)
       = Ok (sample_steps demo tt (always 5) n (demo_state 1)).
Proof.
  destruct (decode_loop_terminates demo tt (always 5) (demo_state 1))
    as [_ (n & Hn & _ & _ & _ & Hrun)].
  - reflexivity.
  - simpl. unfold Int32.max_int. lia.
  - exists n. simpl in Hn. split; [lia|]. apply Hrun. lia.
Defined.

(** C1, as stated, fails on the row [7, EOS, 9]: its slot 1, the one of
    the first EOS, is not overwritten with PAD; the masked row is
    [7, EOS, PAD]. *)
Lemma eos_slot_kept :
  ~ (forall (row' : list Z) (j : nat),
       mask_tokens_after_eos_ids demo [[7; 1; 9]] !! 0%nat = Some row' ->
       (1 <= j < 3)%nat ->
       row' !! j = Some (PAD (special_tokens (tokenizer demo)))).
Proof.
  intros Hclaim.
  specialize (Hclaim [7; 1; 0] 1%nat eq_refl ltac:(lia)).
  vm_compute in Hclaim. discriminate.
Qed.

(** The amended C1 on the same row. *)
Lemma demo_mask_row :
  exists row' : list Z,
    mask_tokens_after_eos_ids demo [[7; 1; 9]] !! 0%nat = Some row'
    /\ length row' = 3%nat
    /\ row' !! 1%nat = Some 1
    /\ row' !! 2%nat = Some 0.
Proof.
  destruct (mask_after_eos_spec demo [[7; 1; 9]] 0 [7; 1; 9])
    as (row' & Hrow' & Hlen & Hfirst & _).
  - simpl. unfold Int32.in_range, Int32.min_int, Int32.max_int. lia.
  - reflexivity.
  - repeat (constructor;
            [unfold Int32.in_range, Int32.min_int, Int32.max_int; lia|]).
    constructor.
  - exists row'. split; [exact Hrow'|]. split; [exact Hlen|].
    destruct (Hfirst 1%nat) as (Heos & _ & Hpad).
    + split; [reflexivity|]. intros j Hj.
      destruct j as [|j]; [simpl; discriminate|lia].
    + split; [exact Heos|]. apply Hpad. simpl. lia.
Defined.


(** C2: the general part on a buffer row [2, 9, EOS, 7, 7] returned
    with echo, and the example with a sampling method that returns 9 at
    the first generation step and EOS at the second. *)
Lemma demo_stop :
  (forall out : list Z,
     out_tokens_of true 4 (mask_tokens_after_eos_ids demo [[2; 9; 1; 7; 7]])
                   [2] !! 0%nat = Some out ->
     out !! 3%nat = Some 0)
  /\ exists (w' : world) (out : SamplerOutput),
       run_call (__call__ 5 ["Hello"%string] 3 false false None
                          (by_key (fun key => if Nat.eqb key 3 then 1 else 9)))
                demo
       = (w', Ok out)
       /\ tokens out = [[9; 1; 0]].
Proof.
  assert (Hpad : Int32.in_range (PAD (special_tokens (tokenizer demo)))).
  { simpl. unfold Int32.in_range, Int32.min_int, Int32.max_int. lia. }
  destruct (post_eos_masking demo Hpad) as [Hgeneral Hexample]. split.
  - intros out Hout.
    apply (Hgeneral true 4 [[2; 9; 1; 7; 7]] [2] 0%nat out 2%nat 3%nat).
    + repeat constructor;
        unfold Int32.in_range, Int32.min_int, Int32.max_int; lia.
    + exact Hout.
    + vm_compute in Hout. injection Hout as <-. reflexivity.
    + vm_compute in Hout. injection Hout as <-. simpl. lia.
  - apply (Hexample 5%nat "Hello"%string
             (by_key (fun key => if Nat.eqb key 3 then 1 else 9)) 9).
    + reflexivity.
    + unfold Int32.in_range, Int32.min_int, Int32.max_int. lia.
    + simpl. unfold Int32.in_range, Int32.min_int, Int32.max_int. lia.
    + simpl. lia.
    + simpl. lia.
    + simpl. lia.
    + simpl. lia.
    + intros lg. reflexivity.
    + intros lg. reflexivity.
    + lia.
Defined.

(** C6 on three forbidden tokens, the second of which maps to two
    ids. *)
Lemma demo_rejected :
  exists (good : list string) (bad : string) (rest : list string),
    ["x"; "Hello"; "y"]%string = good ++ bad :: rest
    /\ Forall (fun token => length (encode (tokenizer demo) token) = 1%nat)
              good
    /\ length (encode (tokenizer demo) bad) <> 1%nat
    /\ run_call (__call__ 10 ["Hello"%string] 3 false false
                          (Some ["x"; "Hello"; "y"]%string) (always 5))
                demo
       = ({| w_self := demo;
             w_trace := map EvEncodeForbidden (good ++ [bad]) |},
          Raise (ValueError
             "Forbidden tokens must map to single token ids in the vocab.")).
Proof.
  apply (forbidden_tokens_rejected demo 10 ["Hello"%string] 3 false false
           ["x"; "Hello"; "y"]%string (always 5)).
  apply Exists_cons_tl, Exists_cons_hd. simpl. lia.
Defined.

(** C7, as stated, fails for a sampling method that does not read the
    logits: with id 5 forbidden, its logit is [-inf], and yet a method
    that always returns 5 writes 5 into slot 1, the first slot after
    the prompt of one token. *)
Lemma forbidden_id_sampled :
  forbidden_token_ids (demo_state 1) = Some [5]
  /\ sampling_logits demo tt (demo_state 1)
     = [[[Fin 0; Fin 0; Fin 0; Fin 0; Fin 0; NegInf; Fin 0; Fin 0]]]
  /\ num_input_tokens (demo_state 1) = [1]
  /\ token_buffer (_sample_step demo tt (demo_state 1) (always 5))
     = [[7; 5; 9; 0]]
  /\ ~ (forall (i : nat) (t : Z),
          sampled_tokens demo tt (demo_state 1) (always 5) !! i = Some t ->
          t ∉ [5]).
Proof.
  split; [reflexivity|]. split; [reflexivity|]. split; [reflexivity|].
  split; [reflexivity|].
  intros Hclaim. apply (Hclaim 0%nat 5 eq_refl). constructor.
Qed.

(** The amended C7 with greedy sampling: the token sampled for the
    sequence is not the forbidden id 5. *)
Lemma demo_greedy_allowed :
  match sampled_tokens demo tt (demo_state 1) greedy !! 0%nat with
  | Some t => t ∉ [5]
  | None => False
  end.
Proof.
  destruct (forbidden_logits_masked demo tt greedy (demo_state 1) [5])
    as (_ & _ & Hallowed).
  - reflexivity.
  - discriminate.
  - destruct Hallowed as [Hsampled _].
    + intros b r Hr.
      destruct b as [|b]; [|discriminate].
      vm_compute in Hr. injection Hr as <-.
      split; [vm_compute; discriminate|].
      exists [[Fin 0; Fin 0; Fin 0; Fin 0; Fin 0; NegInf; Fin 0; Fin 0]],
             [Fin 0; Fin 0; Fin 0; Fin 0; Fin 0; NegInf; Fin 0; Fin 0],
             (Fin 0).
      split; [reflexivity|]. split; [reflexivity|]. split; [reflexivity|].
      discriminate.
    + destruct (sampled_tokens demo tt (demo_state 1) greedy !! 0%nat)
        as [t|] eqn:Ht.
      * apply (Hsampled 0%nat t Ht).
      * vm_compute in Ht. discriminate.
Defined.

(** C9 on the sampler whose EOS is 1. *)
Lemma demo_hello :
  exists (w' : world) (out : SamplerOutput),
    run_call (__call__ 7 ["Hello"%string] 3 false false None (always_one 5))
             demo
    = (w', Ok out)
    /\ tokens out = [[5; 5; 5]].
Proof.
  destruct (hello_example demo 7 "Hello"%string (always_one 5))
    as (s0 & w' & out & _ & _ & _ & _ & Hcall & Hout).
  - reflexivity.
  - simpl. lia.
  - simpl. lia.
  - simpl. lia.
  - simpl. lia.
  - intros lg key. reflexivity.
  - lia.
  - exists w', out. split; [exact Hcall|exact Hout].
Defined.

End Instances.

(** * Further properties of the sampler *)

Section MoreFacts.
Context {F Cache Params PRNGKey : Type} `{!Runtime F PRNGKey}.
Implicit Types (self : @Sampler F Cache Params PRNGKey).
Implicit Types (s : @_SamplingState F Cache PRNGKey).
Implicit Types (sampling : @SamplingMethod F PRNGKey).
Implicit Types (params : Params).

Local Abbreviation call_monad := (@M F Cache Params PRNGKey).
Local Abbreviation call_world := (@world F Cache Params PRNGKey).

(** ** The attention mask *)

Lemma to_uint32_nonneg (z : Z) :
  0 <= z <= Int32.max_int -> Int32.of_uint32 (Int32.to_uint32 z) = z.
Proof.
  intros Hz. unfold Int32.of_uint32, Int32.to_uint32.
  rewrite Z.mod_small by (unfold Int32.max_int in Hz; lia).
  apply Int32Facts.wrap_id.
  unfold Int32.in_range, Int32.min_int, Int32.max_int in *. lia.
Qed.

Lemma window_start (time_step seq_len : Z) :
  0 <= time_step <= Int32.max_int -> 0 < seq_len <= Int32.max_int + 1 ->
  Int32.add (Int32.sub time_step seq_len) 1 = time_step - seq_len + 1.
Proof.
  intros Ht Hs. unfold Int32.add, Int32.sub.
  rewrite (Int32Facts.wrap_id (time_step - seq_len))
    by (unfold Int32.in_range, Int32.min_int, Int32.max_int in *; lia).
  apply Int32Facts.wrap_id.
  unfold Int32.in_range, Int32.min_int, Int32.max_int in *. lia.
Qed.

(** One row of the mask, slot by slot. *)
Lemma attention_row (time_step seq_len : Z) (input_mask : list (list bool))
    (b : nat) (row : list bool) :
  input_mask !! b = Some row ->
  exists m : list bool,
    _compute_attention_masks time_step seq_len input_mask !! b = Some [m]
    /\ length m = Z.to_nat seq_len
    /\ forall j : nat, (j < Z.to_nat seq_len)%nat ->
         let max_seq_len := Z.min (Z.of_nat (length row)) seq_len in
         let start :=
           Z.max 0 (Z.min (Z.max (Int32.add (Int32.sub time_step seq_len) 1) 0)
                          (Z.of_nat (length row) - max_seq_len)) in
         m !! j
         = Some ((Z.of_nat j <=? Int32.of_uint32 (Int32.to_uint32 time_step))
                 && (if decide (Z.of_nat j < max_seq_len)
                     then default true (row !! (Z.to_nat start + j)%nat)
                     else true)).
Proof.
  intros Hrow. unfold _compute_attention_masks.
  rewrite list_lookup_fmap, Hrow. simpl. eexists. split; [done|].
  set (max_seq_len := Z.min (Z.of_nat (length row)) seq_len).
  set (start := Z.max 0 (Z.min (Z.max (Int32.add (Int32.sub time_step seq_len) 1) 0)
                               (Z.of_nat (length row) - max_seq_len))).
  assert (Hsliced : length (Jnp.dynamic_slice row
                     (Z.max (Int32.add (Int32.sub time_step seq_len) 1) 0)
                     max_seq_len) = Z.to_nat max_seq_len).
  { unfold Jnp.dynamic_slice. rewrite length_take, length_drop.
    fold start. lia. }
  split.
  - rewrite length_zip_with, length_map, length_app, length_replicate.
    unfold Jnp.arange. rewrite length_seqZ, Hsliced. lia.
  - intros j Hj. apply lookup_zip_with_Some.
    eexists _, _. split; [done|]. split.
    + rewrite list_lookup_fmap. unfold Jnp.arange.
      rewrite lookup_seqZ_lt by lia. simpl. by rewrite Z.add_0_l.
    + case_decide as Hin.
      * rewrite lookup_app_l by lia.
        unfold Jnp.dynamic_slice. fold start.
        rewrite lookup_take_lt by lia. rewrite lookup_drop.
        destruct (row !! (Z.to_nat start + j)%nat) as [v|] eqn:Hv; [done|].
        apply lookup_ge_None in Hv. lia.
      * rewrite lookup_app_r by lia. apply lookup_replicate. split; [done|].
        lia.
Qed.

(** The mask has one row of [seq_len] slots per sequence, and a slot
    after the time step is never attended. *)
Theorem attention_mask_causal (time_step seq_len : Z)
    (input_mask : list (list bool))
    (Hstep : 0 <= time_step <= Int32.max_int) :
  length (_compute_attention_masks time_step seq_len input_mask)
  = length input_mask
  /\ forall (b : nat) (l : list (list bool)),
       _compute_attention_masks time_step seq_len input_mask !! b = Some l ->
       exists m : list bool,
         l = [m] /\ length m = Z.to_nat seq_len
         /\ forall j : nat, m !! j = Some true -> Z.of_nat j <= time_step.
Proof.
  split; [unfold _compute_attention_masks; by rewrite length_map|].
  intros b l Hl.
  destruct (input_mask !! b) as [row|] eqn:Hrow.
  - destruct (attention_row time_step seq_len input_mask b row Hrow)
      as (m & Hm & Hlen & Hslots).
    rewrite Hm in Hl. injection Hl as <-. exists m.
    split; [done|]. split; [done|]. intros j Hj.
    pose proof (lookup_lt_Some _ _ _ Hj) as Hlt.
    rewrite Hslots in Hj by lia. injection Hj as Hj.
    apply andb_prop in Hj as [Hj _]. apply Z.leb_le in Hj.
    by rewrite to_uint32_nonneg in Hj.
  - unfold _compute_attention_masks in Hl.
    by rewrite list_lookup_fmap, Hrow in Hl.
Qed.

(** While the time step lies inside the window, slot [j] is attended
    exactly when [j] is at most the time step and the buffer slot [j]
    is valid, or lies beyond the buffer. *)
Theorem attention_mask_window (time_step seq_len : Z)
    (input_mask : list (list bool)) (b : nat) (row : list bool)
    (Hstep : 0 <= time_step < seq_len)
    (Hlen : seq_len <= Int32.max_int)
    (Hrow : input_mask !! b = Some row) :
  exists m : list bool,
    _compute_attention_masks time_step seq_len input_mask !! b = Some [m]
    /\ forall j : nat, (j < Z.to_nat seq_len)%nat ->
         m !! j
         = Some ((Z.of_nat j <=? time_step) && default true (row !! j)).
Proof.
  destruct (attention_row time_step seq_len input_mask b row Hrow)
    as (m & Hm & _ & Hslots).
  exists m. split; [done|]. intros j Hj. rewrite Hslots by done.
  rewrite to_uint32_nonneg by lia. rewrite window_start by lia.
  rewrite (Z.max_r _ 0) by lia. f_equal. f_equal.
  rewrite (Z.max_l 0) by lia. change (Z.to_nat 0) with 0%nat. simpl.
  case_decide as Hin; [done|].
  rewrite (proj2 (lookup_ge_None row j)); [done|]. lia.
Qed.

(** Once the time step has left the window, the window slides: slot
    [j] is attended exactly when the buffer slot [start + j] is valid,
    where the window of [seq_len] slots starts at
    [time_step - seq_len + 1], or at the last start that keeps it
    inside the buffer. *)
Theorem attention_mask_slides (time_step seq_len : Z)
    (input_mask : list (list bool)) (b : nat) (row : list bool)
    (Hlen : 0 < seq_len <= Z.of_nat (length row))
    (Hstep : seq_len - 1 <= time_step <= Int32.max_int)
    (Hrow : input_mask !! b = Some row) :
  exists m : list bool,
    _compute_attention_masks time_step seq_len input_mask !! b = Some [m]
    /\ forall j : nat, (j < Z.to_nat seq_len)%nat ->
         let start := Z.min (time_step - seq_len + 1)
                            (Z.of_nat (length row) - seq_len) in
         exists v : bool,
           row !! (Z.to_nat start + j)%nat = Some v /\ m !! j = Some v.
Proof.
  destruct (attention_row time_step seq_len input_mask b row Hrow)
    as (m & Hm & _ & Hslots).
  exists m. split; [done|]. intros j Hj start.
  destruct (lookup_lt_is_Some_2 row (Z.to_nat start + j)) as [v Hv];
    [unfold start; lia|].
  exists v. split; [done|]. rewrite Hslots by done.
  rewrite to_uint32_nonneg by lia.
  rewrite window_start by lia.
  replace (Z.of_nat j <=? time_step) with true
    by (symmetry; apply Z.leb_le; lia).
  rewrite (Z.min_r _ seq_len) by lia.
  rewrite (Z.max_l _ 0) by lia.
  rewrite (Z.max_r 0) by lia. fold start.
  rewrite decide_True by lia. by rewrite Hv.
Qed.


(** ** What a decode step writes *)

Lemma decoding_step_steps self params sampling (k : nat) s :
  Int32.in_range (decoding_step s) ->
  decoding_step s + Z.of_nat k <= Int32.max_int ->
  decoding_step (sample_steps self params sampling k s)
  = decoding_step s + Z.of_nat k.
Proof.
  revert s. induction k as [|k IH]; intros s Hd Hk; [simpl; lia|].
  simpl. rewrite IH.
  - rewrite decoding_step_step, Int32Facts.succ_no_overflow by (done || lia).
    lia.
  - rewrite decoding_step_step. apply Int32Facts.add_in_range.
  - rewrite decoding_step_step, Int32Facts.succ_no_overflow by (done || lia).
    lia.
Qed.

(** A step writes column [decoding_step + 1] and no other: every other
    slot of every row keeps its token, and the slot of that column, when
    it exists, receives the next token of the sequence. *)
Theorem step_writes_one_slot self params s sampling (i : nat)
    (row : list Z)
    (Hd : 0 <= decoding_step s < Int32.max_int)
    (Hrow : token_buffer s !! i = Some row) :
  exists row' : list Z,
    token_buffer (_sample_step self params s sampling) !! i = Some row'
    /\ length row' = length row
    /\ (forall j : nat,
          Z.of_nat j <> decoding_step s + 1 -> row' !! j = row !! j)
    /\ (forall x : Z,
          next_tokens self params s sampling !! i = Some x ->
          decoding_step s + 1 < Z.of_nat (length row) ->
          row' !! Z.to_nat (decoding_step s + 1) = Some x).
Proof.
  assert (Hnext : Int32.add (decoding_step s) 1 = decoding_step s + 1).
  { apply Int32Facts.succ_no_overflow;
      unfold Int32.in_range, Int32.min_int, Int32.max_int in *; lia. }
  rewrite token_buffer_step, JnpFacts.lookup_at_set_col, Hrow, Hnext. simpl.
  eexists. split; [done|].
  destruct (next_tokens self params s sampling !! i) as [x|] eqn:Hx.
  - split; [apply JnpFacts.length_at_set|]. split.
    + intros j Hj. apply lookup_at_set_ne. unfold Jnp.norm_index.
      replace (_ <? 0) with false by (symmetry; apply Z.ltb_ge; lia). lia.
    + intros x' [= <-] Hin. rewrite at_set_insert by lia.
      apply list_lookup_insert_eq. lia.
  - split; [done|]. split; [done|]. intros x' Hx'. done.
Qed.

(** A step inside the prompt of a sequence leaves its row as it is,
    whatever the transformer and the sampling method return. *)
Lemma replay_keeps_row self params s sampling (i : nat) (row : list Z)
    (n : Z) :
  token_buffer s !! i = Some row ->
  num_input_tokens s !! i = Some n ->
  decoding_step s < Int32.sub n 1 ->
  token_buffer (_sample_step self params s sampling) !! i = Some row.
Proof.
  intros Hrow Hn Hreplay.
  rewrite token_buffer_step, JnpFacts.lookup_at_set_col, Hrow. simpl.
  destruct (next_tokens self params s sampling !! i) as [x|] eqn:Hx; [|done].
  apply JnpFacts.lookup_where_Some in Hx
    as (b & xv & yv & Hb & Hxv & _ & ->).
  rewrite list_lookup_fmap, Hn in Hb. simpl in Hb.
  rewrite JnpFacts.lookup_col, Hrow in Hxv. simpl in Hxv. simplify_eq.
  apply Z.ltb_lt in Hreplay. rewrite Hreplay.
  by rewrite JnpFacts.at_set_getitem.
Qed.

(** The initial state, field by field, when every prompt fits. *)
Lemma init_rows_padded self (all_input_ids : list (list Z)) (total : Z)
    (include_logits : bool) (forbidden : option (list Z)) s0 :
  init_sample_state self all_input_ids total include_logits forbidden
  = Ok s0 ->
  0 <= total ->
  token_buffer s0
  = map (fun input_ids =>
           input_ids
           ++ replicate (Z.to_nat (total + 1) - length input_ids)
                        (PAD (special_tokens (tokenizer self))))
        all_input_ids
  /\ Forall (fun input_ids : list Z =>
               (length input_ids <= Z.to_nat (total + 1))%nat)
            all_input_ids.
Proof.
  intros Hinit Htotal.
  apply init_sample_state_Ok in Hinit as (_ & _ & _ & Hrows & _).
  apply mapM_outcome_Ok in Hrows as [Hlen Hrows].
  assert (Hfit : Forall (fun input_ids : list Z =>
                   (length input_ids <= Z.to_nat (total + 1))%nat)
                 all_input_ids).
  { apply Forall_lookup. intros i input_ids Hi.
    destruct (Hrows i input_ids Hi) as (row & _ & Hset).
    apply at_set_prefix_Ok in Hset as (Hfit & _).
    - unfold Jnp.full in Hfit. by rewrite length_replicate in Hfit.
    - unfold Jnp.full. rewrite length_replicate. lia. }
  split; [|done]. apply list_eq. intros i. rewrite list_lookup_fmap.
  destruct (all_input_ids !! i) as [input_ids|] eqn:Hi.
  - destruct (Hrows i input_ids Hi) as (row & Hrow & Hset).
    rewrite at_set_prefix_fits in Hset.
    + injection Hset as <-. rewrite Hrow. simpl. unfold Jnp.full.
      by rewrite drop_replicate.
    + done.
    + unfold Jnp.full. rewrite length_replicate.
      by apply (Forall_lookup_1 _ _ _ _ Hfit Hi).
  - simpl. apply lookup_ge_None. rewrite Hlen. by apply lookup_ge_None.
Qed.

(** During the prefill of a sequence, that is for fewer steps than its
    prompt has tokens, its row is the one [init_sample_state] built:
    the prompt followed by PAD. *)
Theorem prefill_keeps_row self params sampling
    (all_input_ids : list (list Z)) (total : Z) (include_logits : bool)
    (forbidden : option (list Z)) s0 (k i : nat) (input_ids : list Z)
    (Hinit : init_sample_state self all_input_ids total include_logits
                               forbidden = Ok s0)
    (Htotal : 0 <= total < Int32.max_int)
    (Hi : all_input_ids !! i = Some input_ids)
    (Hk : (k < length input_ids)%nat) :
  token_buffer (sample_steps self params sampling k s0) !! i
  = Some (input_ids
          ++ replicate (Z.to_nat (total + 1) - length input_ids)
                       (PAD (special_tokens (tokenizer self)))).
Proof.
  destruct (init_rows_padded _ _ _ _ _ _ Hinit) as [Hrows Hfit]; [lia|].
  pose proof (Forall_lookup_1 _ _ _ _ Hfit Hi) as Hfiti. simpl in Hfiti.
  pose proof (init_sample_state_int32 _ _ _ _ _ _ Hinit Htotal) as Hwf.
  apply init_sample_state_Ok in Hinit as (_ & Hd0 & Hn0 & _).
  induction k as [|k IH].
  - simpl. by rewrite Hrows, list_lookup_fmap, Hi.
  - rewrite sample_steps_S.
    apply (replay_keeps_row _ _ _ _ _ _ (Z.of_nat (length input_ids))).
    + apply IH. lia.
    + pose proof (steps_keep_shape self params sampling k s0)
        as (_ & -> & _).
      by rewrite Hn0, list_lookup_fmap, Hi.
    + rewrite decoding_step_steps.
      * rewrite Hd0, Int32Facts.pred_no_underflow;
          unfold Int32.in_range, Int32.min_int, Int32.max_int in *; lia.
      * apply Hwf.
      * rewrite Hd0. lia.
Qed.


(** ** The initial state *)

Lemma mapM_outcome_map {A B : Type} (f : A -> outcome B) (g : A -> B)
    (l : list A) :
  Forall (fun x => f x = Ok (g x)) l -> mapM f l = Ok (map g l).
Proof.
  induction 1 as [|x l Hx _ IH]; [done|].
  change (mapM f (x :: l))
    with (f x ≫= fun y => mapM f l ≫= fun k => mret (y :: k)).
  rewrite Hx.
  change (mapM f l ≫= (fun k => mret (g x :: k)) = Ok (map g (x :: l))).
  by rewrite IH.
Qed.

Lemma mapM_outcome_Raise {A B : Type} (f : A -> outcome B) (l : list A)
    (e : exn) :
  Forall (fun x => f x = Raise e \/ exists y, f x = Ok y) l ->
  Exists (fun x => f x = Raise e) l ->
  mapM f l = Raise e.
Proof.
  induction 1 as [|x l Hx _ IH]; intros Hex; [by apply Exists_nil in Hex|].
  change (mapM f (x :: l))
    with (f x ≫= fun y => mapM f l ≫= fun k => mret (y :: k)).
  destruct Hx as [Hx|[y Hx]]; rewrite Hx; [done|].
  apply Exists_cons in Hex as [Hex|Hex]; [congruence|].
  change (mapM f l ≫= (fun k => mret (y :: k)) = Raise e).
  by rewrite (IH Hex).
Qed.

(** A prompt of more tokens than the row has slots is refused. *)
Lemma at_set_prefix_too_long {A : Type} (row v : list A) :
  (0 < length row < length v)%nat ->
  Jnp.at_set_prefix row (Z.of_nat (length v)) v
  = Raise (ValueError "Incompatible shapes for broadcasting").
Proof.
  intros Hlen. unfold Jnp.at_set_prefix.
  rewrite slice_0 by lia. rewrite Nat2Z.id, length_take.
  case_decide as Hempty; [lia|].
  case_decide as Hw; [lia|].
  destruct v as [|v0 [|v1 v]]; simpl in *; (done || lia).
Qed.

(** The initial state when every prompt fits the buffer. *)
Lemma init_sample_state_fits self (all_input_ids : list (list Z))
    (total : Z) (include_logits : bool) (forbidden : option (list Z)) :
  0 <= total ->
  Forall (fun input_ids : list Z =>
            (length input_ids <= Z.to_nat (total + 1))%nat)
         all_input_ids ->
  exists s0,
    init_sample_state self all_input_ids total include_logits forbidden
    = Ok s0
    /\ decoding_step s0 = 0
    /\ num_input_tokens s0
       = map (fun input_ids => Z.of_nat (length input_ids)) all_input_ids
    /\ token_buffer s0
       = map (fun input_ids =>
                input_ids
                ++ replicate (Z.to_nat (total + 1) - length input_ids)
                             (PAD (special_tokens (tokenizer self))))
             all_input_ids
    /\ done s0 = replicate (length all_input_ids) false
    /\ total_sampling_steps s0 = total
    /\ forbidden_token_ids s0 = forbidden
    /\ rng s0 = _rng self
    /\ (logits_buffer s0 = None <-> include_logits = false).
Proof.
  intros Htotal Hfit. unfold init_sample_state.
  replace (total + 1 <? 0) with false by (symmetry; apply Z.ltb_ge; lia).
  rewrite (mapM_outcome_map _
             (fun input_ids =>
                input_ids
                ++ drop (length input_ids)
                        (Jnp.full (Z.to_nat (total + 1))
                           (PAD (special_tokens (tokenizer self)))))).
  2:{ eapply Forall_impl; [exact Hfit|]. intros input_ids Hlen.
      simpl in *. apply at_set_prefix_fits; [done|].
      unfold Jnp.full. by rewrite length_replicate. }
  rewrite (mapM_outcome_map _
             (fun input_ids =>
                map (fun t => negb (t =? PAD (special_tokens (tokenizer self))))
                    input_ids
                ++ drop (length input_ids)
                        (Jnp.full (Z.to_nat (total + 1)) true))).
  2:{ eapply Forall_impl; [exact Hfit|]. intros input_ids Hlen.
      simpl in *. rewrite at_set_prefix_fits.
      - by rewrite length_map.
      - by rewrite length_map.
      - unfold Jnp.full. by rewrite length_map, length_replicate. }
  simpl. eexists. split; [done|]. simpl.
  split; [done|]. split; [done|]. split.
  { apply map_ext. intros input_ids. unfold Jnp.full.
    by rewrite drop_replicate. }
  split; [done|]. split; [done|]. split; [done|]. split; [done|].
  by destruct include_logits.
Qed.

(** A prompt written into a row of [bs] slots of [d]: nothing is
    written when the row is empty, and a prompt that fits is followed
    by what is left of the row. *)
Lemma at_set_prefix_full {A : Type} (bs : nat) (d : A) (v : list A) :
  (0 < bs -> length v <= bs)%nat ->
  Jnp.at_set_prefix (Jnp.full bs d) (Z.of_nat (length v)) v
  = Ok (if decide (bs = 0%nat) then []
        else v ++ replicate (bs - length v) d).
Proof.
  intros Hfit. case_decide as Hbs.
  - subst bs. unfold Jnp.at_set_prefix, Jnp.full. simpl.
    rewrite slice_0 by lia. by rewrite take_nil.
  - rewrite at_set_prefix_fits.
    + unfold Jnp.full. by rewrite drop_replicate.
    + done.
    + unfold Jnp.full. rewrite length_replicate. lia.
Qed.

(** The state [init_sample_state] returns when the buffer is empty or
    every prompt fits it. *)
Lemma init_sample_state_value self (all_input_ids : list (list Z))
    (total : Z) (include_logits : bool) (forbidden : option (list Z)) :
  0 <= total + 1 ->
  (0 < total + 1 ->
   Forall (fun input_ids : list Z =>
             (length input_ids <= Z.to_nat (total + 1))%nat)
          all_input_ids) ->
  init_sample_state self all_input_ids total include_logits forbidden
  = Ok {| decoding_step := 0;
          num_input_tokens :=
            map (fun input_ids => Z.of_nat (length input_ids))
                all_input_ids;
          token_buffer :=
            map (fun input_ids =>
                   if decide (total + 1 = 0) then []
                   else input_ids
                        ++ replicate
                             (Z.to_nat (total + 1) - length input_ids)
                             (PAD (special_tokens (tokenizer self))))
                all_input_ids;
          positions :=
            build_positions_from_mask
              (map (fun input_ids =>
                      if decide (total + 1 = 0) then []
                      else map (fun t =>
                                  negb (t =? PAD (special_tokens
                                                    (tokenizer self))))
                               input_ids
                           ++ replicate
                                (Z.to_nat (total + 1) - length input_ids)
                                true)
                   all_input_ids);
          cache := sampler_init_cache self (length all_input_ids);
          done := replicate (length all_input_ids) false;
          total_sampling_steps := total;
          logits_buffer :=
            if include_logits
            then Some (replicate (length all_input_ids)
                         (replicate (Z.to_nat (total + 1))
                            (replicate (num_embed (transformer self))
                                       zero)))
            else None;
          forbidden_token_ids := forbidden;
          rng := _rng self |}.
Proof.
  intros Hsize Hfit. unfold init_sample_state.
  replace (total + 1 <? 0) with false by (symmetry; apply Z.ltb_ge; lia).
  assert (Hfit' : Forall (fun input_ids : list Z =>
                    (0 < Z.to_nat (total + 1) ->
                     length input_ids <= Z.to_nat (total + 1))%nat)
                  all_input_ids).
  { destruct (decide (0 < total + 1)) as [Hpos|Hzero].
    - eapply Forall_impl; [by apply Hfit|]. intros input_ids Hlen _.
      exact Hlen.
    - apply Forall_forall. intros input_ids _ Hpos. lia. }
  rewrite (mapM_outcome_map _
             (fun input_ids =>
                if decide (total + 1 = 0) then []
                else input_ids
                     ++ replicate (Z.to_nat (total + 1) - length input_ids)
                                  (PAD (special_tokens (tokenizer self))))).
  2:{ eapply Forall_impl; [exact Hfit'|]. intros input_ids Hlen.
      simpl in Hlen. rewrite at_set_prefix_full by done.
      f_equal. repeat case_decide; (done || lia). }
  rewrite (mapM_outcome_map _
             (fun input_ids =>
                if decide (total + 1 = 0) then []
                else map (fun t =>
                            negb (t =? PAD (special_tokens (tokenizer self))))
                         input_ids
                     ++ replicate (Z.to_nat (total + 1) - length input_ids)
                                  true)).
  2:{ eapply Forall_impl; [exact Hfit'|]. intros input_ids Hlen.
      simpl in Hlen.
      rewrite <- (length_map
                    (fun t => negb (t =? PAD (special_tokens (tokenizer self))))
                    input_ids) at 1.
      rewrite at_set_prefix_full by (by rewrite length_map).
      rewrite length_map. f_equal. repeat case_decide; (done || lia). }
  simpl. unfold Jnp.full. by destruct include_logits.
Qed.

(** [init_sample_state], for a PAD that is an [int32] and a buffer
    whose size [total_sampling_steps + 1] is one too.  It raises a
    [TypeError] when the size is negative, and a [ValueError] when the
    buffer has a slot and some prompt is longer than it.  Otherwise,
    that is when the buffer is empty or every prompt fits, it returns
    the state that follows: at decoding step 0, with no sequence done,
    and with row [i] of the buffer empty if the buffer is, and else
    prompt [i] followed by PAD. *)
Theorem init_sample_state_spec self (all_input_ids : list (list Z))
    (total : Z) (include_logits : bool) (forbidden : option (list Z))
    (Hpad : Int32.in_range (PAD (special_tokens (tokenizer self))))
    (Htotal : total < Int32.max_int) :
  (total + 1 < 0 ->
   exists msg, init_sample_state self all_input_ids total include_logits
                                 forbidden = Raise (TypeError msg))
  /\ (0 < total + 1 ->
      Exists (fun input_ids : list Z =>
                (Z.to_nat (total + 1) < length input_ids)%nat)
             all_input_ids ->
      exists msg, init_sample_state self all_input_ids total include_logits
                                    forbidden = Raise (ValueError msg))
  /\ (0 <= total + 1 ->
      (0 < total + 1 ->
       Forall (fun input_ids : list Z =>
                 (length input_ids <= Z.to_nat (total + 1))%nat)
              all_input_ids) ->
      init_sample_state self all_input_ids total include_logits forbidden
      = Ok {| decoding_step := 0;
              num_input_tokens :=
                map (fun input_ids => Z.of_nat (length input_ids))
                    all_input_ids;
              token_buffer :=
                map (fun input_ids =>
                       if decide (total + 1 = 0) then []
                       else input_ids
                            ++ replicate
                                 (Z.to_nat (total + 1) - length input_ids)
                                 (PAD (special_tokens (tokenizer self))))
                    all_input_ids;
              positions :=
                build_positions_from_mask
                  (map (fun input_ids =>
                          if decide (total + 1 = 0) then []
                          else map (fun t =>
                                      negb (t =? PAD (special_tokens
                                                        (tokenizer self))))
                                   input_ids
                               ++ replicate
                                    (Z.to_nat (total + 1)
                                     - length input_ids)
                                    true)
                       all_input_ids);
              cache := sampler_init_cache self (length all_input_ids);
              done := replicate (length all_input_ids) false;
              total_sampling_steps := total;
              logits_buffer :=
                if include_logits
                then Some (replicate (length all_input_ids)
                             (replicate (Z.to_nat (total + 1))
                                (replicate (num_embed (transformer self))
                                           zero)))
                else None;
              forbidden_token_ids := forbidden;
              rng := _rng self |}).
Proof.
  split; [|split].
  - intros Hneg. unfold init_sample_state.
    replace (total + 1 <? 0) with true by (symmetry; apply Z.ltb_lt; lia).
    by eexists.
  - intros Hsize Hlong. unfold init_sample_state.
    replace (total + 1 <? 0) with false by (symmetry; apply Z.ltb_ge; lia).
    eexists. unfold mbind at 1. unfold outcome_bind.
    rewrite (mapM_outcome_Raise _ _
               (ValueError "Incompatible shapes for broadcasting")); [done| |].
    + apply Forall_forall. intros input_ids _.
      destruct (decide (length input_ids <= Z.to_nat (total + 1))%nat).
      * right. eexists. apply at_set_prefix_fits; [done|].
        unfold Jnp.full. by rewrite length_replicate.
      * left. apply at_set_prefix_too_long.
        unfold Jnp.full. rewrite length_replicate. lia.
    + eapply Exists_impl; [exact Hlong|]. intros input_ids Hlen. simpl in Hlen.
      apply at_set_prefix_too_long.
      unfold Jnp.full. rewrite length_replicate. lia.
  - apply init_sample_state_value.
Qed.


(** ** The states of the decode loop *)

Lemma while_loop_Ok_steps self params sampling (fuel : nat) s s' :
  _sample_fn fuel self params s sampling = Ok s' ->
  exists n : nat,
    (n < fuel)%nat
    /\ s' = sample_steps self params sampling n s
    /\ cond_fn s' = false
    /\ forall k : nat, (k < n)%nat ->
         cond_fn (sample_steps self params sampling k s) = true.
Proof.
  unfold _sample_fn. revert s.
  induction fuel as [|fuel IH]; intros s Hrun; [done|].
  simpl in Hrun. destruct (cond_fn s) eqn:Hc.
  - destruct (IH _ Hrun) as (n & Hn & -> & Hstop & Hbefore).
    exists (S n). split; [lia|]. split; [done|]. split; [done|].
    intros [|k] Hk; [done|]. simpl. apply Hbefore. lia.
  - injection Hrun as <-. exists 0%nat.
    split; [lia|]. split; [done|]. split; [done|]. intros k Hk. lia.
Qed.

(** The run of the loop on the initial state of a call: the number of
    its steps, which the loop returns after, given any fuel above
    it. *)
Lemma init_loop_run self params sampling (all_input_ids : list (list Z))
    (total : Z) (include_logits : bool) (forbidden : option (list Z)) s0 :
  init_sample_state self all_input_ids total include_logits forbidden
  = Ok s0 ->
  0 <= total <= Int32.max_int ->
  exists n : nat,
    Z.of_nat n <= total
    /\ (forall k : nat, (k <= n)%nat ->
          decoding_step (sample_steps self params sampling k s0)
          = Z.of_nat k)
    /\ (forall k : nat, (k < n)%nat ->
          cond_fn (sample_steps self params sampling k s0) = true)
    /\ cond_fn (sample_steps self params sampling n s0) = false
    /\ forall fuel : nat, (n < fuel)%nat ->
         _sample_fn fuel self params s0 sampling
         = Ok (sample_steps self params sampling n s0).
Proof.
  intros Hinit Htotal.
  apply init_sample_state_Ok in Hinit as (_ & Hd0 & _ & _ & _ & Htot0 & _).
  destruct (loop_bound self params sampling (Z.to_nat total) s0)
    as (n & Hn & Hcount & Hbefore & Hstop).
  { by rewrite Hd0. }
  { rewrite Htot0. lia. }
  { rewrite Htot0, Hd0. lia. }
  exists n. split; [lia|]. split; [|split; [done|split; [done|]]].
  - intros k Hk. rewrite Hcount by done. lia.
  - intros fuel Hfuel. by apply while_loop_steps.
Qed.

(** The loop on the initial state of a call returns, given enough
    fuel, after a number [n] of steps that is at most
    [total_sampling_steps], with [decoding_step] at [n]; it stops
    because the steps are used up or because every sequence is done;
    and each of its steps writes a column that every row of the buffer
    has. *)
Theorem loop_stays_in_buffer self params sampling
    (all_input_ids : list (list Z)) (total : Z) (include_logits : bool)
    (forbidden : option (list Z)) s0
    (Hinit : init_sample_state self all_input_ids total include_logits
                               forbidden = Ok s0)
    (Htotal : 0 <= total < Int32.max_int) :
  exists n : nat,
    Z.of_nat n <= total
    /\ (forall fuel : nat, (n < fuel)%nat ->
          _sample_fn fuel self params s0 sampling
          = Ok (sample_steps self params sampling n s0))
    /\ (forall k : nat, (k < n)%nat ->
          cond_fn (sample_steps self params sampling k s0) = true)
    /\ decoding_step (sample_steps self params sampling n s0) = Z.of_nat n
    /\ (Z.of_nat n = total
        \/ forall b : bool,
             b ∈ done (sample_steps self params sampling n s0) -> b = true)
    /\ forall (k i : nat) (row : list Z),
         (k < n)%nat ->
         token_buffer (sample_steps self params sampling k s0) !! i
         = Some row ->
         0 < decoding_step (sample_steps self params sampling k s0) + 1
           < Z.of_nat (length row).
Proof.
  destruct (init_loop_run self params sampling _ _ _ _ _ Hinit)
    as (n & Hnle & Hcount & Hbefore & Hstop & Hrun); [lia|].
  destruct (init_sample_state_rows _ _ _ _ _ _ Hinit) as [Hlen0 Hrows0];
    [lia|].
  apply init_sample_state_Ok in Hinit as (_ & Hd0 & _ & _ & _ & Htot0 & _).
  exists n. split; [done|]. split; [done|]. split; [done|].
  pose proof (Hcount n ltac:(lia)) as Hdn.
  split; [done|]. split.
  - destruct (decide (Z.of_nat n = total)) as [|Hne]; [by left|right].
    intros b Hb. destruct b; [done|]. exfalso.
    apply list_elem_of_lookup in Hb as [i Hi].
    assert (Hc : cond_fn (sample_steps self params sampling n s0) = true).
    { apply cond_fn_true_iff. rewrite total_sampling_steps_steps, Htot0, Hdn.
      split; [lia|]. by exists i. }
    congruence.
  - intros k i row Hk Hrow.
    rewrite (Hcount k) by lia.
    pose proof (Hbefore k Hk) as Hc.
    apply cond_fn_true_iff in Hc as [Hlt _].
    rewrite total_sampling_steps_steps, Htot0, (Hcount k) in Hlt by lia.
    destruct (steps_keep_shape self params sampling k s0) as (Hlenk & _ & Hshape).
    destruct (lookup_lt_is_Some_2 (token_buffer s0) i) as [row0 Hrow0].
    { rewrite <- Hlenk. by eapply lookup_lt_Some. }
    destruct (Hshape i row0 Hrow0) as (row' & Hrow' & Hlen').
    simplify_eq.
    destruct (lookup_lt_is_Some_2 all_input_ids i) as [input_ids Hids].
    { rewrite <- Hlen0. by eapply lookup_lt_Some. }
    destruct (Hrows0 i input_ids Hids) as (row0' & Hrow0' & Hl & _).
    simplify_eq. lia.
Qed.

(** ** The done flags and the EOS tokens of the buffer *)

(** One step keeps the done flag of a sequence equal to: some slot from
    1 to [decoding_step] of its row holds EOS. *)
Lemma done_iff_eos_step self params s sampling (i : nat) (row : list Z)
    (b : bool) :
  0 <= decoding_step s < Int32.max_int ->
  token_buffer s !! i = Some row ->
  done s !! i = Some b ->
  decoding_step s + 1 < Z.of_nat (length row) ->
  (b = true
   <-> exists j : nat,
         1 <= Z.of_nat j <= decoding_step s
         /\ row !! j = Some (EOS (special_tokens (tokenizer self)))) ->
  exists (row' : list Z) (b' : bool),
    token_buffer (_sample_step self params s sampling) !! i = Some row'
    /\ done (_sample_step self params s sampling) !! i = Some b'
    /\ length row' = length row
    /\ (b' = true
        <-> exists j : nat,
              1 <= Z.of_nat j <= decoding_step s + 1
              /\ row' !! j = Some (EOS (special_tokens (tokenizer self)))).
Proof.
  intros Hd Hrow Hb Hin Hinv.
  assert (Hnext : Int32.add (decoding_step s) 1 = decoding_step s + 1).
  { apply Int32Facts.succ_no_overflow;
      unfold Int32.in_range, Int32.min_int, Int32.max_int in *; lia. }
  assert (Hrow' : exists row',
            token_buffer (_sample_step self params s sampling) !! i
            = Some row'
            /\ length row' = length row
            /\ forall j : nat, Z.of_nat j <> decoding_step s + 1 ->
                 row' !! j = row !! j).
  { rewrite token_buffer_step, JnpFacts.lookup_at_set_col, Hrow, Hnext.
    simpl. eexists. split; [done|].
    destruct (next_tokens self params s sampling !! i) as [x|]; [|done].
    split; [apply JnpFacts.length_at_set|].
    intros j Hj. apply lookup_at_set_ne. unfold Jnp.norm_index.
    replace (_ <? 0) with false by (symmetry; apply Z.ltb_ge; lia). lia. }
  destruct Hrow' as (row' & Hrow' & Hlen' & Hsame).
  destruct (lookup_lt_is_Some_2 row' (Z.to_nat (decoding_step s + 1)))
    as [t Ht]; [lia|].
  exists row', (b || (t =? EOS (special_tokens (tokenizer self)))).
  split; [done|]. split.
  { rewrite done_step, Hnext. apply lookup_zip_with_Some.
    eexists b, _. split; [done|]. split; [done|].
    rewrite list_lookup_fmap, JnpFacts.lookup_col, Hrow'. simpl.
    by rewrite (getitem_lookup 0 row' _ t) by (done || lia). }
  split; [done|]. rewrite orb_true_iff, Hinv, Z.eqb_eq. split.
  - intros [(j & Hj & Heos)|Heos].
    + exists j. split; [lia|]. rewrite Hsame by lia. done.
    + exists (Z.to_nat (decoding_step s + 1)). split; [lia|]. by rewrite <- Heos.
  - intros (j & Hj & Heos).
    destruct (decide (Z.of_nat j = decoding_step s + 1)) as [Heq|Hne].
    + right. replace j with (Z.to_nat (decoding_step s + 1)) in Heos by lia.
      congruence.
    + left. exists j. split; [lia|]. by rewrite <- Hsame.
Qed.

(** After [k] steps from the initial state of a call, within the step
    budget, a sequence is done exactly when one of the slots 1 to [k]
    of its row holds EOS; slot 0, the one of BOS, is never looked at. *)
Theorem done_iff_eos_written self params sampling
    (all_input_ids : list (list Z)) (total : Z) (include_logits : bool)
    (forbidden : option (list Z)) s0 (k i : nat) (input_ids : list Z)
    (Hinit : init_sample_state self all_input_ids total include_logits
                               forbidden = Ok s0)
    (Htotal : 0 <= total < Int32.max_int)
    (Hk : Z.of_nat k <= total)
    (Hi : all_input_ids !! i = Some input_ids) :
  exists (row : list Z) (b : bool),
    token_buffer (sample_steps self params sampling k s0) !! i = Some row
    /\ done (sample_steps self params sampling k s0) !! i = Some b
    /\ (b = true
        <-> exists j : nat,
              (1 <= j <= k)%nat
              /\ row !! j = Some (EOS (special_tokens (tokenizer self)))).
Proof.
  pose proof (init_sample_state_int32 _ _ _ _ _ _ Hinit Htotal) as Hwf.
  destruct (init_sample_state_rows _ _ _ _ _ _ Hinit) as [_ Hrows0]; [lia|].
  destruct (Hrows0 i input_ids Hi) as (row0 & Hrow0 & Hlen0 & _).
  apply init_sample_state_Ok in Hinit as (_ & Hd0 & _ & _ & Hdone0 & _).
  assert (Hgen : exists (row : list Z) (b : bool),
            token_buffer (sample_steps self params sampling k s0) !! i
            = Some row
            /\ done (sample_steps self params sampling k s0) !! i = Some b
            /\ length row = length row0
            /\ (b = true
                <-> exists j : nat,
                      1 <= Z.of_nat j <= Z.of_nat k
                      /\ row !! j
                         = Some (EOS (special_tokens (tokenizer self))))).
  { induction k as [|k IH].
    - exists row0, false. simpl. split; [done|]. split.
      + rewrite Hdone0. unfold Jnp.full. apply lookup_replicate.
        split; [done|]. by eapply lookup_lt_Some.
      + split; [done|]. split; [done|]. intros (j & Hj & _). lia.
    - destruct IH as (row & b & Hrow & Hb & Hlen & Hinv); [lia|].
      assert (Hdk : decoding_step (sample_steps self params sampling k s0)
                    = Z.of_nat k).
      { rewrite decoding_step_steps; [rewrite Hd0; lia | apply Hwf |].
        rewrite Hd0. lia. }
      rewrite sample_steps_S.
      destruct (done_iff_eos_step self params
                  (sample_steps self params sampling k s0) sampling i row b)
        as (row' & b' & Hrow' & Hb' & Hlen' & Hinv').
      + rewrite Hdk. lia.
      + done.
      + done.
      + rewrite Hdk. lia.
      + by rewrite Hdk.
      + exists row', b'. split; [done|]. split; [done|].
        split; [congruence|]. rewrite Hinv', Hdk.
        split; intros (j & Hj & Heos); exists j; (split; [lia|done]). }
  destruct Hgen as (row & b & Hrow & Hb & _ & Hinv).
  exists row, b. split; [done|]. split; [done|]. rewrite Hinv.
  split; intros (j & Hj & Heos); exists j; (split; [lia|done]).
Qed.


(** ** Masking twice *)

Lemma first_true_inv (l : list bool) :
  match Jnp.first_true l with
  | Some k => first_true_at l k
  | None => forall j : nat, l !! j <> Some true
  end.
Proof.
  induction l as [|b l IH]; [intros j; by rewrite lookup_nil|].
  destruct b; simpl.
  - split; [done|]. intros j Hj. lia.
  - destruct (Jnp.first_true l) as [k|]; simpl.
    + destruct IH as [Hk Hbefore]. split; [done|].
      intros [|j] Hj; [done|]. simpl. apply Hbefore. lia.
    + intros [|j]; [done|]. apply IH.
Qed.

(** A row has a first EOS or no EOS. *)
Lemma first_eos_cases self (row : list Z) :
  (exists k : nat, first_eos_at self row k)
  \/ (forall j : nat,
        row !! j <> Some (EOS (special_tokens (tokenizer self)))).
Proof.
  pose proof (first_true_inv
    (map (fun t => t =? EOS (special_tokens (tokenizer self))) row)) as Hinv.
  destruct (Jnp.first_true _) as [k|].
  - left. exists k. destruct Hinv as [Hk Hbefore]. split.
    + rewrite list_lookup_fmap in Hk.
      destruct (row !! k) as [t|]; [|done]. simpl in Hk.
      injection Hk as Hk. apply Z.eqb_eq in Hk. by subst.
    + intros j Hj Heos. specialize (Hbefore j Hj).
      rewrite list_lookup_fmap, Heos in Hbefore. simpl in Hbefore.
      by rewrite Z.eqb_refl in Hbefore.
  - right. intros j Heos. apply (Hinv j).
    rewrite list_lookup_fmap, Heos. simpl. by rewrite Z.eqb_refl.
Qed.

Lemma mask_row_no_eos self (row : list Z) :
  Forall Int32.in_range row ->
  (forall j : nat,
     row !! j <> Some (EOS (special_tokens (tokenizer self)))) ->
  mask_row_after_eos_ids self row = row.
Proof.
  intros Hint Hnone. pose proof (eos_index_none self row Hnone) as Hidx.
  apply list_eq. intros j. destruct (row !! j) as [t|] eqn:Ht.
  - apply mask_row_keep; [done| |by apply (Forall_lookup_1 _ _ _ _ Hint Ht)].
    apply lookup_lt_Some in Ht. lia.
  - apply lookup_ge_None. rewrite length_mask_row. by apply lookup_ge_None.
Qed.

(** Masking a masked buffer changes nothing: the first EOS of a row is
    where it was, and what follows it is PAD already. *)
Theorem mask_tokens_idempotent self (token_buffer : list (list Z))
    (Hpad : Int32.in_range (PAD (special_tokens (tokenizer self))))
    (Hint : Forall (Forall Int32.in_range) token_buffer) :
  mask_tokens_after_eos_ids self
    (mask_tokens_after_eos_ids self token_buffer)
  = mask_tokens_after_eos_ids self token_buffer.
Proof.
  unfold mask_tokens_after_eos_ids. rewrite map_map.
  apply Forall_fmap_ext_1. eapply Forall_impl; [exact Hint|].
  intros row Hrow. simpl.
  destruct (first_eos_cases self row) as [[k Hk]|Hnone].
  - pose proof (eos_index_first self row k Hk) as Hidx.
    destruct Hk as [Hk Hbefore].
    pose proof (lookup_lt_Some _ _ _ Hk) as Hklt.
    assert (Hkeep : forall j : nat, (j <= k)%nat ->
              mask_row_after_eos_ids self row !! j = row !! j).
    { intros j Hj. destruct (lookup_lt_is_Some_2 row j) as [t Ht]; [lia|].
      rewrite Ht. apply mask_row_keep; [done|lia|].
      by apply (Forall_lookup_1 _ _ _ _ Hrow Ht). }
    assert (Hidx' : eos_index self (mask_row_after_eos_ids self row)
                    = Z.of_nat k).
    { apply eos_index_first. split.
      - by rewrite Hkeep.
      - intros j Hj. rewrite Hkeep by lia. by apply Hbefore. }
    apply list_eq. intros j.
    destruct (mask_row_after_eos_ids self row !! j) as [t|] eqn:Ht.
    + pose proof (lookup_lt_Some _ _ _ Ht) as Hjlt.
      rewrite length_mask_row in Hjlt.
      destruct (decide (j <= k)%nat) as [Hle|Hgt].
      * apply mask_row_keep; [done|lia|].
        rewrite Hkeep in Ht by done.
        by apply (Forall_lookup_1 _ _ _ _ Hrow Ht).
      * destruct (lookup_lt_is_Some_2 row j) as [u Hu]; [lia|].
        assert (Hp : mask_row_after_eos_ids self row !! j
                     = Some (PAD (special_tokens (tokenizer self)))).
        { apply (mask_row_pad self row j u Hpad Hu). lia. }
        rewrite Hp in Ht. injection Ht as <-.
        apply (mask_row_pad self _ j _ Hpad Hp). lia.
    + apply lookup_ge_None. rewrite length_mask_row.
      by apply lookup_ge_None.
  - by rewrite !(mask_row_no_eos self row Hrow Hnone).
Qed.

(** ** The logits and the forbidden ids *)

Lemma sampling_logits_model self params s :
  sampling_logits self params s
  = match forbidden_token_ids s with
    | Some ((_ :: _) as ids) =>
        map (map (fun v => Jnp.at_set_many v ids neg_inf))
            (model_logits self params s)
    | _ => model_logits self params s
    end.
Proof. reflexivity. Qed.

Lemma lookup_at_set_many_ne {A : Type} (x : list A) (ids : list Z) (v : A)
    (k : nat) :
  (forall id : Z, id ∈ ids -> Jnp.norm_index (length x) id <> Z.of_nat k) ->
  Jnp.at_set_many x ids v !! k = x !! k.
Proof.
  induction ids as [|j ids IH]; intros Hk; [done|]. simpl.
  rewrite lookup_at_set_ne.
  - apply IH. intros id Hid. apply Hk. by apply elem_of_cons; right.
  - rewrite JnpFacts.length_at_set_many. apply Hk. by apply elem_of_cons; left.
Qed.

(** Forbidding ids changes the logits of the transformer at the
    forbidden ids only: without forbidden ids the sampling method gets
    the logits of the transformer, and with them it gets logits of the
    same shape in which every id that is not forbidden keeps its
    value. *)
Theorem forbidden_mask_frame self params s :
  (forbidden_token_ids s = None \/ forbidden_token_ids s = Some [] ->
   sampling_logits self params s = model_logits self params s)
  /\ forall (ids : list Z) (b a : nat) (l : list (list F)) (v : list F),
       forbidden_token_ids s = Some ids ->
       sampling_logits self params s !! b = Some l ->
       l !! a = Some v ->
       exists (l0 : list (list F)) (v0 : list F),
         model_logits self params s !! b = Some l0
         /\ length l = length l0
         /\ l0 !! a = Some v0
         /\ length v = length v0
         /\ forall k : nat,
              (forall id : Z, id ∈ ids ->
                 Jnp.norm_index (length v0) id <> Z.of_nat k) ->
              v !! k = v0 !! k.
Proof.
  rewrite sampling_logits_model. split.
  - by intros [->| ->].
  - intros ids b a l v Hids Hl Hv. rewrite Hids in Hl.
    destruct ids as [|j ids'].
    + exists l, v. done.
    + rewrite list_lookup_fmap in Hl.
      destruct (model_logits self params s !! b) as [l0|]; [|done].
      simpl in Hl. injection Hl as <-. rewrite list_lookup_fmap in Hv.
      destruct (l0 !! a) as [v0|] eqn:Hv0; [|done].
      simpl in Hv. injection Hv as <-.
      exists l0, v0. split; [done|]. split; [by rewrite length_map|].
      split; [done|].
      change (Jnp.at_set (Jnp.at_set_many v0 ids' neg_inf) j neg_inf)
        with (Jnp.at_set_many v0 (j :: ids') neg_inf).
      split; [apply JnpFacts.length_at_set_many|].
      intros k Hk. by apply lookup_at_set_many_ne.
Qed.

(** The logits recorded at a step are those handed to the sampling
    method, after the forbidden ids were set to [-inf]: the slot
    [decoding_step + 1] of sequence [i] in the buffer of logits holds
    the vector of logits of that sequence, in which every forbidden id
    of the vocabulary axis holds [-inf]. *)
Theorem recorded_logits_masked self params s sampling (ids : list Z)
    (lb : list (list (list F))) (i : nat) (lrow : list (list F))
    (v : list F) (rest : list (list F))
    (Hd : 0 <= decoding_step s < Int32.max_int)
    (Hids : forbidden_token_ids s = Some ids) (Hne : ids <> [])
    (Hlb : logits_buffer s = Some lb)
    (Hlrow : lb !! i = Some lrow)
    (Hin : decoding_step s + 1 < Z.of_nat (length lrow))
    (Hv : sampling_logits self params s !! i = Some (v :: rest)) :
  exists (lb' : list (list (list F))) (lrow' : list (list F)),
    logits_buffer (_sample_step self params s sampling) = Some lb'
    /\ lb' !! i = Some lrow'
    /\ length lrow' = length lrow
    /\ lrow' !! Z.to_nat (decoding_step s + 1) = Some v
    /\ forall id : Z,
         id ∈ ids ->
         0 <= Jnp.norm_index (length v) id < Z.of_nat (length v) ->
         v !! Z.to_nat (Jnp.norm_index (length v) id) = Some neg_inf.
Proof.
  assert (Hnext : Int32.add (decoding_step s) 1 = decoding_step s + 1).
  { apply Int32Facts.succ_no_overflow;
      unfold Int32.in_range, Int32.min_int, Int32.max_int in *; lia. }
  assert (Hbuf : logits_buffer (_sample_step self params s sampling)
                 = Some (Jnp.at_set_col lb (Int32.add (decoding_step s) 1)
                           (map (fun l => default [] (head l))
                                (sampling_logits self params s)))).
  { unfold _sample_step, sampling_logits.
    destruct (random_split (rng s)). simpl. by rewrite Hlb. }
  eexists _, _. split; [exact Hbuf|].
  rewrite JnpFacts.lookup_at_set_col, Hlrow, list_lookup_fmap, Hv, Hnext.
  simpl. split; [done|]. split; [apply JnpFacts.length_at_set|]. split.
  - rewrite at_set_insert by lia. apply list_lookup_insert_eq. lia.
  - intros id Hid Hk.
    apply (sampling_logits_forbidden self params s ids i (v :: rest) v id);
      [done | done | done | constructor | done | done].
Qed.


(** ** The whole call *)

(** The loop over the forbidden tokens of a call, when they are valid. *)
Lemma forbidden_stage_Ok self (forbidden_tokens : option (list string))
    (w : call_world) :
  forbidden_tokens_valid self forbidden_tokens ->
  match forbidden_tokens with
  | Some forbidden_tokens =>
      forbidden_token_ids ← forbidden_ids_loop self forbidden_tokens [];
      mret (Some forbidden_token_ids)
  | None => mret None
  end w
  = ({| w_self := w_self w;
        w_trace := w_trace w ++ forbidden_events forbidden_tokens |},
     Ok (forbidden_ids_of self forbidden_tokens)).
Proof.
  intros Hvalid. destruct forbidden_tokens as [toks|]; simpl in *.
  - by rewrite (M_bind_Ok _ _ _ _ _ (forbidden_ids_loop_Ok self toks [] w Hvalid)).
  - rewrite app_nil_r. by destruct w.
Qed.

(** When they are not, the stage does not return. *)
Lemma forbidden_stage_invalid self (forbidden_tokens : option (list string))
    (w w' : call_world) (ids : option (list Z)) :
  match forbidden_tokens with
  | Some forbidden_tokens =>
      forbidden_token_ids ← forbidden_ids_loop self forbidden_tokens [];
      mret (Some forbidden_token_ids)
  | None => mret None
  end w = (w', Ok ids) ->
  forbidden_tokens_valid self forbidden_tokens.
Proof.
  destruct forbidden_tokens as [toks|]; [|done]. simpl. intros Hrun.
  destruct (decide (Forall (fun token =>
              length (encode (tokenizer self) token) = 1%nat) toks))
    as [Hvalid|Hinvalid]; [done|]. exfalso.
  apply not_Forall_Exists in Hinvalid; [|intros x; apply _].
  destruct (first_invalid_token self toks Hinvalid)
    as (good & bad & rest & -> & Hgood & Hbad).
  by rewrite (M_bind_Raise _ _ _ _ _
                (forbidden_ids_loop_Raise self good bad rest [] w Hgood Hbad))
    in Hrun.
Qed.

(** A call whose forbidden tokens are valid, whose initial state is
    built and whose loop returns: the world and the output it ends
    in. *)
Lemma call_run self (fuel : nat) (input_strings : list string)
    (total_generation_steps : Z) (echo return_logits : bool)
    (forbidden_tokens : option (list string)) sampling
    (max_input_length : Z) (s0 st : _SamplingState) :
  forbidden_tokens_valid self forbidden_tokens ->
  py_max (map (fun x => Z.of_nat (length (tokenize self x))) input_strings)
  = Ok max_input_length ->
  init_sample_state self (map (tokenize self) input_strings)
    (max_input_length + total_generation_steps) return_logits
    (forbidden_ids_of self forbidden_tokens) = Ok s0 ->
  _sample_fn fuel self (params self) s0 sampling = Ok st ->
  let total := max_input_length + total_generation_steps in
  let masked := mask_tokens_after_eos_ids self (token_buffer st) in
  let toks := out_tokens_of echo total masked (num_input_tokens st) in
  run_call (__call__ fuel input_strings total_generation_steps echo
                     return_logits forbidden_tokens sampling) self
  = ({| w_self := {| transformer := transformer self;
                     tokenizer := tokenizer self;
                     params := params self;
                     cache_length := cache_length self;
                     _rng := rng st |};
        w_trace := forbidden_events forbidden_tokens
                   ++ map EvTokenize input_strings
                   ++ [EvInitSampleState; EvSampleFn]
                   ++ map EvDecode toks |},
     Ok {| text := map (decode (tokenizer self)) toks;
           logits := out_logits_of echo return_logits total masked
                       (num_input_tokens st) (logits_buffer st);
           tokens := toks |}).
Proof.
  intros Hvalid Hmax Hinit Hloop total masked toks.
  unfold run_call, __call__.
  erewrite M_bind_Ok by (unfold get_self; reflexivity). simpl.
  erewrite M_bind_Ok by (by apply forbidden_stage_Ok).
  erewrite M_bind_Ok
    by (by apply (mapM_emit EvTokenize (tokenize self))).
  erewrite M_bind_Ok by (unfold lift; by rewrite map_map, Hmax).
  erewrite M_bind_Ok by (unfold emit; reflexivity).
  erewrite M_bind_Ok by (unfold lift; by rewrite Hinit).
  erewrite M_bind_Ok by (unfold emit; reflexivity).
  erewrite M_bind_Ok by (unfold lift; by rewrite Hloop).
  erewrite M_bind_Ok
    by (by apply (mapM_emit EvDecode (decode (tokenizer self)))).
  erewrite M_bind_Ok by (unfold set_rng; reflexivity).
  simpl. unfold mret, M_ret. f_equal. f_equal.
  by rewrite <- !app_assoc.
Qed.

(** Conversely, a call that returns went through these stages. *)
Lemma call_Ok_stages self (fuel : nat) (input_strings : list string)
    (total_generation_steps : Z) (echo return_logits : bool)
    (forbidden_tokens : option (list string)) sampling (w' : call_world)
    (out : SamplerOutput) :
  run_call (__call__ fuel input_strings total_generation_steps echo
                     return_logits forbidden_tokens sampling) self
  = (w', Ok out) ->
  forbidden_tokens_valid self forbidden_tokens
  /\ exists (max_input_length : Z) (s0 st : _SamplingState),
       py_max (map (fun x => Z.of_nat (length (tokenize self x)))
                   input_strings)
       = Ok max_input_length
       /\ init_sample_state self (map (tokenize self) input_strings)
            (max_input_length + total_generation_steps) return_logits
            (forbidden_ids_of self forbidden_tokens) = Ok s0
       /\ _sample_fn fuel self (params self) s0 sampling = Ok st.
Proof.
  unfold run_call, __call__. intros Hcall.
  apply M_bind_Ok_inv in Hcall as (w1 & self' & Hget & Hcall).
  unfold get_self in Hget. simpl in Hget. injection Hget as <- <-.
  apply M_bind_Ok_inv in Hcall as (w2 & ids & Hforb & Hcall).
  pose proof (forbidden_stage_invalid _ _ _ _ _ Hforb) as Hvalid.
  rewrite forbidden_stage_Ok in Hforb by done. injection Hforb as <- <-.
  split; [done|].
  apply M_bind_Ok_inv in Hcall as (w3 & all_input_ids & Hmap & Hcall).
  rewrite (mapM_emit EvTokenize (tokenize self)) in Hmap by done.
  injection Hmap as <- <-.
  apply M_bind_Ok_inv in Hcall as (w4 & max_input_length & Hmax & Hcall).
  unfold lift in Hmax. injection Hmax as <- Hmax.
  apply M_bind_Ok_inv in Hcall as (w5 & [] & Hemit & Hcall).
  unfold emit in Hemit. injection Hemit as <-.
  apply M_bind_Ok_inv in Hcall as (w6 & s0 & Hinit & Hcall).
  unfold lift in Hinit. injection Hinit as <- Hinit.
  apply M_bind_Ok_inv in Hcall as (w7 & [] & Hemit & Hcall).
  unfold emit in Hemit. injection Hemit as <-.
  apply M_bind_Ok_inv in Hcall as (w8 & st & Hloop & Hcall).
  unfold lift in Hloop. injection Hloop as <- Hloop.
  exists max_input_length, s0, st. rewrite map_map in Hmax. done.
Qed.


Lemma rng_steps self params sampling (k : nat) s :
  rng (sample_steps self params sampling k s) = advance_key k (rng s).
Proof.
  revert s. induction k as [|k IH]; intros s; [done|].
  simpl. by rewrite IH, rng_step.
Qed.

Lemma py_max_nonempty (l : list Z) (m : Z) :
  py_max l = Ok m -> exists x, x ∈ l.
Proof. destruct l as [|x l]; [done|]. intros _. exists x. constructor. Qed.

(** The initial state and the run of the loop of a call that has a
    prompt, a number of generation steps that is not negative and a
    total number of steps that is an [int32]. *)
Lemma call_total self (input_strings : list string)
    (total_generation_steps : Z) (return_logits : bool)
    (forbidden : option (list Z)) sampling (max_input_length : Z) :
  py_max (map (fun x => Z.of_nat (length (tokenize self x))) input_strings)
  = Ok max_input_length ->
  0 <= total_generation_steps ->
  max_input_length + total_generation_steps <= Int32.max_int ->
  0 <= max_input_length
  /\ (forall x, x ∈ input_strings ->
        Z.of_nat (length (tokenize self x)) <= max_input_length)
  /\ exists (s0 : _SamplingState) (n : nat),
       init_sample_state self (map (tokenize self) input_strings)
         (max_input_length + total_generation_steps) return_logits forbidden
       = Ok s0
       /\ Z.of_nat n <= max_input_length + total_generation_steps
       /\ (forall k : nat, (k < n)%nat ->
             cond_fn (sample_steps self (params self) sampling k s0) = true)
       /\ cond_fn (sample_steps self (params self) sampling n s0) = false
       /\ forall fuel : nat, (n < fuel)%nat ->
            _sample_fn fuel self (params self) s0 sampling
            = Ok (sample_steps self (params self) sampling n s0).
Proof.
  intros Hmax Hsteps Htotal.
  pose proof (py_max_Ok _ _ Hmax) as Hle.
  destruct (py_max_nonempty _ _ Hmax) as [x0 Hx0].
  assert (H0 : 0 <= max_input_length).
  { pose proof (Hle x0 Hx0) as Hx0le.
    apply list_elem_of_fmap in Hx0 as (y & -> & _). lia. }
  assert (Hfit : forall x, x ∈ input_strings ->
            Z.of_nat (length (tokenize self x)) <= max_input_length).
  { intros x Hx. apply Hle. apply list_elem_of_fmap. by exists x. }
  split; [done|]. split; [done|].
  destruct (init_sample_state_fits self (map (tokenize self) input_strings)
              (max_input_length + total_generation_steps) return_logits
              forbidden)
    as (s0 & Hinit & _).
  { lia. }
  { apply Forall_fmap, Forall_forall. intros x Hx. unfold compose.
    pose proof (Hfit x Hx). lia. }
  destruct (init_loop_run self (params self) sampling _ _ _ _ _ Hinit)
    as (n & Hn & _ & Hbefore & Hstop & Hrun); [lia|].
  by exists s0, n.
Qed.

(** A call returns when its values are typed as the source takes them
    to be, its forbidden tokens map to one id each, it has a prompt,
    the number of generation steps is not negative, the total number
    of steps is an [int32] below the largest and the fuel exceeds
    it. *)
Theorem call_returns self (fuel : nat) (input_strings : list string)
    (total_generation_steps : Z) (echo return_logits : bool)
    (forbidden_tokens : option (list string)) sampling
    (max_input_length : Z)
    (Htyped : typed_call self input_strings forbidden_tokens)
    (Hvalid : forbidden_tokens_valid self forbidden_tokens)
    (Hmax : py_max (map (fun x => Z.of_nat (length (tokenize self x)))
                        input_strings)
            = Ok max_input_length)
    (Hsteps : 0 <= total_generation_steps)
    (Htotal : max_input_length + total_generation_steps < Int32.max_int)
    (Hfuel : max_input_length + total_generation_steps < Z.of_nat fuel) :
  exists (w' : call_world) (out : SamplerOutput),
    run_call (__call__ fuel input_strings total_generation_steps echo
                       return_logits forbidden_tokens sampling) self
    = (w', Ok out).
Proof.
  destruct (call_total self input_strings total_generation_steps
              return_logits (forbidden_ids_of self forbidden_tokens)
              sampling max_input_length Hmax Hsteps)
    as (_ & _ & s0 & n & Hinit & Hn & _ & _ & Hrun); [lia|].
  eexists _, _.
  apply (call_run self fuel input_strings total_generation_steps echo
           return_logits forbidden_tokens sampling max_input_length s0
           (sample_steps self (params self) sampling n s0));
    [done | done | done |].
  apply Hrun. lia.
Qed.

(** C8: a call whose values are typed as the source takes them to be,
    with valid forbidden tokens, a prompt, a number of generation
    steps that is not negative and a total number of steps below the
    largest [int32], returns; and for every sequence [i] the tokens it
    returns are the slots [start_idx .. total_sampling_steps - 1] of
    row [i] of the masked buffer of the state the loop ended in.  This
    row has [total_sampling_steps + 1] slots, so its last slot is never
    returned; [start_idx] is 0 with [echo] and [num_input_tokens[i]]
    without, and the number of tokens is [total_sampling_steps], resp.
    [total_sampling_steps - num_input_tokens[i]]. *)
Theorem output_lengths self (fuel : nat) (input_strings : list string)
    (total_generation_steps : Z) (echo return_logits : bool)
    (forbidden_tokens : option (list string)) sampling
    (max_input_length : Z)
    (Htyped : typed_call self input_strings forbidden_tokens)
    (Hvalid : forbidden_tokens_valid self forbidden_tokens)
    (Hmax : py_max (map (fun x => Z.of_nat (length (tokenize self x)))
                        input_strings)
            = Ok max_input_length)
    (Hsteps : 0 <= total_generation_steps)
    (Htotal : max_input_length + total_generation_steps < Int32.max_int)
    (Hfuel : max_input_length + total_generation_steps < Z.of_nat fuel) :
  exists (s0 st : _SamplingState) (w' : call_world) (out : SamplerOutput),
    init_sample_state self (map (tokenize self) input_strings)
      (max_input_length + total_generation_steps) return_logits
      (forbidden_ids_of self forbidden_tokens)
    = Ok s0
    /\ _sample_fn fuel self (params self) s0 sampling = Ok st
    /\ run_call (__call__ fuel input_strings total_generation_steps echo
                          return_logits forbidden_tokens sampling) self
       = (w', Ok out)
    /\ length (tokens out) = length input_strings
    /\ forall (i : nat) (x : string),
         input_strings !! i = Some x ->
         let total_sampling_steps :=
           max_input_length + total_generation_steps in
         let num_tokens := Z.of_nat (length (tokenize self x)) in
         let start_idx := if echo then 0 else num_tokens in
         exists row toks : list Z,
           mask_tokens_after_eos_ids self (token_buffer st) !! i = Some row
           /\ num_input_tokens st !! i = Some num_tokens
           /\ Z.of_nat (length row) = total_sampling_steps + 1
           /\ tokens out !! i = Some toks
           /\ toks = take (Z.to_nat (total_sampling_steps - start_idx))
                          (drop (Z.to_nat start_idx) row)
           /\ Z.of_nat (length toks)
              = if echo then total_sampling_steps
                else total_sampling_steps - num_tokens.
Proof.
  destruct (call_total self input_strings total_generation_steps
              return_logits (forbidden_ids_of self forbidden_tokens)
              sampling max_input_length Hmax Hsteps)
    as (H0 & Hfit & s0 & n & Hinit & Hn & _ & _ & Hrun); [lia|].
  set (total := max_input_length + total_generation_steps) in *.
  set (st := sample_steps self (params self) sampling n s0).
  assert (Hloop : _sample_fn fuel self (params self) s0 sampling = Ok st)
    by (apply Hrun; lia).
  exists s0, st. eexists _, _. split; [done|]. split; [done|].
  split.
  { apply (call_run self fuel input_strings total_generation_steps echo
             return_logits forbidden_tokens sampling max_input_length s0 st);
      done. }
  simpl. fold total.
  destruct (init_sample_state_rows _ _ _ _ _ _ Hinit) as [Hlen0 Hrows0];
    [lia|].
  apply init_sample_state_Ok in Hinit as (_ & _ & Hn0 & _).
  destruct (steps_keep_shape self (params self) sampling n s0)
    as (Hlen & Hnk & Hrows).
  fold st in Hlen, Hnk, Hrows.
  unfold out_tokens_of, mask_tokens_after_eos_ids. rewrite Hnk, Hn0.
  split.
  - rewrite length_zip_with, !length_map, Hlen, Hlen0, length_map. lia.
  - intros i x Hx.
    destruct (Hrows0 i (tokenize self x)) as (row0 & Hrow0 & Hlenr0 & _).
    { by rewrite list_lookup_fmap, Hx. }
    destruct (Hrows i row0 Hrow0) as (row & Hrow & Hlenr).
    assert (Hle : Z.of_nat (length (tokenize self x)) <= max_input_length).
    { apply Hfit. by eapply list_elem_of_lookup_2. }
    set (num_tokens := Z.of_nat (length (tokenize self x))) in *.
    destruct (slice_inside (mask_row_after_eos_ids self row)
                (if echo then 0 else num_tokens) total)
      as [Hslice Hslice_len].
    { destruct echo; lia. }
    { rewrite length_mask_row. lia. }
    exists (mask_row_after_eos_ids self row),
           (Jnp.slice (mask_row_after_eos_ids self row)
                      (if echo then 0 else num_tokens) total).
    split; [by rewrite list_lookup_fmap, Hrow|].
    split; [by rewrite !list_lookup_fmap, Hx|].
    split; [rewrite length_mask_row; lia|].
    split.
    { apply lookup_zip_with_Some.
      exists (mask_row_after_eos_ids self row), num_tokens.
      split; [done|]. split.
      - by rewrite list_lookup_fmap, Hrow.
      - by rewrite !list_lookup_fmap, Hx. }
    split; [done|].
    rewrite Hslice_len. destruct echo; [lia|reflexivity].
Qed.

(** What a call that returns has done.  Its decode loop ran some number
    [n] of steps from the initial state: the loop condition holds on
    the states after fewer than [n] steps and fails on the state after
    [n].  The call has split the key of the sampler once per step, [n]
    times, and stored the key that is left, leaving the other fields of
    the sampler as they were; its trace is the encoding of the
    forbidden tokens, the tokenization of the prompts, the building of
    the state, the decode loop and the decoding of each output, in this
    order; it returns one list of tokens per prompt, and [text] is
    their decoding. *)
Theorem call_effects self (fuel : nat) (input_strings : list string)
    (total_generation_steps : Z) (echo return_logits : bool)
    (forbidden_tokens : option (list string)) sampling (w' : call_world)
    (out : SamplerOutput)
    (Hcall : run_call (__call__ fuel input_strings total_generation_steps
                                echo return_logits forbidden_tokens sampling)
                      self
             = (w', Ok out)) :
  exists (max_input_length : Z) (s0 : _SamplingState) (n : nat),
    py_max (map (fun x => Z.of_nat (length (tokenize self x))) input_strings)
    = Ok max_input_length
    /\ init_sample_state self (map (tokenize self) input_strings)
         (max_input_length + total_generation_steps) return_logits
         (forbidden_ids_of self forbidden_tokens)
       = Ok s0
    /\ (n < fuel)%nat
    /\ (forall k : nat, (k < n)%nat ->
          cond_fn (sample_steps self (params self) sampling k s0) = true)
    /\ cond_fn (sample_steps self (params self) sampling n s0) = false
    /\ _rng (w_self w') = advance_key n (_rng self)
    /\ transformer (w_self w') = transformer self
    /\ tokenizer (w_self w') = tokenizer self
    /\ params (w_self w') = params self
    /\ cache_length (w_self w') = cache_length self
    /\ w_trace w'
       = forbidden_events forbidden_tokens
         ++ map EvTokenize input_strings
         ++ [EvInitSampleState; EvSampleFn]
         ++ map EvDecode (tokens out)
    /\ text out = map (decode (tokenizer self)) (tokens out)
    /\ length (tokens out) = length input_strings.
Proof.
  destruct (call_Ok_stages _ _ _ _ _ _ _ _ _ _ Hcall)
    as (Hvalid & max_input_length & s0 & st & Hmax & Hinit & Hloop).
  rewrite (call_run self fuel input_strings total_generation_steps echo
             return_logits forbidden_tokens sampling max_input_length s0 st
             Hvalid Hmax Hinit Hloop) in Hcall.
  injection Hcall as <- <-. simpl.
  apply while_loop_Ok_steps in Hloop as (n & Hn & -> & Hstop & Hbefore).
  exists max_input_length, s0, n.
  split; [done|]. split; [done|]. split; [done|]. split; [done|].
  split; [done|].
  apply init_sample_state_Ok in Hinit as (_ & _ & Hn0 & Hrows & _ & _ & _ & Hrng).
  apply mapM_outcome_Ok in Hrows as [Hlen0 _].
  split; [by rewrite rng_steps, Hrng|].
  do 6 (split; [done|]).
  destruct (steps_keep_shape self (params self) sampling n s0)
    as (Hlen & Hnk & _).
  unfold out_tokens_of, mask_tokens_after_eos_ids.
  rewrite length_zip_with, length_map, Hlen, Hnk, Hn0, Hlen0, !length_map.
  lia.
Qed.

(** A call on no prompt raises, after the forbidden tokens were
    encoded and before anything else is done; the sampler is left as
    it was. *)
Theorem call_without_prompts self (fuel : nat)
    (total_generation_steps : Z) (echo return_logits : bool)
    (forbidden_tokens : option (list string)) sampling
    (Hvalid : forbidden_tokens_valid self forbidden_tokens) :
  exists msg : string,
    run_call (__call__ fuel [] total_generation_steps echo return_logits
                       forbidden_tokens sampling) self
    = ({| w_self := self; w_trace := forbidden_events forbidden_tokens |},
       Raise (ValueError msg)).
Proof.
  eexists. unfold run_call, __call__.
  erewrite M_bind_Ok by (unfold get_self; reflexivity). simpl.
  erewrite M_bind_Ok by (by apply forbidden_stage_Ok).
  erewrite M_bind_Ok by reflexivity.
  erewrite M_bind_Raise by reflexivity. done.
Qed.


(** ** Calls that do not return *)

Lemma M_bind_cases {A B : Type} (m : call_monad A) (f : A -> call_monad B)
    (w w' : call_world) (r : outcome B) :
  (m ≫= f) w = (w', r) ->
  match m w with
  | (w1, Ok a) => f a w1 = (w', r)
  | (w1, Raise e) => w' = w1 /\ r = Raise e
  | (w1, OutOfFuel) => w' = w1 /\ r = OutOfFuel
  end.
Proof.
  unfold mbind, M_bind. destruct (m w) as [w1 [a| |]]; [done| |];
    by intros [= <- <-].
Qed.

Lemma forbidden_ids_loop_self self (toks : list string) (acc : list Z)
    (w w' : call_world) (r : outcome (list Z)) :
  forbidden_ids_loop self toks acc w = (w', r) -> w_self w' = w_self w.
Proof.
  revert acc w. induction toks as [|token toks IH]; intros acc w Hrun.
  - by injection Hrun as <- _.
  - simpl in Hrun. unfold mbind, M_bind, emit in Hrun. simpl in Hrun.
    destruct (decide _) in Hrun.
    + by apply IH in Hrun.
    + by injection Hrun as <- _.
Qed.

Lemma forbidden_stage_self self (forbidden_tokens : option (list string))
    (w w' : call_world) (r : outcome (option (list Z))) :
  match forbidden_tokens with
  | Some forbidden_tokens =>
      forbidden_token_ids ← forbidden_ids_loop self forbidden_tokens [];
      mret (Some forbidden_token_ids)
  | None => mret None
  end w = (w', r) ->
  w_self w' = w_self w.
Proof.
  destruct forbidden_tokens as [toks|]; [|by intros [= <- _]].
  intros Hrun. apply M_bind_cases in Hrun.
  destruct (forbidden_ids_loop self toks [] w) as [w1 [ids| |]] eqn:Hloop;
    apply forbidden_ids_loop_self in Hloop.
  - by injection Hrun as <- _.
  - by destruct Hrun as [-> _].
  - by destruct Hrun as [-> _].
Qed.

(** A call that raises, or runs out of fuel, leaves the sampler as it
    was: its key is replaced only when the call returns. *)
Theorem failed_call_keeps_sampler self (fuel : nat)
    (input_strings : list string) (total_generation_steps : Z)
    (echo return_logits : bool) (forbidden_tokens : option (list string))
    sampling (w' : call_world) (r : outcome SamplerOutput)
    (Hcall : run_call (__call__ fuel input_strings total_generation_steps
                                echo return_logits forbidden_tokens sampling)
                      self
             = (w', r))
    (Hfail : forall out, r <> Ok out) :
  w_self w' = self.
Proof.
  unfold run_call, __call__ in Hcall.
  apply M_bind_cases in Hcall. unfold get_self in Hcall. simpl in Hcall.
  apply M_bind_cases in Hcall.
  match type of Hcall with
  | match ?stage with _ => _ end =>
      destruct stage as [w2 [ids| |]] eqn:Hforb
  end;
    apply forbidden_stage_self in Hforb; simpl in Hforb;
    [|by destruct Hcall as [-> _] ..].
  apply M_bind_cases in Hcall.
  rewrite (mapM_emit EvTokenize (tokenize self)) in Hcall by done.
  apply M_bind_cases in Hcall. unfold lift in Hcall.
  destruct (py_max _) as [max_input_length| |];
    [|by destruct Hcall as [-> _] ..].
  apply M_bind_cases in Hcall. unfold emit in Hcall. simpl in Hcall.
  apply M_bind_cases in Hcall. unfold lift in Hcall.
  destruct (init_sample_state _ _ _ _ _) as [s0| |];
    [|by destruct Hcall as [-> _] ..].
  apply M_bind_cases in Hcall. unfold emit in Hcall. simpl in Hcall.
  apply M_bind_cases in Hcall. unfold lift in Hcall.
  destruct (_sample_fn _ _ _ _ _) as [st| |];
    [|by destruct Hcall as [-> _] ..].
  apply M_bind_cases in Hcall.
  rewrite (mapM_emit EvDecode (decode (tokenizer self))) in Hcall by done.
  apply M_bind_cases in Hcall. unfold set_rng in Hcall. simpl in Hcall.
  injection Hcall as _ <-. exfalso. by eapply Hfail.
Qed.


(** ** Echo *)

(** The mask of a row ends after a prefix that holds no EOS. *)
Lemma eos_index_ge self (row : list Z) (n : nat) :
  (n <= length row)%nat ->
  (forall j : nat, (j < n)%nat ->
     row !! j <> Some (EOS (special_tokens (tokenizer self)))) ->
  Z.of_nat n <= eos_index self row.
Proof.
  intros Hn Hprefix. destruct (first_eos_cases self row) as [[k Hk]|Hnone].
  - rewrite (eos_index_first self row k Hk). destruct Hk as [Hk _].
    destruct (decide (k < n)%nat) as [Hlt|]; [|lia].
    by destruct (Hprefix k Hlt).
  - rewrite (eos_index_none self row Hnone). lia.
Qed.

(** With echo, the tokens returned for a sequence are its prompt
    followed by the tokens the same call returns without echo, provided
    the prompt holds no EOS. *)
Theorem echo_prepends_prompt self (fuel : nat)
    (input_strings : list string) (total_generation_steps : Z)
    (return_logits : bool) (forbidden_tokens : option (list string))
    sampling (w1 w2 : call_world) (out1 out2 : SamplerOutput)
    (max_input_length : Z) (i : nat) (x : string)
    (Hsteps : 0 <= total_generation_steps)
    (Hmax : py_max (map (fun x => Z.of_nat (length (tokenize self x)))
                        input_strings)
            = Ok max_input_length)
    (Htotal : max_input_length + total_generation_steps < Int32.max_int)
    (Hi : input_strings !! i = Some x)
    (Hint : Forall Int32.in_range (tokenize self x))
    (Hnoeos : EOS (special_tokens (tokenizer self)) ∉ tokenize self x)
    (Hecho : run_call (__call__ fuel input_strings total_generation_steps
                                true return_logits forbidden_tokens sampling)
                      self
             = (w1, Ok out1))
    (Hplain : run_call (__call__ fuel input_strings total_generation_steps
                                 false return_logits forbidden_tokens
                                 sampling) self
              = (w2, Ok out2)) :
  exists t1 t2 : list Z,
    tokens out1 !! i = Some t1
    /\ tokens out2 !! i = Some t2
    /\ t1 = tokenize self x ++ t2.
Proof.
  destruct (call_Ok_stages _ _ _ _ _ _ _ _ _ _ Hecho)
    as (Hvalid & m1 & s0 & st & Hmax1 & Hinit & Hloop).
  rewrite Hmax in Hmax1. injection Hmax1 as <-.
  rewrite (call_run self fuel input_strings total_generation_steps true
             return_logits forbidden_tokens sampling max_input_length s0 st
             Hvalid Hmax Hinit Hloop) in Hecho.
  rewrite (call_run self fuel input_strings total_generation_steps false
             return_logits forbidden_tokens sampling max_input_length s0 st
             Hvalid Hmax Hinit Hloop) in Hplain.
  injection Hecho as _ <-. injection Hplain as _ <-. simpl.
  set (total := max_input_length + total_generation_steps) in *.
  pose proof (py_max_Ok _ _ Hmax) as Hle.
  assert (Hfit : Z.of_nat (length (tokenize self x)) <= max_input_length).
  { apply Hle. apply list_elem_of_fmap. exists x. split; [done|].
    by eapply list_elem_of_lookup_2. }
  assert (H0 : 0 <= total) by (unfold total; lia).
  pose proof (init_sample_state_int32 _ _ _ _ _ _ Hinit
                (conj H0 Htotal)) as Hwf.
  destruct (init_sample_state_rows _ _ _ _ _ _ Hinit H0) as [_ Hrows0].
  destruct (Hrows0 i (tokenize self x)) as (row0 & Hrow0 & Hlen0 & Hfit0 & Htake0).
  { by rewrite list_lookup_fmap, Hi. }
  apply init_sample_state_Ok in Hinit as (_ & _ & Hn0 & _).
  apply while_loop_Ok in Hloop as (n & -> & _).
  destruct (steps_keep_prompt self (params self) sampling n i s0 row0
              (Z.of_nat (length (tokenize self x))) Hwf Hrow0)
    as (row & Hrow & Hn & Hlen & Htake).
  { by rewrite Hn0, !list_lookup_fmap, Hi. }
  rewrite Nat2Z.id in Htake. rewrite Htake0 in Htake.
  set (masked := mask_row_after_eos_ids self row).
  assert (Hprefix : take (length (tokenize self x)) masked = tokenize self x).
  { rewrite <- Htake at 2. apply list_eq. intros j.
    destruct (decide (j < length (tokenize self x))%nat) as [Hj|Hj].
    - rewrite !lookup_take_lt by done.
      destruct (lookup_lt_is_Some_2 row j) as [t Ht]; [lia|].
      rewrite Ht. apply mask_row_keep; [done| |].
      + assert (Z.of_nat (length (tokenize self x)) <= eos_index self row);
          [|lia].
        apply eos_index_ge; [lia|]. intros j' Hj' Heos.
        apply Hnoeos. rewrite <- Htake.
        apply list_elem_of_lookup. exists j'. by rewrite lookup_take_lt.
      + eapply (Forall_lookup_1 _ _ j); [exact Hint|].
        by rewrite <- Htake, lookup_take_lt.
    - by rewrite !lookup_take_ge by lia. }
  destruct (slice_inside masked 0 total) as [Hs1 _];
    [lia | unfold masked; rewrite length_mask_row; lia|].
  destruct (slice_inside masked (Z.of_nat (length (tokenize self x))) total)
    as [Hs2 _]; [lia | unfold masked; rewrite length_mask_row; lia|].
  exists (Jnp.slice masked 0 total),
         (Jnp.slice masked (Z.of_nat (length (tokenize self x))) total).
  unfold out_tokens_of, mask_tokens_after_eos_ids.
  split; [|split].
  - apply lookup_zip_with_Some. eexists masked, _. split; [done|].
    split; [by rewrite list_lookup_fmap, Hrow|done].
  - apply lookup_zip_with_Some. eexists masked, _. split; [done|].
    split; [by rewrite list_lookup_fmap, Hrow|done].
  - rewrite Hs1, Hs2. clear Hs1 Hs2.
    change (Z.to_nat 0) with 0%nat. rewrite drop_0, Nat2Z.id, Z.sub_0_r.
    set (len := length (tokenize self x)) in *.
    transitivity (take len masked
                  ++ take (Z.to_nat (total - Z.of_nat len)) (drop len masked));
      [|by rewrite Hprefix].
    rewrite take_take_drop. f_equal. lia.
Qed.

(** ** The logits a call returns *)

Lemma logits_buffer_step self params s sampling :
  logits_buffer (_sample_step self params s sampling)
  = match logits_buffer s with
    | Some lb =>
        Some (Jnp.at_set_col lb (Int32.add (decoding_step s) 1)
                (map (fun l => default [] (head l))
                     (sampling_logits self params s)))
    | None => None
    end.
Proof.
  unfold _sample_step, sampling_logits.
  by destruct (random_split (rng s)), (logits_buffer s).
Qed.

(** The buffer of logits keeps the shape it is built with. *)
Lemma logits_buffer_shape self params sampling (k : nat) s (B L : nat) :
  (exists lb, logits_buffer s = Some lb /\ length lb = B
              /\ Forall (fun lrow => length lrow = L) lb) ->
  exists lb, logits_buffer (sample_steps self params sampling k s) = Some lb
             /\ length lb = B
             /\ Forall (fun lrow => length lrow = L) lb.
Proof.
  revert s. induction k as [|k IH]; intros s Hs; [done|].
  simpl. apply IH. destruct Hs as (lb & Hlb & Hlen & Hrows).
  rewrite logits_buffer_step, Hlb. eexists. split; [done|].
  split; [by rewrite JnpFacts.length_at_set_col|].
  apply Forall_lookup. intros i lrow' Hi.
  rewrite JnpFacts.lookup_at_set_col in Hi.
  destruct (lb !! i) as [lrow|] eqn:Hlrow; [|done]. simpl in Hi.
  pose proof (Forall_lookup_1 _ _ _ _ Hrows Hlrow) as Hl. simpl in Hl.
  destruct (_ !! i) in Hi; simplify_eq; [|done].
  by rewrite JnpFacts.length_at_set.
Qed.

Lemma init_logits_buffer self (all_input_ids : list (list Z)) (total : Z)
    (forbidden : option (list Z)) s0 :
  init_sample_state self all_input_ids total true forbidden = Ok s0 ->
  exists lb, logits_buffer s0 = Some lb
             /\ length lb = length all_input_ids
             /\ Forall (fun lrow => length lrow = Z.to_nat (total + 1)) lb.
Proof.
  unfold init_sample_state. destruct (total + 1 <? 0); [done|].
  unfold mbind, outcome_bind.
  destruct (mapM _ all_input_ids) as [tb| |]; try done.
  destruct (mapM _ all_input_ids) as [im| |]; try done.
  intros [= <-]. simpl. eexists. split; [done|]. unfold Jnp.full.
  split; [by rewrite length_replicate|].
  apply Forall_replicate. by rewrite length_replicate.
Qed.

(** Without [return_logits] a call returns no logits.  With it, and a
    number of generation steps that is not negative, it returns one
    list of logits per sequence, with one vector of logits per token
    returned for the sequence. *)
Theorem logits_follow_tokens self (fuel : nat)
    (input_strings : list string) (total_generation_steps : Z)
    (echo return_logits : bool) (forbidden_tokens : option (list string))
    sampling (w' : call_world) (out : SamplerOutput)
    (Hsteps : 0 <= total_generation_steps)
    (Hcall : run_call (__call__ fuel input_strings total_generation_steps
                                echo return_logits forbidden_tokens sampling)
                      self
             = (w', Ok out)) :
  (return_logits = false -> logits out = [])
  /\ (return_logits = true ->
      length (logits out) = length input_strings
      /\ forall (i : nat) (toks : list Z),
           tokens out !! i = Some toks ->
           exists lg : list (list F),
             logits out !! i = Some lg /\ length lg = length toks).
Proof.
  destruct (call_Ok_stages _ _ _ _ _ _ _ _ _ _ Hcall)
    as (Hvalid & max_input_length & s0 & st & Hmax & Hinit & Hloop).
  rewrite (call_run self fuel input_strings total_generation_steps echo
             return_logits forbidden_tokens sampling max_input_length s0 st
             Hvalid Hmax Hinit Hloop) in Hcall.
  injection Hcall as _ <-. simpl.
  split; [by intros ->|]. intros ->.
  set (total := max_input_length + total_generation_steps) in *.
  pose proof (py_max_Ok _ _ Hmax) as Hle.
  destruct (py_max_nonempty _ _ Hmax) as [x0 Hx0].
  assert (H0 : 0 <= total).
  { pose proof (Hle x0 Hx0) as Hx0le.
    apply list_elem_of_fmap in Hx0 as (y & -> & _). unfold total. lia. }
  destruct (init_sample_state_rows _ _ _ _ _ _ Hinit H0) as [Hlen0 Hrows0].
  destruct (init_logits_buffer _ _ _ _ _ Hinit) as (lb0 & Hlb0 & Hlblen0 & Hlbrows0).
  apply init_sample_state_Ok in Hinit as (_ & _ & Hn0 & _).
  apply while_loop_Ok in Hloop as (n & -> & _).
  destruct (steps_keep_shape self (params self) sampling n s0)
    as (Hlen & Hn & Hrows).
  destruct (logits_buffer_shape self (params self) sampling n s0
              (length (map (tokenize self) input_strings))
              (Z.to_nat (total + 1)))
    as (lb & Hlb & Hlblen & Hlbrows); [by exists lb0|].
  rewrite Hlb, Hn, Hn0. unfold out_logits_of, out_tokens_of,
    mask_tokens_after_eos_ids.
  split.
  - rewrite length_imap, length_zip, !length_map, Hlen, Hlen0, length_map.
    lia.
  - intros i toks Htoks.
    apply lookup_zip_with_Some in Htoks as (mrow & num & -> & Hmrow & Hnum).
    rewrite list_lookup_imap.
    rewrite (proj2 (lookup_zip_with_Some pair _ _ i (mrow, num)));
      [|by exists mrow, num].
    simpl. eexists. split; [done|].
    rewrite list_lookup_fmap in Hmrow.
    destruct (token_buffer _ !! i) as [row|] eqn:Hrow; [|done].
    simpl in Hmrow. injection Hmrow as <-.
    rewrite !list_lookup_fmap in Hnum.
    destruct (input_strings !! i) as [x|] eqn:Hx; [|done].
    simpl in Hnum. injection Hnum as <-.
    destruct (Hrows0 i (tokenize self x)) as (row0 & Hrow0 & Hrl0 & _).
    { by rewrite list_lookup_fmap, Hx. }
    destruct (Hrows i row0 Hrow0) as (row' & Hrow' & Hrl).
    simplify_eq.
    destruct (lookup_lt_is_Some_2 lb i) as [lrow Hlrow].
    { rewrite Hlblen, length_map. by eapply lookup_lt_Some. }
    pose proof (Forall_lookup_1 _ _ _ _ Hlbrows Hlrow) as Hll. simpl in Hll.
    rewrite Hlrow. simpl.
    assert (Hfit : Z.of_nat (length (tokenize self x)) <= max_input_length).
    { apply Hle. apply list_elem_of_fmap. exists x. split; [done|].
      by eapply list_elem_of_lookup_2. }
    set (start := if echo then 0 else Z.of_nat (length (tokenize self x))).
    assert (Hstart : 0 <= start <= total).
    { unfold start, total. destruct echo; lia. }
    destruct (slice_inside lrow start total) as [_ Hl1]; [lia|lia|].
    destruct (slice_inside (mask_row_after_eos_ids self row) start total)
      as [_ Hl2]; [lia | rewrite length_mask_row; lia|].
    apply Nat2Z.inj. etransitivity; [exact Hl1|]. symmetry. exact Hl2.
Qed.

End MoreFacts.

(** ** The further properties on the small instance *)

Section MoreInstances.
Import Demo.

Local Abbreviation demo := (demo_sampler 1).

Local Ltac int32 :=
  unfold Int32.in_range, Int32.min_int, Int32.max_int; simpl; lia.

Local Ltac demo_typed :=
  unfold typed_call, tokenize; simpl;
  repeat match goal with
         | |- _ /\ _ => split
         | |- Forall _ [] => constructor
         | |- Forall _ (_ :: _) => constructor
         | |- Forall _ ?l =>
             let l' := eval vm_compute in l in change l with l'
         | |- _ => int32
         end.

(** At time step 1 of a cache of 3 slots, slot 2 is not attended. *)
Lemma demo_causal_mask :
  length (_compute_attention_masks 1 3 [[true; true; true]]) = 1%nat
  /\ match _compute_attention_masks 1 3 [[true; true; true]] !! 0%nat with
     | Some [m] => length m = 3%nat /\ m !! 2%nat <> Some true
     | _ => False
     end.
Proof.
  destruct (attention_mask_causal 1 3 [[true; true; true]]) as [Hlen Hrows].
  - int32.
  - split; [exact Hlen|].
    destruct (_compute_attention_masks 1 3 [[true; true; true]] !! 0%nat)
      as [l|] eqn:Hl.
    + destruct (Hrows 0%nat l Hl) as (m & -> & Hm & Hfuture).
      split; [exact Hm|]. intros H2. specialize (Hfuture 2%nat H2). lia.
    + vm_compute in Hl. discriminate.
Defined.

(** At time step 1 of a cache of 3 slots, slot 1 is inside the causal
    mask and is attended as the input mask says. *)
Lemma demo_window_mask :
  exists m : list bool,
    _compute_attention_masks 1 3 [[true; false; true; true]] !! 0%nat
    = Some [m]
    /\ m !! 0%nat = Some true
    /\ m !! 1%nat = Some false
    /\ m !! 2%nat = Some false.
Proof.
  destruct (attention_mask_window 1 3 [[true; false; true; true]] 0
              [true; false; true; true])
    as (m & Hm & Hslot).
  - lia.
  - int32.
  - reflexivity.
  - exists m. split; [exact Hm|].
    split; [|split]; (etransitivity; [apply Hslot; simpl; lia|reflexivity]).
Defined.

(** At time step 4 a cache of 3 slots shows the input mask from its
    slot 2 on. *)
Lemma demo_sliding_mask :
  exists m : list bool,
    _compute_attention_masks 4 3
      [[true; false; true; false; false; true]] !! 0%nat
    = Some [m]
    /\ m !! 0%nat = Some true
    /\ m !! 1%nat = Some false.
Proof.
  destruct (attention_mask_slides 4 3
              [[true; false; true; false; false; true]] 0
              [true; false; true; false; false; true])
    as (m & Hm & Hslot).
  - simpl. lia.
  - int32.
  - reflexivity.
  - exists m. split; [exact Hm|]. split.
    + destruct (Hslot 0%nat) as (v & Hv & ->); [simpl; lia|].
      symmetry. exact Hv.
    + destruct (Hslot 1%nat) as (v & Hv & ->); [simpl; lia|].
      symmetry. exact Hv.
Defined.

(** A step of the state [7, EOS, 9, PAD] at decoding step 0 writes the
    sampled token 5 at slot 1 and keeps slots 0 and 2. *)
Lemma demo_step_slot :
  exists row' : list Z,
    token_buffer (_sample_step demo tt (demo_state 1) (always 5)) !! 0%nat
    = Some row'
    /\ length row' = 4%nat
    /\ row' !! 0%nat = Some 7
    /\ row' !! 1%nat = Some 5
    /\ row' !! 2%nat = Some 9.
Proof.
  destruct (step_writes_one_slot demo tt (demo_state 1) (always 5) 0
              [7; 1; 9; 0])
    as (row' & Hrow' & Hlen & Hkeep & Hnew).
  - int32.
  - reflexivity.
  - exists row'. split; [exact Hrow'|]. split; [exact Hlen|].
    split; [|split].
    + apply (Hkeep 0%nat). simpl. lia.
    + apply (Hnew 5); [reflexivity|simpl; lia].
    + apply (Hkeep 2%nat). simpl. lia.
Defined.

(** After two steps on the prompt [BOS, 72, 101] the row is still the
    prompt followed by PAD. *)
Lemma demo_prefill :
  match init_sample_state demo [[2; 72; 101]] 6 false None with
  | Ok s0 =>
      token_buffer (sample_steps demo tt (always 5) 2 s0) !! 0%nat
      = Some [2; 72; 101; 0; 0; 0; 0]
  | _ => False
  end.
Proof.
  destruct (init_sample_state demo [[2; 72; 101]] 6 false None)
    as [s0| |] eqn:Hinit.
  - apply (prefill_keeps_row demo tt (always 5) [[2; 72; 101]] 6 false None
             s0 2 0 [2; 72; 101] Hinit).
    + int32.
    + reflexivity.
    + simpl. lia.
  - vm_compute in Hinit. discriminate.
  - vm_compute in Hinit. discriminate.
Defined.

(** The cases of [init_sample_state]: a negative buffer size, a prompt
    of 3 tokens for a buffer of 2 slots, a buffer without slots, and a
    prompt of 2 tokens for a buffer of 4 slots. *)
Lemma demo_init_cases :
  (exists msg,
     init_sample_state demo [[2; 7]] (-2) false None
     = Raise (TypeError msg))
  /\ (exists msg,
        init_sample_state demo [[2; 7; 7]] 1 false None
        = Raise (ValueError msg))
  /\ (exists s0,
        init_sample_state demo [[2; 7]] (-1) false None = Ok s0
        /\ token_buffer s0 = [[]]
        /\ done s0 = [false])
  /\ (exists s0,
        init_sample_state demo [[2; 7]] 3 true (Some [5]) = Ok s0
        /\ token_buffer s0 = [[2; 7; 0; 0]]
        /\ done s0 = [false]
        /\ logits_buffer s0
           = Some [replicate 4 (replicate 8 (Fin 0))]).
Proof.
  assert (Hpad : Int32.in_range (PAD (special_tokens (tokenizer demo))))
    by int32.
  split; [|split; [|split]].
  - apply (proj1 (init_sample_state_spec demo [[2; 7]] (-2) false None
                    Hpad ltac:(int32))).
    lia.
  - apply (proj1 (proj2 (init_sample_state_spec demo [[2; 7; 7]] 1 false
                           None Hpad ltac:(int32)))).
    + lia.
    + apply Exists_cons_hd. simpl. lia.
  - eexists. split.
    + apply (proj2 (proj2 (init_sample_state_spec demo [[2; 7]] (-1) false
                             None Hpad ltac:(int32)))).
      * lia.
      * intros Hpos. lia.
    + split; reflexivity.
  - eexists. split.
    + apply (proj2 (proj2 (init_sample_state_spec demo [[2; 7]] 3 true
                             (Some [5]) Hpad ltac:(int32)))).
      * lia.
      * intros _. constructor; [simpl; lia|constructor].
    + split; [reflexivity|]. split; reflexivity.
Defined.

(** The loop on the prompt [BOS, 72, 101] with 3 generation steps
    returns, with a fuel of 10, after at most 6 steps. *)
Lemma demo_loop_range :
  match init_sample_state demo [[2; 72; 101]] 6 false None with
  | Ok s0 =>
      exists n : nat,
        Z.of_nat n <= 6
        /\ _sample_fn 10 demo tt s0 (always 5)
           = Ok (sample_steps demo tt (always 5) n s0)
        /\ decoding_step (sample_steps demo tt (always 5) n s0)
           = Z.of_nat n
  | _ => False
  end.
Proof.
  destruct (init_sample_state demo [[2; 72; 101]] 6 false None)
    as [s0| |] eqn:Hinit.
  - destruct (loop_stays_in_buffer demo tt (always 5) [[2; 72; 101]] 6
                false None s0 Hinit)
      as (n & Hn & Hrun & _ & Hd & _).
    + int32.
    + exists n. split; [exact Hn|]. split; [|exact Hd].
      apply Hrun. lia.
  - vm_compute in Hinit. discriminate.
  - vm_compute in Hinit. discriminate.
Defined.

(** With a policy that returns EOS, the sequence of the prompt
    [BOS, 72, 101] is done after four steps: EOS is in slot 3. *)
Lemma demo_done_eos :
  match init_sample_state demo [[2; 72; 101]] 6 false None with
  | Ok s0 =>
      exists (row : list Z) (b : bool),
        token_buffer (sample_steps demo tt (always 1) 4 s0) !! 0%nat
        = Some row
        /\ done (sample_steps demo tt (always 1) 4 s0) !! 0%nat = Some b
        /\ b = true
  | _ => False
  end.
Proof.
  destruct (init_sample_state demo [[2; 72; 101]] 6 false None)
    as [s0| |] eqn:Hinit.
  - destruct (done_iff_eos_written demo tt (always 1) [[2; 72; 101]] 6 false
                None s0 4 0 [2; 72; 101] Hinit)
      as (row & b & Hrow & Hb & Hiff).
    + int32.
    + lia.
    + reflexivity.
    + exists row, b. split; [exact Hrow|]. split; [exact Hb|].
      apply Hiff. exists 3%nat. split; [lia|].
      vm_compute in Hinit. injection Hinit as <-.
      vm_compute in Hrow. injection Hrow as <-. reflexivity.
  - vm_compute in Hinit. discriminate.
  - vm_compute in Hinit. discriminate.
Defined.

(** Masking the row [7, EOS, 9] twice is masking it once. *)
Lemma demo_mask_twice :
  mask_tokens_after_eos_ids demo (mask_tokens_after_eos_ids demo [[7; 1; 9]])
  = mask_tokens_after_eos_ids demo [[7; 1; 9]].
Proof.
  apply (mask_tokens_idempotent demo [[7; 1; 9]]).
  - int32.
  - constructor; [|constructor].
    repeat (constructor; [int32|]). constructor.
Defined.

(** With id 5 forbidden, the logits of the other ids are those of the
    model; with no forbidden id, all are. *)
Lemma demo_mask_frame :
  match init_sample_state demo [[2; 7]] 3 false None with
  | Ok s0 => sampling_logits demo tt s0 = model_logits demo tt s0
  | _ => False
  end
  /\ exists (l0 : list (list logit)) (v0 : list logit),
       model_logits demo tt (demo_state 1) !! 0%nat = Some l0
       /\ l0 !! 0%nat = Some v0
       /\ [Fin 0; Fin 0; Fin 0; Fin 0; Fin 0; NegInf; Fin 0; Fin 0] !! 3%nat
          = v0 !! 3%nat.
Proof.
  split.
  - destruct (init_sample_state demo [[2; 7]] 3 false None)
      as [s0| |] eqn:Hinit.
    + apply (proj1 (forbidden_mask_frame demo tt s0)). left.
      vm_compute in Hinit. injection Hinit as <-. reflexivity.
    + vm_compute in Hinit. discriminate.
    + vm_compute in Hinit. discriminate.
  - destruct (proj2 (forbidden_mask_frame demo tt (demo_state 1)) [5]
                0%nat 0%nat
                [[Fin 0; Fin 0; Fin 0; Fin 0; Fin 0; NegInf; Fin 0; Fin 0]]
                [Fin 0; Fin 0; Fin 0; Fin 0; Fin 0; NegInf; Fin 0; Fin 0])
      as (l0 & v0 & Hl0 & _ & Hv0 & Hlen & Hsame);
      [reflexivity..|].
    exists l0, v0. split; [exact Hl0|]. split; [exact Hv0|].
    apply Hsame. intros id Hid.
    apply list_elem_of_singleton in Hid as ->.
    simpl in Hlen. rewrite <- Hlen. vm_compute. discriminate.
Defined.

(** With id 5 forbidden, the logits recorded at slot 1 have [-inf] at
    id 5. *)
Lemma demo_logits_recorded :
  exists (lb' : list (list (list logit))) (lrow' : list (list logit)),
    logits_buffer (_sample_step demo tt demo_state_logits (always 5))
    = Some lb'
    /\ lb' !! 0%nat = Some lrow'
    /\ lrow' !! 1%nat
       = Some [Fin 0; Fin 0; Fin 0; Fin 0; Fin 0; NegInf; Fin 0; Fin 0]
    /\ [Fin 0; Fin 0; Fin 0; Fin 0; Fin 0; NegInf; Fin 0; Fin 0] !! 5%nat
       = Some NegInf.
Proof.
  destruct (recorded_logits_masked demo tt demo_state_logits (always 5) [5]
              [replicate 4 (replicate 8 (Fin 0))] 0
              (replicate 4 (replicate 8 (Fin 0)))
              [Fin 0; Fin 0; Fin 0; Fin 0; Fin 0; NegInf; Fin 0; Fin 0] [])
    as (lb' & lrow' & Hlb' & Hlrow' & _ & Hslot & Hmasked).
  - int32.
  - reflexivity.
  - discriminate.
  - reflexivity.
  - reflexivity.
  - simpl. lia.
  - reflexivity.
  - exists lb', lrow'. split; [exact Hlb'|]. split; [exact Hlrow'|].
    split; [exact Hslot|]. apply (Hmasked 5).
    + constructor.
    + vm_compute. split; [discriminate|reflexivity].
Defined.

(** A call on two prompts with one valid forbidden token returns. *)
Lemma demo_call_returns :
  exists (w' : world) (out : SamplerOutput),
    run_call (__call__ 10 ["Hello"; "x"]%string 3 true true
                       (Some ["x"%string]) greedy) demo
    = (w', Ok out).
Proof.
  apply (call_returns demo 10 ["Hello"; "x"]%string 3 true true
           (Some ["x"%string]) greedy 3).
  - demo_typed.
  - constructor; [reflexivity|constructor].
  - reflexivity.
  - lia.
  - int32.
  - lia.
Defined.

(** C8 on a batch of two prompts, of 3 and 2 tokens, without echo: the
    tokens returned for the second are slots 2 to 5 of its masked
    row. *)
Lemma demo_lengths :
  exists (s0 st : _SamplingState) (w' : world) (out : SamplerOutput),
    init_sample_state demo [[2; 72; 101]; [2; 7]] 6 false None = Ok s0
    /\ _sample_fn 10 demo tt s0 (always 5) = Ok st
    /\ run_call (__call__ 10 ["Hello"; "x"]%string 3 false false None
                          (always 5)) demo
       = (w', Ok out)
    /\ length (tokens out) = 2%nat
    /\ exists row toks : list Z,
         mask_tokens_after_eos_ids demo (token_buffer st) !! 1%nat
         = Some row
         /\ Z.of_nat (length row) = 6 + 1
         /\ tokens out !! 1%nat = Some toks
         /\ toks = take (Z.to_nat (6 - 2)) (drop (Z.to_nat 2) row)
         /\ Z.of_nat (length toks) = 6 - 2.
Proof.
  destruct (output_lengths demo 10 ["Hello"; "x"]%string 3 false false
              None (always 5) 3)
    as (s0 & st & w' & out & Hinit & Hloop & Hcall & Hlen & Hrows).
  - demo_typed.
  - exact I.
  - reflexivity.
  - lia.
  - int32.
  - lia.
  - exists s0, st, w', out.
    split; [exact Hinit|]. split; [exact Hloop|]. split; [exact Hcall|].
    split; [exact Hlen|].
    pose proof (Hrows 1%nat "x"%string eq_refl) as Hrow. cbv zeta in Hrow.
    destruct Hrow as (row & toks & Hmasked & _ & Hsize & Htoks & Hslice
                      & Hcount).
    exists row, toks.
    split; [exact Hmasked|]. split; [exact Hsize|]. split; [exact Htoks|].
    split; [exact Hslice|exact Hcount].
Defined.

(** The key, the trace and the texts of a call on one prompt. *)
Lemma demo_call_trace :
  match run_call (__call__ 10 ["Hello"%string] 3 false false
                           (Some ["x"%string]) (always 5)) demo with
  | (w', Ok out) =>
      exists (s0 : _SamplingState) (n : nat),
        init_sample_state demo [[2; 72; 101]] 6 false (Some [7]) = Ok s0
        /\ cond_fn (sample_steps demo tt (always 5) n s0) = false
        /\ _rng (w_self w') = advance_key n 0%nat
        /\ w_trace w'
           = [EvEncodeForbidden "x"; EvTokenize "Hello"; EvInitSampleState;
              EvSampleFn] ++ map EvDecode (tokens out)
        /\ text out = map (decode (tokenizer demo)) (tokens out)
        /\ length (tokens out) = 1%nat
        /\ tokenizer (w_self w') = tokenizer demo
  | _ => False
  end.
Proof.
  destruct (run_call (__call__ 10 ["Hello"%string] 3 false false
                               (Some ["x"%string]) (always 5)) demo)
    as [w' [out| |]] eqn:Hcall.
  - destruct (call_effects demo 10 ["Hello"%string] 3 false false
                (Some ["x"%string]) (always 5) w' out Hcall)
      as (max_input_length & s0 & n & Hmax & Hinit & _ & _ & Hstop & Hrng
          & _ & Htok & _ & _ & Htrace & Htext & Hlen).
    vm_compute in Hmax. injection Hmax as <-.
    exists s0, n. split; [exact Hinit|]. split; [exact Hstop|].
    split; [exact Hrng|]. split; [exact Htrace|]. split; [exact Htext|].
    split; [exact Hlen|exact Htok].
  - vm_compute in Hcall. discriminate.
  - vm_compute in Hcall. discriminate.
Defined.

(** A call with no prompt raises after it has encoded the forbidden
    token. *)
Lemma demo_no_prompts :
  exists msg : string,
    run_call (__call__ 10 [] 3 false false (Some ["x"%string]) (always 5))
             demo
    = ({| w_self := demo; w_trace := [EvEncodeForbidden "x"] |},
       Raise (ValueError msg)).
Proof.
  apply (call_without_prompts demo 10 3 false false (Some ["x"%string])
           (always 5)).
  constructor; [reflexivity|constructor].
Defined.

(** A call with a negative number of generation steps raises and
    leaves the sampler as it was. *)
Lemma demo_failed_call :
  w_self (run_call (__call__ 10 ["Hello"%string] (-10) false false None
                             (always 5)) demo).1
  = demo.
Proof.
  apply (failed_call_keeps_sampler demo 10 ["Hello"%string] (-10) false false
           None (always 5) _
           (run_call (__call__ 10 ["Hello"%string] (-10) false false None
                               (always 5)) demo).2).
  - apply surjective_pairing.
  - intros out. vm_compute. discriminate.
Defined.

(** The tokens of a call with echo are the prompt [BOS, 72, 101]
    followed by the tokens of the call without echo. *)
Lemma demo_echo :
  match run_call (__call__ 10 ["Hello"%string] 3 true false None (always 5))
                 demo,
        run_call (__call__ 10 ["Hello"%string] 3 false false None (always 5))
                 demo with
  | (_, Ok out1), (_, Ok out2) =>
      exists t1 t2 : list Z,
        tokens out1 !! 0%nat = Some t1
        /\ tokens out2 !! 0%nat = Some t2
        /\ t1 = [2; 72; 101] ++ t2
  | _, _ => False
  end.
Proof.
  destruct (run_call (__call__ 10 ["Hello"%string] 3 true false None
                               (always 5)) demo)
    as [w1 [out1| |]] eqn:Hecho;
    [|vm_compute in Hecho; discriminate..].
  destruct (run_call (__call__ 10 ["Hello"%string] 3 false false None
                               (always 5)) demo)
    as [w2 [out2| |]] eqn:Hplain;
    [|vm_compute in Hplain; discriminate..].
  apply (echo_prepends_prompt demo 10 ["Hello"%string] 3 false None
           (always 5) w1 w2 out1 out2 3 0 "Hello"%string).
  - lia.
  - reflexivity.
  - int32.
  - reflexivity.
  - repeat (constructor; [int32|]). constructor.
  - vm_compute. intros Hin.
    repeat (apply elem_of_cons in Hin as [Hin|Hin]; [discriminate|]).
    by apply elem_of_nil in Hin.
  - exact Hecho.
  - exact Hplain.
Defined.

(** A call that returns logits returns three vectors of logits for the
    three tokens of the sequence. *)
Lemma demo_logits_lengths :
  match run_call (__call__ 10 ["Hello"%string] 3 false true None (always 5))
                 demo with
  | (_, Ok out) =>
      length (logits out) = 1%nat
      /\ exists (toks : list Z) (lg : list (list logit)),
           tokens out !! 0%nat = Some toks
           /\ logits out !! 0%nat = Some lg
           /\ length lg = length toks
  | _ => False
  end.
Proof.
  destruct (run_call (__call__ 10 ["Hello"%string] 3 false true None
                               (always 5)) demo)
    as [w' [out| |]] eqn:Hcall;
    [|vm_compute in Hcall; discriminate..].
  destruct (logits_follow_tokens demo 10 ["Hello"%string] 3 false true None
              (always 5) w' out) as [_ Hlogits].
  - lia.
  - exact Hcall.
  - destruct (Hlogits eq_refl) as [Hlen Hrows].
    split; [exact Hlen|].
    destruct (tokens out !! 0%nat) as [toks|] eqn:Htoks.
    + destruct (Hrows 0%nat toks Htoks) as (lg & Hlg & Hlglen).
      exists toks, lg. split; [reflexivity|]. split; [exact Hlg|exact Hlglen].
    + vm_compute in Hcall. injection Hcall as _ <-.
      vm_compute in Htoks. discriminate.
Defined.

End MoreInstances.
